(** * Similarity ranking of patent embeddings

    A shallow embedding of [SimilarityCalculator] from
    [src/BigQuery/bigquery.py]: the scalar [cosine_similarity], the
    vectorised [batch_cosine_similarity] and the Top-K selection
    [find_top_similar], together with the parts of numpy and pandas these
    three methods call, and the proofs of what the specification says of
    them (C1 to C10).

    Numbers.  numpy computes in IEEE 754 binary64.  The definitions are
    written once over a small interface of arithmetic operations
    ([Arith]) and read at two instances: [binary64], the kernel's
    primitive floats, which is what the program runs on, and [exact], the
    real numbers, which is the arithmetic the formulas are meant in.
    A division by zero raises nothing in numpy: it gives an infinity or a
    NaN, as it does here.

    Library calls.  [np.dot] and [np.linalg.norm] are modelled with a
    left-to-right accumulation of separately rounded products; numpy
    leaves the order of the additions, and whether a product is fused
    with its addition, to the BLAS it is linked with, so the last bit of
    a score is the model's.  The theorems about the ranking are stated
    against the scores the scoring function returns, whatever they are.
    [np.array] on rows of different lengths raises, as it does since
    numpy 1.24.  [DataFrame.nlargest] follows pandas' two methods: for
    [n] below the length of the frame, the selection that sorts with the
    stable mergesort (rows in descending order of the column, rows with
    equal values in their original order, NaN rows last, cut to [n]); for
    [n] at least the length of the frame, [sort_values], whose quicksort
    is not stable: the order of the rows with equal values is then a
    parameter ([Quicksort]).

    Effects.  [find_top_similar] is given twice: as the value it returns
    from the rows of the frame, and as a call in a store of frame objects
    with a log ([find_top_similar_call]), where the copy of the frame,
    the assignment of the new column and the three log lines are written
    out.  [find_top_similar_call_run] relates the two. *)

From Stdlib Require Import String List ZArith Bool Lia.
From Stdlib Require Import Floats Reals Lra Sorted Permutation.
Import ListNotations.

(** ** Arithmetic *)

Class Arith (A : Type) : Type := {
  fzero : A;
  fadd : A -> A -> A;
  fmul : A -> A -> A;
  fdiv : A -> A -> A;
  fsqrt : A -> A;
  feqb : A -> A -> bool;   (* [==] *)
  fltb : A -> A -> bool;   (* [<]  *)
  fleb : A -> A -> bool    (* [<=] *)
}.

(** IEEE 754 binary64, numpy's [float64]. *)
#[export] Instance binary64 : Arith float := {
  fzero := 0%float;
  fadd := PrimFloat.add;
  fmul := PrimFloat.mul;
  fdiv := PrimFloat.div;
  fsqrt := PrimFloat.sqrt;
  feqb := PrimFloat.eqb;
  fltb := PrimFloat.ltb;
  fleb := PrimFloat.leb
}.

(** Exact arithmetic on the reals (division by zero is [0] there, and no
    value is a NaN). *)
#[export] Instance exact : Arith R := {
  fzero := 0%R;
  fadd := Rplus;
  fmul := Rmult;
  fdiv := Rdiv;
  fsqrt := R_sqrt.sqrt;
  feqb := fun x y => if Req_dec_T x y then true else false;
  fltb := fun x y => if Rlt_dec x y then true else false;
  fleb := fun x y => if Rle_dec x y then true else false
}.

(** A value is a NaN when it differs from itself ([np.isnan], pandas'
    [isna] on a float column). *)
Definition isnan {A} `{Arith A} (x : A) : bool := negb (feqb x x).

(** ** Laws of the comparisons *)

(** What the sort needs of [<], [<=] and [==]: on values that are not NaN
    they are the comparisons of a total preorder. *)
Class ArithOrder {A : Type} (arith : Arith A) : Prop := {
  fltb_asym : forall x y, fltb x y = true -> fltb y x = false;
  fltb_negtrans : forall x y z,
    isnan y = false -> fltb x y = false -> fltb y z = false -> fltb x z = false;
  fleb_total : forall x y,
    isnan x = false -> isnan y = false -> fltb x y = false -> fleb y x = true;
  feqb_tied : forall x y, feqb x y = true -> fltb y x = false;
  feqb_number : forall x y, feqb x y = true -> isnan x = false /\ isnan y = false
}.

(** ** Exceptions *)

Inductive exn : Type :=
| ValueError   (* shapes not aligned, inhomogeneous array, length mismatch *)
| TypeError    (* arithmetic on [None] *)
| KeyError.    (* a column the frame does not have *)

Inductive outcome (T : Type) : Type :=
| Return (v : T)
| Raise (e : exn).

Arguments Return {T} v.
Arguments Raise {T} e.

Definition obind {T U} (o : outcome T) (k : T -> outcome U) : outcome U :=
  match o with
  | Return v => k v
  | Raise e => Raise e
  end.

Declare Scope outcome_scope.
Delimit Scope outcome_scope with outcome.
Notation "x <- o ;; k" := (obind o (fun x => k))
  (at level 100, o at next level, right associativity) : outcome_scope.
Local Open Scope outcome_scope.

(** ** numpy *)

(** A one-dimensional array. *)
Definition vector (A : Type) : Type := list A.

(** A two-dimensional array of shape [(n, d)], as its [n] rows.  An array
    of shape [(0, d)] is the empty list; [find_top_similar] never builds
    one. *)
Definition matrix (A : Type) : Type := list (vector A).

Section Numpy.
Context {A : Type} {arith : Arith A}.

(** The sum of the products of corresponding entries, accumulated from
    [0.0] from left to right. *)
Definition sum_products (a b : vector A) : A :=
  fold_left (fun acc p => fadd acc (fmul (fst p) (snd p))) (combine a b) fzero.

(** [np.dot(a, b)] on two one-dimensional arrays: a [ValueError] ("shapes
    not aligned") unless the lengths agree. *)
Definition np_dot (a b : vector A) : outcome A :=
  if (length a =? length b)%nat then Return (sum_products a b)
  else Raise ValueError.

(** [np.linalg.norm(v)] on a one-dimensional array: [sqrt(dot(v, v))]. *)
Definition np_linalg_norm (v : vector A) : A :=
  fsqrt (sum_products v v).

(** [v / s], a one-dimensional array divided by a scalar. *)
Definition divide_by (v : vector A) (s : A) : vector A :=
  map (fun x => fdiv x s) v.

(** [np.linalg.norm(m, axis=1, keepdims=True)]: the norm of each row,
    shape [(n, 1)]. *)
Definition np_linalg_norm_rows (m : matrix A) : list A :=
  map np_linalg_norm m.

(** [m / norms] with [norms] of shape [(n, 1)]: broadcasting divides each
    row by its own entry. *)
Definition divide_rows (m : matrix A) (norms : list A) : matrix A :=
  map (fun p => divide_by (fst p) (snd p)) (combine m norms).

(** [np.dot(m, v)] with [m] of shape [(n, d)] and [v] of shape [(d',)]: a
    [ValueError] unless [d = d'], else the dot product of every row with
    [v]. *)
Definition np_dot_matrix_vector (m : matrix A) (v : vector A) : outcome (list A) :=
  if forallb (fun r => (length r =? length v)%nat) m
  then Return (map (fun r => sum_products r v) m)
  else Raise ValueError.

(** [np.array([np.array(emb) for emb in column])]: the rows stacked into a
    two-dimensional array; a [ValueError] ("inhomogeneous shape") when the
    rows do not all have the length of the first. *)
Definition np_array (embeddings : list (vector A)) : outcome (matrix A) :=
  match embeddings with
  | [] => Return []
  | first :: _ =>
      if forallb (fun r => (length r =? length first)%nat) embeddings
      then Return embeddings
      else Raise ValueError
  end.

End Numpy.

(** ** SimilarityCalculator: the two scoring functions *)

Section Scoring.
Context {A : Type} {arith : Arith A}.

(** [SimilarityCalculator.cosine_similarity] *)
Definition cosine_similarity (vec1 vec2 : vector A) : outcome A :=
  dot_product <- np_dot vec1 vec2 ;;
  let norm_vec1 := np_linalg_norm vec1 in
  let norm_vec2 := np_linalg_norm vec2 in
  if feqb norm_vec1 fzero || feqb norm_vec2 fzero then
    Return fzero
  else
    Return (fdiv dot_product (fmul norm_vec1 norm_vec2)).

(** [SimilarityCalculator.batch_cosine_similarity].  The target is [None]
    when the caller has no embedding to pass; [np.linalg.norm(None)]
    multiplies [None] by itself, a [TypeError]. *)
Definition batch_cosine_similarity
    (target_vec : option (vector A)) (candidate_vecs : matrix A) : outcome (list A) :=
  match target_vec with
  | None => Raise TypeError
  | Some target_vec =>
      let target_norm := divide_by target_vec (np_linalg_norm target_vec) in
      let candidate_norms :=
        divide_rows candidate_vecs (np_linalg_norm_rows candidate_vecs) in
      similarities <- np_dot_matrix_vector candidate_norms target_norm ;;
      Return similarities
  end.

(** The entry of [batch_cosine_similarity] for one candidate row: both
    vectors are divided by their own norm, then multiplied. *)
Definition batch_entry (target_vec row : vector A) : A :=
  sum_products (divide_by row (np_linalg_norm row))
               (divide_by target_vec (np_linalg_norm target_vec)).

End Scoring.

(** ** pandas: the candidate frame and [nlargest] *)

(** The columns of a candidate other than its embedding; the ranking never
    looks inside them. *)
Record metadata : Type := {
  publication_number : string;
  title : string;
  filing_date : string;
  country_code : string
}.

(** A row of [candidates_df], the frame [get_candidate_embeddings]
    returns.  Its index is the default one: the row at position [i] has
    the label [i]. *)
Record candidate (A : Type) : Type := {
  meta : metadata;
  embedding_v1 : vector A
}.

Arguments Build_candidate {A} meta embedding_v1.
Arguments meta {A} c.
Arguments embedding_v1 {A} c.

(** A row of [result_df]: the candidate under its index label, with the
    column [similarity_score]. *)
Record scored (A : Type) : Type := {
  label : nat;
  cand : candidate A;
  similarity : A
}.

Arguments Build_scored {A} label cand similarity.
Arguments label {A} s.
Arguments cand {A} s.
Arguments similarity {A} s.

(** A row of the returned frame: [embedding_v1] dropped. *)
Record ranked (A : Type) : Type := {
  index : nat;
  info : metadata;
  similarity_score : A
}.

Arguments Build_ranked {A} index info similarity_score.
Arguments index {A} r.
Arguments info {A} r.
Arguments similarity_score {A} r.

(** [Series.sort_values(ascending=False)] on a column without NaN, as
    the positions of the column in the order of the sorted frame.  pandas
    sorts there with numpy's quicksort, which is not stable: the values
    come in non-increasing order, and the order in which the positions of
    equal values come is not fixed.  A value of this class is one such
    sort. *)
Class Quicksort {A : Type} (arith : Arith A) : Type := {
  argsort_descending : list A -> list nat;
  argsort_descending_perm : forall column,
    Permutation (argsort_descending column) (seq 0 (length column));
  argsort_descending_sorted : forall column,
    Forall (fun x => isnan x = false) column ->
    StronglySorted
      (fun i j => forall x y,
         nth_error column i = Some x -> nth_error column j = Some y ->
         fltb x y = false)
      (argsort_descending column)
}.

(** [df.iloc[indexer]] *)
Definition iloc {T : Type} (df : list T) (indexer : list nat) : list T :=
  flat_map (fun i => match nth_error df i with
                     | Some r => [r]
                     | None => []
                     end) indexer.

Section Argsort.
Context {A : Type} {arith : Arith A}.

(** A sort by insertion of the positions with their values, the later
    positions first.  A position goes behind the positions of greater
    values; behind those of equal values too when [reversed] is set, so
    that equal values come in the reverse of their order in the column,
    and in front of them otherwise, so that they keep that order. *)
Fixpoint insert_position (reversed : bool) (p : nat * A) (l : list (nat * A))
    : list (nat * A) :=
  match l with
  | [] => [p]
  | h :: t =>
      if (if reversed then negb (fltb (snd h) (snd p)) else fltb (snd p) (snd h))
      then h :: insert_position reversed p t
      else p :: h :: t
  end.

Definition insertion_argsort (reversed : bool) (column : list A) : list nat :=
  map fst (fold_right (insert_position reversed) []
             (combine (seq 0 (length column)) column)).

End Argsort.

Section Frames.
Context {A : Type} {arith : Arith A} {quicksort : Quicksort arith}.

(** The rows of a frame that has the column [similarity_score], each
    under its index label. *)
Definition scored_rows (df : list (candidate A)) (column : list A) : list (scored A) :=
  map (fun p => {| label := fst p; cand := fst (snd p); similarity := snd (snd p) |})
      (combine (seq 0 (length df)) (combine df column)).

(** [result_df['similarity_score'] = similarities]: a [ValueError] when
    the array is not as long as the frame. *)
Definition setitem_similarity_score
    (df : list (candidate A)) (similarities : list A) : outcome (list (scored A)) :=
  if (length similarities =? length df)%nat then Return (scored_rows df similarities)
  else Raise ValueError.

(** One step of a stable descending sort: [r], which stood before every
    row of [l] in the frame, goes in front of the first row whose value
    is not greater than its own. *)
Fixpoint insert_desc (r : scored A) (l : list (scored A)) : list (scored A) :=
  match l with
  | [] => [r]
  | h :: t =>
      if fltb (similarity r) (similarity h) then h :: insert_desc r t
      else r :: h :: t
  end.

Definition sort_desc (l : list (scored A)) : list (scored A) :=
  fold_right insert_desc [] l.

(** [Series.sort_values(ascending=False)], the frame taken along: the
    rows whose value is not NaN in the order the quicksort gives, then
    the NaN rows in frame order. *)
Definition sort_values_descending (df : list (scored A)) : list (scored A) :=
  let dropped := filter (fun r => negb (isnan (similarity r))) df in
  let nan_index := filter (fun r => isnan (similarity r)) df in
  iloc dropped (argsort_descending (map similarity dropped)) ++ nan_index.

(** [df.nlargest(n, 'similarity_score')] with the default [keep='first']:
    nothing for [n <= 0].  For [n] at least the length of the frame,
    pandas' slow method: the head of [sort_values].  Else its fast
    method, which selects and then sorts with mergesort: the rows whose
    value is not NaN in descending order, ties in frame order, then the
    NaN rows in frame order, cut to [n] rows. *)
Definition nlargest (n : Z) (df : list (scored A)) : list (scored A) :=
  if (n <=? 0)%Z then []
  else if (Z.of_nat (length df) <=? n)%Z then
    firstn (Z.to_nat n) (sort_values_descending df)
  else
    let dropped := filter (fun r => negb (isnan (similarity r))) df in
    let nan_index := filter (fun r => isnan (similarity r)) df in
    firstn (Z.to_nat n) (sort_desc dropped ++ nan_index).

(** [df.drop('embedding_v1', axis=1)] *)
Definition drop_embedding (df : list (scored A)) : list (ranked A) :=
  map (fun r => {| index := label r;
                   info := meta (cand r);
                   similarity_score := similarity r |}) df.

(** ** SimilarityCalculator.find_top_similar *)

(** The value the method returns, [pd.DataFrame()] being the empty list
    of rows.  The log lines and the object store are added below, in
    [find_top_similar_call]. *)
Definition find_top_similar
    (target_embedding : option (vector A))
    (candidates_df : list (candidate A))
    (top_k : Z) : outcome (list (ranked A)) :=
  if (length candidates_df =? 0)%nat then
    Return []
  else
    candidate_embeddings <- np_array (map embedding_v1 candidates_df) ;;
    similarities <- batch_cosine_similarity target_embedding candidate_embeddings ;;
    result_df <- setitem_similarity_score candidates_df similarities ;;
    let top_k_df :=
      nlargest (Z.min top_k (Z.of_nat (length result_df))) result_df in
    let top_k_df := drop_embedding top_k_df in
    Return top_k_df.

(** The returned frame, given the column of scores: the [k] largest rows
    of the scored frame, [embedding_v1] dropped. *)
Definition top_rows
    (df : list (candidate A)) (column : list A) (k : Z) : list (ranked A) :=
  drop_embedding (nlargest (Z.min k (Z.of_nat (length df))) (scored_rows df column)).

(** The column [similarity_score] the method computes when it computes
    one: an entry per candidate, against the target. *)
Definition similarities_of
    (target : option (vector A)) (df : list (candidate A)) : list A :=
  match target with
  | Some q => map (fun c => batch_entry q (embedding_v1 c)) df
  | None => []
  end.

(** [a] may stand before [b] in a frame the fast method returns: [b]'s
    score is not greater or is NaN, and of two rows with the same score
    the one that came first in the batch stands first. *)
Definition ranked_before (a b : ranked A) : Prop :=
  (fleb (similarity_score b) (similarity_score a) = true
   \/ isnan (similarity_score b) = true) /\
  (feqb (similarity_score a) (similarity_score b) = true -> index a < index b) /\
  (similarity_score a = similarity_score b -> index a < index b).

End Frames.

(** ** The order of the rows *)

Section Order.
Context {A : Type} {arith : Arith A}.

(** [a] may stand before [b] in a stable descending sort: [b] is not
    greater, and of two rows neither of which is greater the one with the
    smaller label comes first. *)
Definition before (a b : scored A) : Prop :=
  fltb (similarity a) (similarity b) = false /\
  (fltb (similarity b) (similarity a) = false -> label a < label b).

(** The score [y] may follow the score [x] in a frame [nlargest]
    returns, by either method: it is not greater, or it is NaN. *)
Definition descends (x y : A) : Prop := fleb y x = true \/ isnan y = true.

(** [a] may stand before [b] in a frame the fast method of [nlargest]
    returns. *)
Definition ranks_before (a b : scored A) : Prop :=
  (fleb (similarity b) (similarity a) = true \/ isnan (similarity b) = true) /\
  (feqb (similarity a) (similarity b) = true -> label a < label b) /\
  (similarity a = similarity b -> label a < label b).

Definition label_lt (a b : scored A) : Prop := label a < label b.

End Order.

(** ** The call in the object store

    Python passes [candidates_df] by reference and the method writes to
    the module's logger.  A [world] holds the frames that exist, by
    address, and the log; [find_top_similar_call] is the method with
    these effects written out. *)

(** A DataFrame object: the candidate columns and, once it has been
    assigned, the column [similarity_score]. *)
Record frame (A : Type) : Type := {
  rows : list (candidate A);
  similarity_score_column : option (list A)
}.

Arguments Build_frame {A} rows similarity_score_column.
Arguments rows {A} f.
Arguments similarity_score_column {A} f.

(** What the method logs: the two [logger.info] lines with the values they
    format, and the [logger.warning] of the empty batch.  [best] is
    [Series.max()], [None] standing for the NaN of a column without a
    number. *)
Inductive log_record (A : Type) : Type :=
| Info_computing (candidates : nat) (top_k : Z)
| Warning_no_candidates
| Info_extracted (extracted : nat) (best : option A).

Arguments Info_computing {A} candidates top_k.
Arguments Warning_no_candidates {A}.
Arguments Info_extracted {A} extracted best.

Record world (A : Type) : Type := {
  heap : list (frame A);
  logged : list (log_record A)
}.

Arguments Build_world {A} heap logged.
Arguments heap {A} w.
Arguments logged {A} w.

Definition address : Type := nat.

(** A computation in the world that returns or raises. *)
Definition call (A T : Type) : Type := world A -> outcome T * world A.

Section Store.
Context {A : Type} {arith : Arith A}.

Definition ret {T} (v : T) : call A T := fun w => (Return v, w).

Definition bind {T U} (m : call A T) (k : T -> call A U) : call A U :=
  fun w =>
    match m w with
    | (Return v, w') => k v w'
    | (Raise e, w') => (Raise e, w')
    end.

(** A pure library call, which returns or raises and leaves the world
    alone. *)
Definition lift {T} (o : outcome T) : call A T := fun w => (o, w).

(** The object at an address.  Every address the program holds was handed
    out by [alloc] or by its caller and is below the length of the heap;
    beyond it the model reads a frame without rows. *)
Definition load (a : address) : call A (frame A) :=
  fun w => (Return (nth a (heap w) {| rows := []; similarity_score_column := None |}), w).

Definition alloc (f : frame A) : call A address :=
  fun w => (Return (length (heap w)),
            {| heap := heap w ++ [f]; logged := logged w |}).

Fixpoint replace_nth {T} (n : nat) (v : T) (l : list T) : list T :=
  match n, l with
  | _, [] => []
  | O, _ :: t => v :: t
  | S n', h :: t => h :: replace_nth n' v t
  end.

Definition store (a : address) (f : frame A) : call A unit :=
  fun w => (Return tt,
            {| heap := replace_nth a f (heap w); logged := logged w |}).

Definition logger (r : log_record A) : call A unit :=
  fun w => (Return tt, {| heap := heap w; logged := logged w ++ [r] |}).

End Store.

Declare Scope call_scope.
Delimit Scope call_scope with call.
Notation "x <- m ;; k" := (bind m (fun x => k))
  (at level 100, m at next level, right associativity) : call_scope.
Notation "m ;;; k" := (bind m (fun _ => k))
  (at level 100, right associativity) : call_scope.

Section Call.
Context {A : Type} {arith : Arith A} {quicksort : Quicksort arith}.
Local Open Scope call_scope.

(** [len(df)] *)
Definition len (df : address) : call A nat :=
  f <- load df ;; ret (length (rows f)).

(** [df['embedding_v1'].values] *)
Definition getitem_embedding_v1 (df : address) : call A (list (vector A)) :=
  f <- load df ;; ret (map embedding_v1 (rows f)).

(** [df.copy()]: a new object with the same columns. *)
Definition copy (df : address) : call A address :=
  f <- load df ;; alloc f.

(** [df['similarity_score'] = values], in place. *)
Definition setitem (df : address) (values : list A) : call A unit :=
  f <- load df ;;
  if (length values =? length (rows f))%nat then
    store df {| rows := rows f; similarity_score_column := Some values |}
  else lift (Raise ValueError).

(** [df.nlargest(n, 'similarity_score')]: a [KeyError] when the frame has
    no such column.  The frame [nlargest] builds, and the one [drop]
    builds from it, are new objects that nothing else refers to; they
    are given by their rows and are not entered in the store. *)
Definition nlargest_of (n : Z) (df : address) : call A (list (scored A)) :=
  f <- load df ;;
  match similarity_score_column f with
  | None => lift (Raise KeyError)
  | Some column => ret (nlargest n (scored_rows (rows f) column))
  end.

(** [Series.max()]: the greatest value that is not NaN. *)
Definition series_max (s : list A) : option A :=
  fold_left (fun best x =>
               if isnan x then best
               else match best with
                    | None => Some x
                    | Some b => if fltb b x then Some x else Some b
                    end) s None.

(** [SimilarityCalculator.find_top_similar], with its effects. *)
Definition find_top_similar_call
    (target_embedding : option (vector A))
    (candidates_df : address)
    (top_k : Z) : call A (list (ranked A)) :=
  n <- len candidates_df ;;
  logger (Info_computing n top_k) ;;;
  if (n =? 0)%nat then
    logger Warning_no_candidates ;;;
    ret []
  else
    column <- getitem_embedding_v1 candidates_df ;;
    candidate_embeddings <- lift (np_array column) ;;
    similarities <-
      lift (batch_cosine_similarity target_embedding candidate_embeddings) ;;
    result_df <- copy candidates_df ;;
    setitem result_df similarities ;;;
    m <- len result_df ;;
    top_k_df <- nlargest_of (Z.min top_k (Z.of_nat m)) result_df ;;
    let top_k_df := drop_embedding top_k_df in
    logger (Info_extracted (length top_k_df)
                           (series_max (map similarity_score top_k_df))) ;;;
    ret top_k_df.

End Call.

(** ** The specification's valid candidates *)

Section Validity.
Context {A : Type} {arith : Arith A}.

(** Modelled from the spec: the candidates that
    [CandidateSetBuilder.normalize] accepts.  The repository has no such
    function; the specification (4.1) rejects a candidate whose vector is
    missing, empty or of zero magnitude ([EmptyOrZeroVector]) or whose
    length is not the batch's dimension ([DimensionMismatch]), here the
    query's. *)
Definition valid_candidate (query : vector A) (c : candidate A) : bool :=
  negb (length (embedding_v1 c) =? 0)%nat
  && negb (feqb (np_linalg_norm (embedding_v1 c)) fzero)
  && (length (embedding_v1 c) =? length query)%nat.

Definition number_of_valid_candidates
    (query : vector A) (df : list (candidate A)) : nat :=
  length (filter (valid_candidate query) df).

End Validity.

(** ** The running examples *)

Definition patent (name : string) : metadata :=
  {| publication_number := name;
     title := "title of " ++ name;
     filing_date := "2020-01-01";
     country_code := "JP" |}.

Definition row (name : string) (emb : list float) : candidate float :=
  {| meta := patent name; embedding_v1 := emb |}.

(** The scenario of the specification (8): the query [1, 0, 0] and the
    candidates A, B and C, the entries [0.7] of C being the binary64
    value nearest to it. *)
Definition batch_ABC : list (candidate float) :=
  [ row "A" [1; 0; 0]%float;
    row "B" [0; 1; 0]%float;
    row "C" [0x1.6666666666666p-1; 0x1.6666666666666p-1; 0]%float ].

(** Its second scenario: E has a vector of length 2 in a batch of
    dimension 3. *)
Definition batch_AEC : list (candidate float) :=
  [ row "A" [1; 0; 0]%float;
    row "E" [1; 2]%float;
    row "C" [0x1.6666666666666p-1; 0x1.6666666666666p-1; 0]%float ].

(** A batch with a candidate whose vector is zero. *)
Definition batch_AZ : list (candidate float) :=
  [ row "A" [1; 0]%float; row "Z" [0; 0]%float ].

(** A batch in which A and C get the same score against the query
    [1, 0]. *)
Definition batch_ABCD : list (candidate float) :=
  [ row "A" [1; 0]%float; row "B" [0; 1]%float;
    row "C" [2; 0]%float; row "D" [0; 3]%float ].

(** Two pairs of candidates with one vector each: against the query
    [1, 0], R and S score [1.0] and P and Q score [0.0]. *)
Definition batch_PQRS : list (candidate float) :=
  [ row "P" [0; 1]%float; row "Q" [0; 1]%float;
    row "R" [1; 0]%float; row "S" [1; 0]%float ].

(** A store that holds one frame, at address 0, and an empty log. *)
Definition fresh_world (df : list (candidate float)) : world float :=
  {| heap := [ {| rows := df; similarity_score_column := None |} ]; logged := [] |}.

(** * The search around the ranking

    The rest of [src/BigQuery/bigquery.py]: [PatentXMLParser], which
    reads the numbers and the codes of the target patent from an XML
    document; [BigQueryPatentSearcher], which asks BigQuery for the
    target's embedding and for the candidates; [search] of
    [PatentSimilaritySearchSystem], which chains the parser, the searcher
    and [find_top_similar]; and [main].

    What the program does not contain enters as a parameter: the XML
    reader [ET.parse], the BigQuery client and the environment variables
    are functions that return a value or the exception they raise.  The
    log lines of these methods only format values that exist and are left
    out; the queries that are sent are kept, in order. *)

(** ** Python strings *)

(** A character is its Unicode code point; [len] counts code points and
    [s[:2]] takes two of them. *)
Definition char : Type := N.
Definition str : Type := list char.

(** A literal of the source. *)
Definition lit (s : string) : str := map Ascii.N_of_ascii (String.list_ascii_of_string s).

(** The characters [str.strip()] removes: those of [str.isspace]. *)
Definition isspace (c : char) : bool :=
  (((9 <=? c) && (c <=? 13)) || ((28 <=? c) && (c <=? 32))
   || (c =? 133) || (c =? 160) || (c =? 5760)
   || ((8192 <=? c) && (c <=? 8202))
   || (c =? 8232) || (c =? 8233) || (c =? 8239) || (c =? 8287)
   || (c =? 12288))%N.

Fixpoint lstrip (s : str) : str :=
  match s with
  | [] => []
  | c :: t => if isspace c then lstrip t else s
  end.

Definition rstrip (s : str) : str := rev (lstrip (rev s)).

(** [s.strip()] *)
Definition strip (s : str) : str := rstrip (lstrip s).

(** [s.replace(' ', '')] *)
Definition remove_spaces (s : str) : str :=
  filter (fun c => negb (c =? 32)%N) s.

(** [sep.join(l)] *)
Fixpoint join (sep : str) (l : list str) : str :=
  match l with
  | [] => []
  | [x] => x
  | x :: rest => x ++ sep ++ join sep rest
  end.

Fixpoint str_eqb (a b : str) : bool :=
  match a, b with
  | [], [] => true
  | x :: a', y :: b' => (x =? y)%N && str_eqb a' b'
  | _, _ => false
  end.

(** An attribute that holds a string or [None]: in an f-string [None]
    is written [None]; in a condition it is true when it is a string that
    is not empty. *)
Definition format (t : option str) : str :=
  match t with
  | Some s => s
  | None => lit "None"
  end.

Definition truthy (t : option str) : bool :=
  match t with
  | Some (_ :: _) => true
  | _ => false
  end.

(** ** Python sets

    [list(set(codes))] and the iteration over a set list each element of
    the set once, in an order the language does not fix.  [set_list l]
    is that listing for the set the elements of [l] were put into, in
    the order of [l]. *)
Class PySet : Type := {
  set_list : list str -> list str;
  set_list_NoDup : forall l, NoDup (set_list l);
  set_list_In : forall l x, In x (set_list l) <-> In x l
}.

(** One such listing, for the examples. *)
#[export] Instance last_seen : PySet := {
  set_list := nodup (list_eq_dec N.eq_dec);
  set_list_NoDup := NoDup_nodup (list_eq_dec N.eq_dec);
  set_list_In := fun l x => nodup_In (list_eq_dec N.eq_dec) l x
}.

(** ** Exceptions of the search *)

Inductive exception : Type :=
| Builtin (e : exn)      (* [ValueError], [TypeError], [KeyError] *)
| AttributeError         (* an attribute of [None] *)
| NameError              (* a name that is bound nowhere *)
| Other (name : string). (* whatever else a reader or a client raises *)

Inductive attempt (T : Type) : Type :=
| Done (v : T)
| Failed (e : exception).

Arguments Done {T} v.
Arguments Failed {T} e.

Definition abind {T U} (o : attempt T) (k : T -> attempt U) : attempt U :=
  match o with
  | Done v => k v
  | Failed e => Failed e
  end.

Definition of_outcome {T} (o : outcome T) : attempt T :=
  match o with
  | Return v => Done v
  | Raise e => Failed (Builtin e)
  end.

Declare Scope attempt_scope.
Delimit Scope attempt_scope with attempt.
Notation "x <- o ;; k" := (abind o (fun x => k))
  (at level 100, o at next level, right associativity) : attempt_scope.

(** ** xml.etree.ElementTree *)

(** An element: its tag, its text ([None] when the element has none),
    its child elements in document order. *)
#[warnings="-register-all"]
Inductive Element : Type :=
| Build_Element (tag : str) (text : option str) (children : list Element).

Definition tag (elem : Element) : str :=
  match elem with Build_Element t _ _ => t end.

Definition text (elem : Element) : option str :=
  match elem with Build_Element _ t _ => t end.

Definition children (elem : Element) : list Element :=
  match elem with Build_Element _ _ c => c end.

(** [elem.iter()]: the element, then its descendants, in document
    order. *)
Fixpoint iter (elem : Element) : list Element :=
  match elem with
  | Build_Element _ _ c => elem :: flat_map iter c
  end.

(** The steps of the paths the parser uses: [.//name] at the head of a
    path, [/name] after it. *)
Inductive step : Type :=
| Descendant (name : str)
| Child (name : str).

Definition has_tag (name : str) (elem : Element) : bool := str_eqb (tag elem) name.

(** One step of [ElementPath]: from every element of [result], in order,
    its descendants, or its children, with the tag. *)
Definition select (s : step) (result : list Element) : list Element :=
  match s with
  | Descendant name =>
      flat_map (fun elem => filter (has_tag name) (flat_map iter (children elem))) result
  | Child name =>
      flat_map (fun elem => filter (has_tag name) (children elem)) result
  end.

Definition iterfind (path : list step) (elem : Element) : list Element :=
  fold_left (fun result s => select s result) path [elem].

(** [elem.findall(path)] *)
Definition findall (path : list step) (elem : Element) : list Element :=
  iterfind path elem.

(** [elem.find(path)]: the first match or [None]. *)
Definition find (path : list step) (elem : Element) : option Element :=
  hd_error (iterfind path elem).

(** The truth value of what [find] returned: [None] is false, and an
    element is true when it has children ([Element.__bool__] is
    [len(self) != 0]; the library warns that this may change). *)
Definition element_truth (found : option Element) : bool :=
  match found with
  | None => false
  | Some elem => negb (length (children elem) =? 0)%nat
  end.

(** ** PatentInfo *)

Module PatentInfo.

Record t : Type := {
  publication_number : option str;  (* [None] when the element has no text *)
  country_code : str;
  classification_codes : list str;
  theme_codes : list str
}.

End PatentInfo.

(** ** PatentXMLParser *)

(** The paths of the source, step by step. *)
Definition doc_number_path : list step :=
  [ Descendant (lit "publication-reference"); Child (lit "document-id");
    Child (lit "doc-number") ].

Definition kind_path : list step :=
  [ Descendant (lit "publication-reference"); Child (lit "document-id");
    Child (lit "kind") ].

Definition country_path : list step :=
  [ Descendant (lit "publication-reference"); Child (lit "document-id");
    Child (lit "country") ].

Section Parser.
Context {pyset : PySet}.
Local Open Scope attempt_scope.

(** [for x in l: ...codes.append(...)]: [body] gives what one round
    appends, or the exception that ends the loop. *)
Fixpoint for_each {T} (body : T -> attempt (list str)) (l : list T) (codes : list str)
    : attempt (list str) :=
  match l with
  | [] => Done codes
  | x :: rest =>
      match body x with
      | Done appended => for_each body rest (codes ++ appended)
      | Failed e => Failed e
      end
  end.

(** [PatentXMLParser._get_publication_number] *)
Definition _get_publication_number (root : Element) : attempt (option str) :=
  match find doc_number_path root with
  | Some pub_ref =>
      let doc_number := text pub_ref in
      match find kind_path root with
      | None => Failed AttributeError
      | Some kind_elem =>
          let kind := text kind_elem in
          Done (Some (lit "JP-" ++ format doc_number ++ lit "-" ++ format kind))
      end
  | None =>
      match find [Descendant (lit "publication-number")] root with
      | Some pub_num => Done (text pub_num)
      | None => Failed (Builtin ValueError)
      end
  end.

(** [PatentXMLParser._get_country_code] *)
Definition _get_country_code (root : Element) : str :=
  match find country_path root with
  | Some country => if truthy (text country) then format (text country) else lit "JP"
  | None => lit "JP"
  end.

(** The body of the loops over [classification-ipc] and
    [classification-national]: the text of the first [text] element
    below the entry, stripped and without spaces. *)
Definition text_code (entry : Element) : attempt (list str) :=
  match find [Descendant (lit "text")] entry with
  | None => Done []
  | Some entry_text =>
      match text entry_text with
      | None => Failed AttributeError
      | Some t => Done [remove_spaces (strip t)]
      end
  end.

(** The body of the loop over [classification-cpc]. *)
Definition cpc_code (cpc : Element) : attempt (list str) :=
  let section := find [Descendant (lit "section")] cpc in
  let class_elem := find [Descendant (lit "class")] cpc in
  let subclass := find [Descendant (lit "subclass")] cpc in
  if forallb element_truth [section; class_elem; subclass] then
    match section, class_elem, subclass with
    | Some section, Some class_elem, Some subclass =>
        Done [format (text section) ++ format (text class_elem)
              ++ format (text subclass)]
    | _, _, _ => Failed AttributeError
    end
  else Done [].

(** The body of the loop over [f-term]. *)
Definition fterm_code (fterm : Element) : attempt (list str) :=
  if truthy (text fterm) then Done [strip (format (text fterm))] else Done [].

(** [PatentXMLParser._get_classification_codes] *)
Definition _get_classification_codes (root : Element) : attempt (list str) :=
  codes <- for_each text_code (findall [Descendant (lit "classification-ipc")] root) [] ;;
  codes <- for_each cpc_code (findall [Descendant (lit "classification-cpc")] root) codes ;;
  Done (set_list codes).

(** [PatentXMLParser._get_theme_codes] *)
Definition _get_theme_codes (root : Element) : attempt (list str) :=
  codes <- for_each text_code
             (findall [Descendant (lit "classification-national")] root) [] ;;
  codes <- for_each fterm_code (findall [Descendant (lit "f-term")] root) codes ;;
  Done (set_list codes).

(** [ET.parse(xml_path).getroot()]: the root of the document at the
    path, or what the reader raises. *)
Variable ET_parse : option str -> attempt Element.

(** [PatentXMLParser(xml_path).parse()] *)
Definition parse (xml_path : option str) : attempt PatentInfo.t :=
  root <- ET_parse xml_path ;;
  publication_number <- _get_publication_number root ;;
  let country_code := _get_country_code root in
  classification_codes <- _get_classification_codes root ;;
  theme_codes <- _get_theme_codes root ;;
  Done {| PatentInfo.publication_number := publication_number;
          PatentInfo.country_code := country_code;
          PatentInfo.classification_codes := classification_codes;
          PatentInfo.theme_codes := theme_codes |}.

End Parser.

(** ** BigQueryPatentSearcher *)

(** The two queries, by what varies in their text and parameters: the
    first has the parameters [@pub_number] and [@country]; the second
    has [like_conditions] in its text and the parameter [@country]. *)
Inductive query : Type :=
| Select_target (pub_number : option str) (country : str)
| Select_candidates (like_conditions : str) (country : str).

(** [self.client.query(...).to_dataframe()] for either query: the rows,
    or the exception raised.  Of the rows of the first query the program
    reads the column [embedding_v1] only. *)
Record Client (A : Type) : Type := {
  target_rows : option str -> str -> attempt (list (vector A));
  candidate_rows : str -> str -> attempt (list (candidate A))
}.

Arguments target_rows {A} c pub_number country.
Arguments candidate_rows {A} c like_conditions country.

Section Searcher.
Context {A : Type} {arith : Arith A} {quicksort : Quicksort arith} {pyset : PySet}.
Variable client : Client A.

(** [BigQueryPatentSearcher.get_target_embedding]: the embedding or
    [None], and the query it sent. *)
Definition get_target_embedding
    (publication_number : option str) (country_code : str)
    : option (vector A) * list query :=
  (match target_rows client publication_number country_code with
   | Done results =>
       match results with
       | [] => None
       | embedding :: _ => Some embedding
       end
   | Failed _ => None
   end,
   [Select_target publication_number country_code]).

(** What the loop of [get_candidate_embeddings] adds to the set, in
    order. *)
Definition prefixes_added (codes : list str) : list str :=
  map (firstn 2) (filter (fun code => (2 <=? length code)%nat) codes).

Definition prefix_2chars (codes : list str) : list str :=
  set_list (prefixes_added codes).

Definition like_conditions (prefixes : list str) : str :=
  join (lit " OR ")
       (map (fun prefix => lit "c.code LIKE '" ++ prefix ++ lit "%'") prefixes).

(** [BigQueryPatentSearcher.get_candidate_embeddings]: the frame, and the
    query it sent, if any. *)
Definition get_candidate_embeddings
    (classification_codes theme_codes : list str) (country_code : str)
    : list (candidate A) * list query :=
  let prefix_2chars := prefix_2chars (classification_codes ++ theme_codes) in
  match prefix_2chars with
  | [] => ([], [])
  | _ :: _ =>
      let like_conditions := like_conditions prefix_2chars in
      (match candidate_rows client like_conditions country_code with
       | Done results => results
       | Failed _ => []
       end,
       [Select_candidates like_conditions country_code])
  end.

(** ** PatentSimilaritySearchSystem *)

Variable ET_parse : option str -> attempt Element.

(** [PatentSimilaritySearchSystem.search]: what it returns or raises,
    and the queries it sent. *)
Definition search (xml_path : option str) (top_k : Z)
    : attempt (list (ranked A)) * list query :=
  match parse ET_parse xml_path with
  | Failed e => (Failed e, [])
  | Done patent_info =>
      let (target_embedding, sent) :=
        get_target_embedding (PatentInfo.publication_number patent_info)
                             (PatentInfo.country_code patent_info) in
      match target_embedding with
      | None => (Done [], sent)
      | Some _ =>
          let (candidates_df, sent') :=
            get_candidate_embeddings (PatentInfo.classification_codes patent_info)
                                     (PatentInfo.theme_codes patent_info)
                                     (PatentInfo.country_code patent_info) in
          if (length candidates_df =? 0)%nat then (Done [], sent ++ sent')
          else
            (of_outcome (find_top_similar target_embedding candidates_df top_k),
             sent ++ sent')
      end
  end.

End Searcher.

(** ** main *)

(** What [main] does to the world, in order. *)
Inductive event (A : Type) : Type :=
| Asked_for_project_id
| Sent (q : query)
| To_csv (path : str) (rows : list (ranked A))
| Log_saved (path : str)
| Shown_top_10 (rows : list (ranked A))
| Log_no_results.

Arguments Asked_for_project_id {A}.
Arguments Sent {A} q.
Arguments To_csv {A} path rows.
Arguments Log_saved {A} path.
Arguments Shown_top_10 {A} rows.
Arguments Log_no_results {A}.

(** The command line, had it been parsed. *)
Record Namespace : Type := { output : str }.

(** The name [args]: no statement of the module binds it, the call of
    [parse_args] and the arguments being commented out. *)
Definition args : attempt Namespace := Failed NameError.

Section Main.
Context {A : Type} {arith : Arith A} {quicksort : Quicksort arith} {pyset : PySet}.

(** [os.getenv], after [load_dotenv]. *)
Variable getenv : string -> option str.

(** [bigquery.Client(project=project_id)] *)
Variable connect : str -> attempt (Client A).

Variable ET_parse : option str -> attempt Element.

Definition main : attempt unit * list (event A) :=
  let project_id := getenv "GCP_PROJECT_ID" in
  if negb (truthy project_id) then (Done tt, [Asked_for_project_id])
  else
    let xml_path := getenv "GCP_XML_PATH" in
    if negb (truthy project_id) then (Done tt, [Asked_for_project_id])
    else
      match connect (format project_id) with
      | Failed e => (Failed e, [])
      | Done client =>
          let (results, sent) := search client ET_parse xml_path 1000 in
          match results with
          | Failed e => (Failed e, map Sent sent)
          | Done results =>
              if (0 <? length results)%nat then
                match args with
                | Failed e => (Failed e, map Sent sent)
                | Done args =>
                    (Done tt,
                     map Sent sent
                     ++ [ To_csv (output args) results;
                          Log_saved (output args);
                          Shown_top_10 (firstn 10 results) ])
                end
              else (Done tt, map Sent sent ++ [Log_no_results])
          end
      end.

End Main.

(** ** An example document, reader and client *)

Definition leaf (name content : string) : Element :=
  Build_Element (lit name) (Some (lit content)) [].

Definition node (name : string) (children : list Element) : Element :=
  Build_Element (lit name) None children.

(** A gazette entry with one code of each kind; the parts of the CPC
    entry are elements without children, as in the published format. *)
Definition example_document : Element :=
  node "jp-official-gazette"
    [ node "bibliographic-data"
        [ node "publication-reference"
            [ node "document-id"
                [ leaf "country" "JP"; leaf "doc-number" "2020123456";
                  leaf "kind" "A" ] ];
          node "classification-ipc" [ leaf "text" " H04L 9/00 " ];
          node "classification-cpc"
            [ leaf "section" "H"; leaf "class" "04"; leaf "subclass" "L" ];
          node "classification-national" [ leaf "text" "H04L 9/00 A" ];
          leaf "f-term" " 5J104 AA01 " ] ].

(** The same entry without its publication reference. *)
Definition example_without_number : Element :=
  node "jp-official-gazette"
    [ node "bibliographic-data"
        [ node "classification-ipc" [ leaf "text" " H04L 9/00 " ] ] ].

Definition example_reader (root : Element) : option str -> attempt Element :=
  fun _ => Done root.

(** A client that has the embedding [1, 0, 0] for every target and
    answers every candidate query with the batch A, B, C. *)
Definition example_client : Client float :=
  {| target_rows := fun _ _ => Done [[1; 0; 0]%float];
     candidate_rows := fun _ _ => Done batch_ABC |}.

(** A client whose every query raises. *)
Definition failing_client : Client float :=
  {| target_rows := fun _ _ => Failed (Other "GoogleAPIError");
     candidate_rows := fun _ _ => Failed (Other "GoogleAPIError") |}.

(** A client that answers the target query and raises at the candidates
    query. *)
Definition candidates_failing_client : Client float :=
  {| target_rows := fun _ _ => Done [[1; 0; 0]%float];
     candidate_rows := fun _ _ => Failed (Other "GoogleAPIError") |}.

(** ** Documents of the shape the parser's paths describe *)

Definition text_leaf (name : string) (content : str) : Element :=
  Build_Element (lit name) (Some content) [].

Definition reference (country number kind : str) : Element :=
  node "publication-reference"
    [ node "document-id"
        [ text_leaf "country" country; text_leaf "doc-number" number;
          text_leaf "kind" kind ] ].

Definition ipc_entry (content : str) : Element :=
  node "classification-ipc" [ text_leaf "text" content ].

Definition national_entry (content : str) : Element :=
  node "classification-national" [ text_leaf "text" content ].

Definition fterm_entry (content : str) : Element := text_leaf "f-term" content.

(** A document with a publication reference and any number of IPC, FI
    and F-term entries, each with the given text. *)
Definition gazette (country number kind : str) (ipc national fterm : list str)
    : Element :=
  node "jp-official-gazette"
    (reference country number kind
     :: map ipc_entry ipc ++ map national_entry national ++ map fterm_entry fterm).

(** * Proofs *)

(** ** Lists in order *)

Section SortedLists.
Context {T : Type}.
Variable R : T -> T -> Prop.

Lemma StronglySorted_app (l1 l2 : list T) :
  StronglySorted R l1 -> StronglySorted R l2 ->
  (forall a b, In a l1 -> In b l2 -> R a b) ->
  StronglySorted R (l1 ++ l2).
Proof.
  induction l1 as [|x l1 IH]; simpl; intros S1 S2 Hc; [assumption|].
  apply StronglySorted_inv in S1. destruct S1 as [S1 Hx].
  constructor.
  - apply IH; auto.
  - apply Forall_app. split; [assumption|].
    apply Forall_forall. intros b Hb. apply Hc; auto.
Qed.

Lemma StronglySorted_firstn (n : nat) (l : list T) :
  StronglySorted R l -> StronglySorted R (firstn n l).
Proof.
  revert n. induction l as [|x l IH]; intros [|n] S; simpl; try constructor.
  - apply IH. now apply StronglySorted_inv in S.
  - apply StronglySorted_inv in S. destruct S as [_ Hx].
    rewrite Forall_forall in *. intros y Hy. apply Hx.
    rewrite <- (firstn_skipn n l). apply in_or_app. now left.
Qed.

Lemma StronglySorted_filter (p : T -> bool) (l : list T) :
  StronglySorted R l -> StronglySorted R (filter p l).
Proof.
  induction 1 as [|x l S IH Hx]; simpl; [constructor|].
  destruct (p x); [|assumption].
  constructor; [assumption|].
  rewrite Forall_forall in *. intros y Hy.
  apply filter_In in Hy. now apply Hx.
Qed.

Lemma StronglySorted_nth (l : list T) (i j : nat) (a b : T) :
  StronglySorted R l -> i < j ->
  nth_error l i = Some a -> nth_error l j = Some b -> R a b.
Proof.
  intros S. revert i j. induction S as [|x l S IH Hx]; intros i j Hij Hi Hj.
  - destruct i; discriminate.
  - destruct j as [|j]; [lia|]. simpl in Hj.
    destruct i as [|i]; simpl in Hi.
    + injection Hi as ->. rewrite Forall_forall in Hx.
      apply Hx. eapply nth_error_In; eassumption.
    + apply (IH i j); auto; lia.
Qed.

End SortedLists.

Lemma StronglySorted_weaken {T} (R R' : T -> T -> Prop) (l : list T) :
  StronglySorted R l ->
  (forall a b, In a l -> In b l -> R a b -> R' a b) ->
  StronglySorted R' l.
Proof.
  induction 1 as [|x l S IH Hx]; intros Hw; constructor.
  - apply IH. intros a b Ha Hb. apply Hw; now right.
  - rewrite Forall_forall in *. intros y Hy.
    apply Hw; [now left | now right | now apply Hx].
Qed.

Lemma StronglySorted_map {T U} (f : T -> U) (R : U -> U -> Prop) (l : list T) :
  StronglySorted (fun a b => R (f a) (f b)) l -> StronglySorted R (map f l).
Proof.
  induction 1 as [|x l S IH Hx]; simpl; constructor; [assumption|].
  rewrite Forall_forall in *. intros y Hy.
  apply in_map_iff in Hy. destruct Hy as [z [<- Hz]]. now apply Hx.
Qed.

(** ** binary64: the comparisons and the product

    The kernel's floats are specified by [FloatAxioms] against
    [SpecFloat]; the laws below are read off that specification. *)

Section SpecOrder.

Ltac split_compare :=
  repeat match goal with
  | H : context [Pos.compare_cont Eq ?a ?b] |- _ =>
      change (Pos.compare_cont Eq a b) with (Pos.compare a b) in H
  | |- context [Pos.compare_cont Eq ?a ?b] =>
      change (Pos.compare_cont Eq a b) with (Pos.compare a b)
  end;
  repeat match goal with
  | H : context [Z.compare ?a ?b] |- _ => destruct (Z.compare_spec a b)
  | |- context [Z.compare ?a ?b] => destruct (Z.compare_spec a b)
  | H : context [Pos.compare ?a ?b] |- _ => destruct (Pos.compare_spec a b)
  | |- context [Pos.compare ?a ?b] => destruct (Pos.compare_spec a b)
  end.

Ltac order_cases :=
  unfold SFltb, SFleb, SFeqb, SFcompare; intros;
  repeat match goal with
  | x : spec_float |- _ => destruct x
  | s : bool |- _ => destruct s
  end;
  simpl in *; try reflexivity; try discriminate;
  split_compare; simpl in *; subst;
  try reflexivity; try discriminate; try lia.

Lemma SFltb_asym (x y : spec_float) :
  SFltb x y = true -> SFltb y x = false.
Proof. revert x y. order_cases. Qed.

Lemma SFltb_negtrans (x y z : spec_float) :
  SFeqb y y = true -> SFltb x y = false -> SFltb y z = false ->
  SFltb x z = false.
Proof. revert x y z. order_cases. Qed.

Lemma SFleb_total (x y : spec_float) :
  SFeqb x x = true -> SFeqb y y = true -> SFltb x y = false ->
  SFleb y x = true.
Proof. revert x y. order_cases. Qed.

Lemma SFeqb_tied (x y : spec_float) :
  SFeqb x y = true -> SFltb y x = false.
Proof. revert x y. order_cases. Qed.

Lemma SFeqb_number (x y : spec_float) :
  SFeqb x y = true -> SFeqb x x = true /\ SFeqb y y = true.
Proof.
  revert x y.
  order_cases; split; try reflexivity; try discriminate; try lia.
Qed.

Lemma SFmul_comm (prec emax : Z) (x y : spec_float) :
  SFmul prec emax x y = SFmul prec emax y x.
Proof.
  destruct x as [sx|sx| |sx mx ex], y as [sy|sy| |sy my ey]; simpl;
    try reflexivity; rewrite ?(xorb_comm sx sy); try reflexivity.
  now rewrite (Pos.mul_comm mx my), (Z.add_comm ex ey).
Qed.

End SpecOrder.

Lemma float_mul_comm (x y : float) : (x * y = y * x)%float.
Proof.
  rewrite <- (SF2Prim_Prim2SF (x * y)), <- (SF2Prim_Prim2SF (y * x)).
  rewrite !mul_spec. unfold SF64mul. f_equal. apply SFmul_comm.
Qed.

Lemma float_isnan (x : float) :
  isnan x = false <-> SFeqb (Prim2SF x) (Prim2SF x) = true.
Proof.
  unfold isnan. simpl. rewrite eqb_spec.
  destruct (SFeqb _ _); simpl; split; congruence.
Qed.

#[export] Instance binary64_order : ArithOrder binary64.
Proof.
  constructor; intros *; rewrite ?float_isnan; simpl;
    rewrite ?ltb_spec, ?leb_spec, ?eqb_spec.
  - apply SFltb_asym.
  - apply SFltb_negtrans.
  - apply SFleb_total.
  - apply SFeqb_tied.
  - apply SFeqb_number.
Qed.

(** ** binary64: the product of two square roots

    The norms are square roots, and a square root that is not zero is at
    least [2^-537]; the product of two such values is at least [2^-1074],
    the least positive binary64 value, and so does not round to zero. *)

Section Rounding.
Local Open Scope Z_scope.

Lemma digits2_pos_size (p : positive) : digits2_pos p = Pos.size p.
Proof. induction p; simpl; congruence. Qed.

Lemma digits2_pos_bounds (p : positive) :
  2 ^ (Zpos (digits2_pos p) - 1) <= Zpos p < 2 ^ Zpos (digits2_pos p).
Proof.
  rewrite digits2_pos_size.
  pose proof (Pos.size_gt p) as Hgt. pose proof (Pos.size_le p) as Hle.
  assert (Hgt' : Zpos p < 2 ^ Zpos (Pos.size p)).
  { rewrite <- Pos2Z.inj_pow. now apply Pos2Z.pos_lt_pos. }
  assert (Hle' : 2 ^ Zpos (Pos.size p) <= 2 * Zpos p).
  { rewrite <- Pos2Z.inj_pow. change (2 * Zpos p) with (Zpos p~0).
    now apply Pos2Z.pos_le_pos. }
  split; [|assumption].
  replace (Zpos (Pos.size p)) with (Zpos (Pos.size p) - 1 + 1) in Hle' by lia.
  rewrite Z.pow_add_r in Hle' by lia. lia.
Qed.

Lemma shr_1_m (r : shr_record) :
  0 <= shr_m r -> shr_m (shr_1 r) = shr_m r / 2.
Proof.
  destruct r as [m r s]. cbn [shr_m]. intros Hm.
  destruct m as [|[p|p|]|p]; cbn [shr_1 shr_m].
  - reflexivity.
  - apply Z.div_unique with (r := 1); lia.
  - apply Z.div_unique with (r := 0); lia.
  - reflexivity.
  - lia.
Qed.

Lemma pow2_double (p : positive) : 2 ^ Zpos p~0 = 2 ^ Zpos p * 2 ^ Zpos p.
Proof. rewrite <- Z.pow_add_r by lia. f_equal. lia. Qed.

Lemma pow2_double_succ (p : positive) : 2 ^ Zpos p~1 = 2 * (2 ^ Zpos p * 2 ^ Zpos p).
Proof.
  rewrite <- Z.pow_add_r by lia. rewrite <- (Z.pow_succ_r 2) by lia. f_equal. lia.
Qed.

Lemma iter_shr_1_m (p : positive) (r : shr_record) :
  0 <= shr_m r -> shr_m (SpecFloat.iter_pos shr_1 p r) = shr_m r / 2 ^ Zpos p.
Proof.
  revert r. induction p as [p IH|p IH|]; intros r Hm; simpl SpecFloat.iter_pos.
  - assert (H1 : 0 <= shr_m (shr_1 r))
      by (rewrite shr_1_m by lia; apply Z.div_pos; lia).
    assert (H2 : 0 <= shr_m (SpecFloat.iter_pos shr_1 p (shr_1 r)))
      by (rewrite IH by lia; apply Z.div_pos; lia).
    rewrite IH, IH, shr_1_m by lia.
    rewrite !Z.div_div by lia. now rewrite pow2_double_succ.
  - assert (H2 : 0 <= shr_m (SpecFloat.iter_pos shr_1 p r))
      by (rewrite IH by lia; apply Z.div_pos; lia).
    rewrite IH, IH by lia.
    rewrite !Z.div_div by lia. now rewrite pow2_double.
  - rewrite shr_1_m by lia. reflexivity.
Qed.

Lemma shr_record_of_loc_m (m : Z) (l : location) :
  shr_m (shr_record_of_loc m l) = m.
Proof. destruct l as [|[ | | ]]; reflexivity. Qed.

(** A right shift by [n] bits keeps a mantissa of at least [2^n] positive
    and never lowers the exponent. *)
Lemma shr_spec (r : shr_record) (e n : Z) :
  1 <= shr_m r -> (0 < n -> 2 ^ n <= shr_m r) ->
  1 <= shr_m (fst (shr r e n)) /\ snd (shr r e n) = Z.max e (e + n).
Proof.
  intros Hm Hn. destruct n as [|p|p]; simpl; try (split; [assumption | lia]).
  split; [|lia].
  rewrite iter_shr_1_m by lia.
  apply Z.div_le_lower_bound; [apply Z.pow_pos_nonneg; lia|].
  rewrite Z.mul_1_r. apply Hn. lia.
Qed.

Lemma shr_exponent (r : shr_record) (e n : Z) : e <= snd (shr r e n).
Proof. destruct n; simpl; lia. Qed.

Lemma round_nearest_even_ge (m : Z) (l : location) : m <= round_nearest_even m l.
Proof.
  destruct l as [|[ | | ]]; simpl; try lia. destruct (Z.even m); lia.
Qed.

Abbreviation fexp64 := (fexp prec emax).

Lemma fexp64_eq (e : Z) : fexp64 e = Z.max (e - 53) (-1074).
Proof. reflexivity. Qed.

(** Rounding never lowers the exponent. *)
Lemma binary_round_aux_exponent (s s' : bool) (m : Z) (e : Z) (l : location)
    (m' : positive) (e' : Z) :
  binary_round_aux prec emax s m e l = S754_finite s' m' e' -> e <= e'.
Proof.
  unfold binary_round_aux, shr_fexp.
  destruct (shr (shr_record_of_loc m l) e _) as [mrs1 e1] eqn:H1.
  destruct (shr (shr_record_of_loc _ loc_Exact) e1 _) as [mrs2 e2] eqn:H2.
  pose proof (shr_exponent (shr_record_of_loc m l) e
                (fexp64 (Zdigits2 m + e) - e)) as G1.
  rewrite H1 in G1. simpl in G1.
  match type of H2 with shr ?r _ ?n = _ =>
    pose proof (shr_exponent r e1 n) as G2 end.
  rewrite H2 in G2. simpl in G2.
  destruct (shr_m mrs2); try discriminate.
  destruct (e2 <=? _); [|discriminate].
  intros [= _ _ <-]. lia.
Qed.

(** Rounding a positive mantissa that the first shift leaves positive
    gives no zero. *)
Lemma binary_round_aux_not_zero (s s0 : bool) (p : positive) (e : Z) (l : location) :
  (0 < fexp64 (Zpos (digits2_pos p) + e) - e ->
   2 ^ (fexp64 (Zpos (digits2_pos p) + e) - e) <= Zpos p) ->
  binary_round_aux prec emax s (Zpos p) e l <> S754_zero s0.
Proof.
  intros Hfit. unfold binary_round_aux, shr_fexp.
  set (n1 := fexp64 (Zdigits2 (Zpos p) + e) - e).
  destruct (shr (shr_record_of_loc (Zpos p) l) e n1) as [mrs1 e1] eqn:H1.
  destruct (shr_spec (shr_record_of_loc (Zpos p) l) e n1) as [M1 E1].
  { rewrite shr_record_of_loc_m. lia. }
  { rewrite shr_record_of_loc_m. exact Hfit. }
  rewrite H1 in M1, E1. simpl in M1, E1.
  set (m2 := round_nearest_even (shr_m mrs1) (loc_of_shr_record mrs1)).
  assert (M2 : 1 <= m2) by (pose proof (round_nearest_even_ge (shr_m mrs1) (loc_of_shr_record mrs1)); unfold m2; lia).
  set (n2 := fexp64 (Zdigits2 m2 + e1) - e1).
  destruct (shr (shr_record_of_loc m2 loc_Exact) e1 n2) as [mrs2 e2] eqn:H2.
  destruct (shr_spec (shr_record_of_loc m2 loc_Exact) e1 n2) as [M3 _].
  { rewrite shr_record_of_loc_m. exact M2. }
  { rewrite shr_record_of_loc_m. intros Hn2.
    destruct m2 as [|p2|p2]; try lia.
    pose proof (digits2_pos_bounds p2) as [Hlo _].
    assert (Hemin : -1074 <= e1).
    { rewrite E1. unfold n1. rewrite fexp64_eq. lia. }
    assert (Hn : n2 <= Zpos (digits2_pos p2) - 1).
    { unfold n2 in *. simpl Zdigits2 in *. rewrite fexp64_eq in *. lia. }
    apply Z.le_trans with (2 ^ (Zpos (digits2_pos p2) - 1)); [|exact Hlo].
    apply Z.pow_le_mono_r; lia. }
  rewrite H2 in M3. simpl in M3.
  destruct (shr_m mrs2); try lia.
  destruct (e2 <=? _); discriminate.
Qed.
(** A finite square root has an exponent of at least [-589]. *)
Lemma SFsqrt_exponent (x : spec_float) (s : bool) (m : positive) (e : Z) :
  valid_binary x = true ->
  SFsqrt prec emax x = S754_finite s m e -> -589 <= e.
Proof.
  destruct x as [sx|sx| |sx mx ex]; simpl.
  - discriminate.
  - destruct sx; discriminate.
  - discriminate.
  - intros Hv. destruct sx; [discriminate|].
    unfold SFsqrt_core_binary.
    destruct (Z.sqrtrem _) as [q r].
    intros Hr. apply binary_round_aux_exponent in Hr.
    unfold bounded, canonical_mantissa in Hv.
    apply andb_prop in Hv. destruct Hv as [Hc _].
    apply Z.eqb_eq in Hc. rewrite fexp64_eq in Hc.
    rewrite fexp64_eq in Hr. simpl Zdigits2 in Hr.
    pose proof (Pos2Z.is_pos (digits2_pos mx)).
    rewrite !Z.div2_div in Hr.
    assert (-537 <= ex / 2) by (apply Z.div_le_lower_bound; lia).
    assert (-536 <= (Zpos (digits2_pos mx) + ex + 1) / 2)
      by (apply Z.div_le_lower_bound; lia).
    lia.
Qed.

(** A finite value with such an exponent is a normal number: its
    mantissa has all 53 bits. *)
Lemma valid_normal (s : bool) (m : positive) (e : Z) :
  valid_binary (S754_finite s m e) = true -> -589 <= e ->
  2 ^ 52 <= Zpos m.
Proof.
  simpl. unfold bounded, canonical_mantissa. intros Hv He.
  apply andb_prop in Hv. destruct Hv as [Hc _].
  apply Z.eqb_eq in Hc. rewrite fexp64_eq in Hc.
  pose proof (digits2_pos_bounds m) as [Hlo _].
  replace (Zpos (digits2_pos m)) with 53 in Hlo by lia. exact Hlo.
Qed.

(** The product of two normal numbers with such exponents is not zero. *)
Lemma SFmul_not_zero (s1 s2 s0 : bool) (m1 m2 : positive) (e1 e2 : Z) :
  2 ^ 52 <= Zpos m1 -> 2 ^ 52 <= Zpos m2 -> -589 <= e1 -> -589 <= e2 ->
  SFmul prec emax (S754_finite s1 m1 e1) (S754_finite s2 m2 e2) <> S754_zero s0.
Proof.
  intros H1 H2 E1 E2. simpl. apply binary_round_aux_not_zero.
  pose proof (digits2_pos_bounds (m1 * m2)) as [Hlo Hhi].
  assert (Hp : 2 ^ 104 <= Zpos (m1 * m2)).
  { rewrite Pos2Z.inj_mul. change (2 ^ 104) with (2 ^ 52 * 2 ^ 52).
    apply Z.mul_le_mono_nonneg; lia. }
  set (D := Zpos (digits2_pos (m1 * m2))) in *.
  rewrite fexp64_eq. intros Hn.
  destruct (Z.max_spec (D + (e1 + e2) - 53) (-1074)) as [[_ ->]|[_ ->]].
  - apply Z.le_trans with (2 ^ 104); [|exact Hp].
    apply Z.pow_le_mono_r; lia.
  - apply Z.le_trans with (2 ^ (D - 1)); [|exact Hlo].
    apply Z.pow_le_mono_r; lia.
Qed.

Lemma SFeqb_zero (x : spec_float) :
  SFeqb x (S754_zero false) = true <-> exists s, x = S754_zero s.
Proof.
  destruct x as [s|s| |s m e]; simpl; split;
    try discriminate; try (intros [s0 [=]]); try (now exists s);
    try reflexivity; destruct s; discriminate.
Qed.

(** The product of two square roots that are not zero is not zero. *)
Lemma SFsqrt_product_not_zero (x y : spec_float) :
  valid_binary x = true -> valid_binary y = true ->
  valid_binary (SFsqrt prec emax x) = true ->
  valid_binary (SFsqrt prec emax y) = true ->
  SFeqb (SFsqrt prec emax x) (S754_zero false) = false ->
  SFeqb (SFsqrt prec emax y) (S754_zero false) = false ->
  SFeqb (SFmul prec emax (SFsqrt prec emax x) (SFsqrt prec emax y))
        (S754_zero false) = false.
Proof.
  intros Vx Vy Vsx Vsy Nx Ny.
  apply not_true_is_false. intros Hz. apply SFeqb_zero in Hz. destruct Hz as [s0 Hz].
  destruct (SFsqrt prec emax x) as [s1|s1| |s1 m1 e1] eqn:Hx;
    [discriminate Nx| | |];
    destruct (SFsqrt prec emax y) as [s2|s2| |s2 m2 e2] eqn:Hy;
    try discriminate Ny; try discriminate Hz.
  assert (E1 : -589 <= e1) by exact (SFsqrt_exponent x s1 m1 e1 Vx Hx).
  assert (E2 : -589 <= e2) by exact (SFsqrt_exponent y s2 m2 e2 Vy Hy).
  revert Hz. apply SFmul_not_zero; try assumption.
  - eapply valid_normal; eassumption.
  - eapply valid_normal; eassumption.
Qed.
End Rounding.

Lemma float_sqrt_product_not_zero (x y : float) :
  (PrimFloat.sqrt x =? 0)%float = false ->
  (PrimFloat.sqrt y =? 0)%float = false ->
  (PrimFloat.sqrt x * PrimFloat.sqrt y =? 0)%float = false.
Proof.
  rewrite !eqb_spec, mul_spec, !sqrt_spec.
  change (Prim2SF 0) with (S754_zero false).
  apply SFsqrt_product_not_zero; try apply Prim2SF_valid.
  - rewrite <- sqrt_spec. apply Prim2SF_valid.
  - rewrite <- sqrt_spec. apply Prim2SF_valid.
Qed.

(** ** Rows taken by position *)

Section Positions.
Context {T : Type}.

Lemma iloc_all (l : list T) : iloc l (seq 0 (length l)) = l.
Proof.
  unfold iloc. induction l as [|x l IH]; [reflexivity|].
  cbn [length seq flat_map nth_error app]. f_equal.
  rewrite <- seq_shift, flat_map_concat_map, map_map, <- flat_map_concat_map.
  exact IH.
Qed.

Lemma iloc_perm (l : list T) (indexer : list nat) :
  Permutation indexer (seq 0 (length l)) -> Permutation (iloc l indexer) l.
Proof.
  intros Hp. apply Permutation_trans with (iloc l (seq 0 (length l))).
  - unfold iloc. now apply Permutation_flat_map.
  - now rewrite iloc_all.
Qed.

Lemma iloc_sorted {U} (f : T -> U) (P : U -> U -> Prop)
    (l : list T) (indexer : list nat) :
  StronglySorted
    (fun i j => forall x y,
       nth_error (map f l) i = Some x -> nth_error (map f l) j = Some y -> P x y)
    indexer ->
  StronglySorted (fun a b => P (f a) (f b)) (iloc l indexer).
Proof.
  induction 1 as [|i idx S IH Hi]; [constructor|].
  cbn [iloc flat_map]. fold (iloc l idx).
  destruct (nth_error l i) as [a|] eqn:Ha; [|exact IH].
  constructor; [exact IH|].
  apply Forall_forall. intros b Hb. unfold iloc in Hb. apply in_flat_map in Hb.
  destruct Hb as [j [Hj Hb]].
  destruct (nth_error l j) as [b'|] eqn:Hb'; [|contradiction].
  destruct Hb as [<-|[]]. rewrite Forall_forall in Hi.
  apply (Hi j Hj); rewrite nth_error_map; [now rewrite Ha | now rewrite Hb'].
Qed.

Lemma iloc_related {U} (R : T -> U -> Prop) (l : list T) (l' : list U)
    (indexer : list nat) :
  Forall2 R l l' -> Forall2 R (iloc l indexer) (iloc l' indexer).
Proof.
  intros Hl. induction indexer as [|i idx IH]; [constructor|].
  cbn [iloc flat_map]. fold (iloc l idx). fold (iloc l' idx).
  assert (Hi : match nth_error l i, nth_error l' i with
               | Some a, Some b => R a b
               | None, None => True
               | _, _ => False
               end).
  { clear IH. revert i. induction Hl as [|a b l l' Hab Hl IHl]; intros [|i]; simpl;
      auto. apply IHl. }
  destruct (nth_error l i), (nth_error l' i); try contradiction.
  - now constructor.
  - exact IH.
Qed.

Lemma combine_seq_In (l : list T) (s n i : nat) (v : T) :
  In (i, v) (combine (seq s n) l) -> nth_error l (i - s) = Some v /\ s <= i.
Proof.
  revert s n. induction l as [|x l IH]; intros s [|n]; simpl; try contradiction.
  intros [[= <- <-]|Hin].
  - rewrite Nat.sub_diag. split; [reflexivity | lia].
  - apply IH in Hin. destruct Hin as [Hn Hs]. split; [|lia].
    replace (i - s) with (S (i - S s)) by lia. exact Hn.
Qed.

Lemma map_fst_combine_seq (l : list T) (s : nat) :
  map fst (combine (seq s (length l)) l) = seq s (length l).
Proof.
  revert s. induction l as [|x l IH]; intros s; simpl; [reflexivity|].
  now rewrite IH.
Qed.

End Positions.

(** ** The sorts by insertion of positions *)

Section InsertionArgsort.
Context {A : Type} {arith : Arith A} {order : ArithOrder arith}.
Variable reversed : bool.

Let not_less (p q : nat * A) : Prop := fltb (snd p) (snd q) = false.

Lemma insert_position_perm (p : nat * A) (l : list (nat * A)) :
  Permutation (insert_position reversed p l) (p :: l).
Proof.
  induction l as [|h t IH]; simpl; [reflexivity|].
  destruct (if reversed then _ else _); [|reflexivity].
  rewrite IH. apply perm_swap.
Qed.

Lemma sort_positions_perm (l : list (nat * A)) :
  Permutation (fold_right (insert_position reversed) [] l) l.
Proof.
  induction l as [|p l IH]; simpl; [reflexivity|].
  rewrite insert_position_perm. now constructor.
Qed.

Lemma insert_position_sorted (p : nat * A) (l : list (nat * A)) :
  Forall (fun q => isnan (snd q) = false) l ->
  StronglySorted not_less l ->
  StronglySorted not_less (insert_position reversed p l).
Proof.
  intros Hn S. induction S as [|h t S IH Hh]; simpl.
  - repeat constructor.
  - apply Forall_cons_iff in Hn. destruct Hn as [Hhn Hn].
    destruct (if reversed then _ else _) eqn:Htest.
    + constructor; [now apply IH|].
      apply (Permutation_Forall (Permutation_sym (insert_position_perm p t))).
      constructor; [|assumption]. unfold not_less.
      destruct reversed.
      * now destruct (fltb (snd h) (snd p)).
      * now apply fltb_asym.
    + assert (Hph : fltb (snd p) (snd h) = false).
      { destruct reversed; [|exact Htest].
        apply fltb_asym. now destruct (fltb (snd h) (snd p)). }
      constructor; [now constructor|].
      constructor; [exact Hph|].
      rewrite Forall_forall in *. intros x Hx. unfold not_less.
      apply fltb_negtrans with (y := snd h); auto.
      now apply (Hh x Hx).
Qed.

Lemma sort_positions_sorted (l : list (nat * A)) :
  Forall (fun q => isnan (snd q) = false) l ->
  StronglySorted not_less (fold_right (insert_position reversed) [] l).
Proof.
  induction 1 as [|p l Hp Hl IH]; simpl; [constructor|].
  apply insert_position_sorted; [|exact IH].
  apply (Permutation_Forall (Permutation_sym (sort_positions_perm l))); assumption.
Qed.

Lemma insertion_argsort_perm (column : list A) :
  Permutation (insertion_argsort reversed column) (seq 0 (length column)).
Proof.
  unfold insertion_argsort.
  rewrite (Permutation_map fst (sort_positions_perm _)).
  now rewrite map_fst_combine_seq.
Qed.

Lemma insertion_argsort_sorted (column : list A) :
  Forall (fun x => isnan x = false) column ->
  StronglySorted
    (fun i j => forall x y,
       nth_error column i = Some x -> nth_error column j = Some y ->
       fltb x y = false)
    (insertion_argsort reversed column).
Proof.
  intros Hn. unfold insertion_argsort.
  set (pairs := combine (seq 0 (length column)) column).
  assert (Hpairs : forall q, In q pairs -> nth_error column (fst q) = Some (snd q)).
  { intros [i v] Hq. apply combine_seq_In in Hq. destruct Hq as [Hq _].
    now rewrite Nat.sub_0_r in Hq. }
  apply StronglySorted_map.
  apply StronglySorted_weaken with (R := not_less).
  - apply sort_positions_sorted. apply Forall_forall. intros q Hq.
    rewrite Forall_forall in Hn. apply Hn.
    eapply nth_error_In. apply (Hpairs q Hq).
  - intros a b Ha Hb Hab x y Hx Hy.
    apply (Permutation_in _ (sort_positions_perm pairs)) in Ha, Hb.
    rewrite (Hpairs a Ha) in Hx. rewrite (Hpairs b Hb) in Hy.
    injection Hx as <-. injection Hy as <-. exact Hab.
Qed.

End InsertionArgsort.

(** Two sorts that are in the class.  [ties_reversed] gives equal values
    in the reverse of their order in the column: it is what
    [sort_values(ascending=False)] returns when the sort underneath keeps
    equal values in order, as numpy's sort by insertion of a short column
    does, since pandas reverses the column, sorts it in ascending order
    and reverses the result.  [ties_in_order] keeps equal values in the
    order of the column.  The examples on concrete batches are computed
    with the first. *)
#[export] Instance ties_reversed : Quicksort binary64 := {|
  argsort_descending := insertion_argsort true;
  argsort_descending_perm := insertion_argsort_perm true;
  argsort_descending_sorted := insertion_argsort_sorted true
|}.

Definition ties_in_order : Quicksort binary64 := {|
  argsort_descending := insertion_argsort false;
  argsort_descending_perm := insertion_argsort_perm false;
  argsort_descending_sorted := insertion_argsort_sorted false
|}.

(** ** The stable descending sort *)

Section Sorting.
Context {A : Type} {arith : Arith A} {order : ArithOrder arith}
        {quicksort : Quicksort arith}.

Lemma insert_desc_perm (r : scored A) (l : list (scored A)) :
  Permutation (insert_desc r l) (r :: l).
Proof.
  induction l as [|h t IH]; simpl; [reflexivity|].
  destruct (fltb (similarity r) (similarity h)); [|reflexivity].
  rewrite IH. apply perm_swap.
Qed.

Lemma sort_desc_perm (l : list (scored A)) : Permutation (sort_desc l) l.
Proof.
  induction l as [|r l IH]; simpl; [reflexivity|].
  rewrite insert_desc_perm. now constructor.
Qed.

Lemma insert_desc_sorted (r : scored A) (l : list (scored A)) :
  isnan (similarity r) = false ->
  Forall (fun x => isnan (similarity x) = false) l ->
  Forall (label_lt r) l ->
  StronglySorted before l ->
  StronglySorted before (insert_desc r l).
Proof.
  intros Hr Hn Hl S. induction S as [|h t S IH Hh]; simpl.
  - repeat constructor.
  - apply Forall_cons_iff in Hn. destruct Hn as [Hhn Hn].
    apply Forall_cons_iff in Hl. destruct Hl as [Hhl Hl].
    destruct (fltb (similarity r) (similarity h)) eqn:Hlt.
    + constructor; [now apply IH|].
      apply (Permutation_Forall (Permutation_sym (insert_desc_perm r t))).
      constructor; [|assumption].
      split; [now apply fltb_asym | congruence].
    + constructor; [now constructor|].
      constructor; [now split|].
      rewrite Forall_forall in *. intros x Hx.
      split; [|intros _; now apply Hl].
      apply fltb_negtrans with (y := similarity h); auto.
      now apply (Hh x Hx).
Qed.

Lemma sort_desc_sorted (l : list (scored A)) :
  Forall (fun x => isnan (similarity x) = false) l ->
  StronglySorted label_lt l ->
  StronglySorted before (sort_desc l).
Proof.
  intros Hn S. induction S as [|r l S IH Hr]; simpl; [constructor|].
  apply Forall_cons_iff in Hn. destruct Hn as [Hrn Hn].
  apply insert_desc_sorted; auto.
  - apply (Permutation_Forall (Permutation_sym (sort_desc_perm l))); assumption.
  - apply (Permutation_Forall (Permutation_sym (sort_desc_perm l))); assumption.
Qed.

Lemma before_ranks_before (a b : scored A) :
  isnan (similarity a) = false -> isnan (similarity b) = false ->
  before a b -> ranks_before a b.
Proof.
  intros Ha Hb [Hab Hl]. split; [|split].
  - left. now apply fleb_total.
  - intros He. apply Hl. now apply feqb_tied.
  - intros He. apply Hl. apply feqb_tied.
    rewrite <- He. unfold isnan in Ha.
    now destruct (feqb (similarity a) (similarity a)).
Qed.

Lemma nan_ranks_before (a b : scored A) :
  isnan (similarity b) = true ->
  (isnan (similarity a) = true -> label a < label b) ->
  ranks_before a b.
Proof.
  intros Hb Hl. split; [|split].
  - now right.
  - intros He. apply feqb_number in He. destruct He as [_ He]. congruence.
  - intros He. apply Hl. now rewrite He.
Qed.

(** The order of the fast method: the whole frame in ranking order. *)
Lemma nlargest_order_sorted (df : list (scored A)) :
  StronglySorted label_lt df ->
  StronglySorted ranks_before
    (sort_desc (filter (fun r => negb (isnan (similarity r))) df)
     ++ filter (fun r => isnan (similarity r)) df).
Proof.
  intros S.
  set (number := fun r : scored A => negb (isnan (similarity r))).
  assert (Hnum : Forall (fun x => isnan (similarity x) = false) (filter number df)).
  { apply Forall_forall. intros x Hx. apply filter_In in Hx.
    destruct Hx as [_ Hx]. unfold number in Hx.
    now destruct (isnan (similarity x)). }
  apply StronglySorted_app.
  - apply StronglySorted_weaken with (R := before).
    + apply sort_desc_sorted; [assumption|].
      now apply StronglySorted_filter.
    + intros a b Ha Hb. rewrite Forall_forall in Hnum.
      apply before_ranks_before; apply Hnum;
        eapply Permutation_in; try eassumption; apply sort_desc_perm.
  - apply StronglySorted_weaken with (R := label_lt).
    + now apply StronglySorted_filter.
    + intros a b _ Hb Hl. apply filter_In in Hb.
      apply nan_ranks_before; [apply Hb | intros _; exact Hl].
  - intros a b Ha Hb. apply filter_In in Hb.
    apply nan_ranks_before; [apply Hb|].
    intros Hnan. exfalso.
    apply (Permutation_in _ (sort_desc_perm _)) in Ha.
    rewrite Forall_forall in Hnum. specialize (Hnum a Ha). congruence.
Qed.

Lemma filter_split_perm {T} (p q : T -> bool) (l : list T) :
  (forall x, q x = negb (p x)) ->
  Permutation (filter p l ++ filter q l) l.
Proof.
  intros Hq. induction l as [|x l IH]; simpl; [reflexivity|].
  rewrite (Hq x). destruct (p x); simpl.
  - now constructor.
  - symmetry. apply Permutation_cons_app. now symmetry.
Qed.

Lemma nlargest_order_perm (df : list (scored A)) :
  Permutation
    (sort_desc (filter (fun r => negb (isnan (similarity r))) df)
     ++ filter (fun r => isnan (similarity r)) df)
    df.
Proof.
  rewrite sort_desc_perm. apply filter_split_perm.
  intros x. now rewrite negb_involutive.
Qed.

(** The order of the slow method: the same rows. *)
Lemma sort_values_descending_perm (df : list (scored A)) :
  Permutation (sort_values_descending df) df.
Proof.
  unfold sort_values_descending.
  rewrite iloc_perm.
  - apply filter_split_perm. intros x. now rewrite negb_involutive.
  - rewrite <- (length_map similarity). apply argsort_descending_perm.
Qed.

(** The order of the slow method: the scores descend, NaN last. *)
Lemma sort_values_descending_sorted (df : list (scored A)) :
  StronglySorted (fun a b => descends (similarity a) (similarity b))
                 (sort_values_descending df).
Proof.
  unfold sort_values_descending.
  set (number := fun r : scored A => negb (isnan (similarity r))).
  assert (Hnum : Forall (fun x => isnan (similarity x) = false) (filter number df)).
  { apply Forall_forall. intros x Hx. apply filter_In in Hx.
    destruct Hx as [_ Hx]. unfold number in Hx.
    now destruct (isnan (similarity x)). }
  assert (Hin : forall a, In a (iloc (filter number df)
                                  (argsort_descending (map similarity (filter number df)))) ->
                          isnan (similarity a) = false).
  { intros a Ha. rewrite Forall_forall in Hnum. apply Hnum.
    eapply Permutation_in; [|exact Ha].
    apply iloc_perm. rewrite <- (length_map similarity).
    apply argsort_descending_perm. }
  apply StronglySorted_app.
  - apply StronglySorted_weaken
      with (R := fun a b => fltb (similarity a) (similarity b) = false).
    + apply (iloc_sorted similarity (fun x y => fltb x y = false)).
      apply argsort_descending_sorted. now apply Forall_map.
    + intros a b Ha Hb Hab. left. apply fleb_total; auto.
  - assert (Hnan : Forall (fun b => isnan (similarity b) = true)
                          (filter (fun r => isnan (similarity r)) df)).
    { apply Forall_forall. intros b Hb. apply filter_In in Hb. apply Hb. }
    induction Hnan as [|x l Hx Hl IH]; constructor; [exact IH|].
    eapply Forall_impl; [|exact Hl]. intros b Hb. now right.
  - intros a b _ Hb. right. apply filter_In in Hb. apply Hb.
Qed.

(** What [nlargest] returns: nothing, or the first rows of the whole
    frame in some order. *)
Lemma nlargest_perm_cases (n : Z) (df : list (scored A)) :
  ((n <= 0)%Z /\ nlargest n df = [])
  \/ ((0 < n)%Z /\
      exists rows_in_order,
        nlargest n df = firstn (Z.to_nat n) rows_in_order /\
        Permutation rows_in_order df).
Proof.
  unfold nlargest. destruct (n <=? 0)%Z eqn:Hn.
  - left. apply Z.leb_le in Hn. now split.
  - right. apply Z.leb_gt in Hn. split; [exact Hn|].
    destruct (Z.of_nat (length df) <=? n)%Z; eexists; (split; [reflexivity|]).
    + apply sort_values_descending_perm.
    + apply nlargest_order_perm.
Qed.

(** In that order the scores descend, and it is the ranking order when
    [n] is below the length of the frame. *)
Lemma nlargest_cases (n : Z) (df : list (scored A)) :
  StronglySorted label_lt df ->
  ((n <= 0)%Z /\ nlargest n df = [])
  \/ ((0 < n)%Z /\
      exists rows_in_order,
        nlargest n df = firstn (Z.to_nat n) rows_in_order /\
        Permutation rows_in_order df /\
        StronglySorted (fun a b => descends (similarity a) (similarity b))
                       rows_in_order /\
        ((n < Z.of_nat (length df))%Z -> StronglySorted ranks_before rows_in_order)).
Proof.
  intros S. unfold nlargest. destruct (n <=? 0)%Z eqn:Hn.
  - left. apply Z.leb_le in Hn. now split.
  - right. apply Z.leb_gt in Hn. split; [exact Hn|].
    destruct (Z.of_nat (length df) <=? n)%Z eqn:Hlen.
    + apply Z.leb_le in Hlen. eexists. split; [reflexivity|].
      split; [apply sort_values_descending_perm|].
      split; [apply sort_values_descending_sorted | lia].
    + eexists. split; [reflexivity|].
      split; [apply nlargest_order_perm|].
      pose proof (nlargest_order_sorted df S) as Hs.
      split; [|intros _; exact Hs].
      apply StronglySorted_weaken with (R := ranks_before); [exact Hs|].
      intros a b _ _ Hab. apply Hab.
Qed.

(** The frame [nlargest] returns has its scores in descending order, NaN
    last, whatever [n]. *)
Lemma nlargest_descends (n : Z) (df : list (scored A)) :
  StronglySorted label_lt df ->
  StronglySorted (fun a b => descends (similarity a) (similarity b)) (nlargest n df).
Proof.
  intros S. destruct (nlargest_cases n df S) as [[_ ->]|[_ [rows_in_order [-> [_ [Hs _]]]]]];
    [constructor|].
  now apply StronglySorted_firstn.
Qed.

(** For [n] below the length of the frame, it is in ranking order. *)
Lemma nlargest_sorted (n : Z) (df : list (scored A)) :
  StronglySorted label_lt df ->
  (n < Z.of_nat (length df))%Z ->
  StronglySorted ranks_before (nlargest n df).
Proof.
  intros S Hn. destruct (nlargest_cases n df S) as [[_ ->]|[_ [rows_in_order [-> [_ [_ Hs]]]]]];
    [constructor|].
  apply StronglySorted_firstn. now apply Hs.
Qed.

End Sorting.

(** ** The scoring functions *)

Section ScoringFacts.
Context {A : Type} {arith : Arith A}.

Lemma combine_map_r {T U} (f : T -> U) (l : list T) :
  combine l (map f l) = map (fun x => (x, f x)) l.
Proof. induction l as [|x l IH]; simpl; [reflexivity | now rewrite IH]. Qed.

Lemma divide_rows_norm_rows (m : matrix A) :
  divide_rows m (np_linalg_norm_rows m)
  = map (fun r => divide_by r (np_linalg_norm r)) m.
Proof.
  unfold divide_rows, np_linalg_norm_rows.
  rewrite combine_map_r, map_map. reflexivity.
Qed.

Lemma divide_by_length (v : vector A) (s : A) : length (divide_by v s) = length v.
Proof. apply length_map. Qed.

(** When the rows all have the target's length, the batch function
    returns one [batch_entry] per row. *)
Lemma batch_cosine_similarity_aligned (target_vec : vector A) (m : matrix A) :
  Forall (fun r => length r = length target_vec) m ->
  batch_cosine_similarity (Some target_vec) m
  = Return (map (batch_entry target_vec) m).
Proof.
  intros Hm. unfold batch_cosine_similarity, np_dot_matrix_vector.
  rewrite divide_rows_norm_rows.
  replace (forallb _ _) with true.
  - simpl. rewrite map_map. reflexivity.
  - symmetry. apply forallb_forall. intros r Hr.
    apply in_map_iff in Hr. destruct Hr as [r0 [<- Hr0]].
    rewrite Forall_forall in Hm.
    rewrite !divide_by_length. apply Nat.eqb_eq. now apply Hm.
Qed.

(** When some row has another length, [np.dot] raises. *)
Lemma batch_cosine_similarity_misaligned (target_vec : vector A) (m : matrix A) :
  Exists (fun r => length r <> length target_vec) m ->
  batch_cosine_similarity (Some target_vec) m = Raise ValueError.
Proof.
  intros Hm. unfold batch_cosine_similarity, np_dot_matrix_vector.
  rewrite divide_rows_norm_rows.
  replace (forallb _ _) with false; [reflexivity|].
  symmetry. apply not_true_is_false. intros Hall.
  rewrite forallb_forall in Hall.
  apply Exists_exists in Hm. destruct Hm as [r [Hr Hlen]].
  apply Hlen. specialize (Hall (divide_by r (np_linalg_norm r))).
  rewrite !divide_by_length in Hall. apply Nat.eqb_eq, Hall.
  apply in_map_iff. now exists r.
Qed.

Lemma np_array_aligned (d : nat) (embeddings : list (vector A)) :
  Forall (fun r => length r = d) embeddings ->
  np_array embeddings = Return embeddings.
Proof.
  intros Hall. destruct embeddings as [|first rest]; [reflexivity|].
  unfold np_array. replace (forallb _ _) with true; [reflexivity|].
  symmetry. apply forallb_forall. intros r Hr.
  rewrite Forall_forall in Hall. apply Nat.eqb_eq.
  rewrite (Hall r Hr). symmetry. apply Hall. now left.
Qed.

Lemma np_array_ragged (first : vector A) (rest : list (vector A)) :
  Exists (fun r => length r <> length first) rest ->
  np_array (first :: rest) = Raise ValueError.
Proof.
  intros Hex. unfold np_array.
  replace (forallb _ _) with false; [reflexivity|].
  symmetry. apply not_true_is_false. intros Hall.
  rewrite forallb_forall in Hall.
  apply Exists_exists in Hex. destruct Hex as [r [Hr Hlen]].
  apply Hlen, Nat.eqb_eq, Hall. now right.
Qed.

Lemma np_array_returns (embeddings m : list (vector A)) :
  np_array embeddings = Return m -> m = embeddings.
Proof.
  destruct embeddings as [|first rest]; simpl.
  - now intros [= <-].
  - destruct (_ && _); [now intros [= <-] | discriminate].
Qed.

Lemma np_array_raises (embeddings : list (vector A)) (e : exn) :
  np_array embeddings = Raise e -> e = ValueError.
Proof.
  destruct embeddings as [|first rest]; simpl; [discriminate|].
  destruct (_ && _); [discriminate | now intros [= <-]].
Qed.

Lemma batch_cosine_similarity_returns
    (target : option (vector A)) (m : matrix A) (sims : list A) :
  batch_cosine_similarity target m = Return sims ->
  exists target_vec, target = Some target_vec /\
                     sims = map (batch_entry target_vec) m.
Proof.
  destruct target as [target_vec|]; [|discriminate].
  intros Hb. exists target_vec. split; [reflexivity|].
  destruct (Forall_Exists_dec (fun r : vector A => length r = length target_vec)
              (fun r => Nat.eq_dec (length r) (length target_vec)) m) as [Hall|Hex].
  - rewrite batch_cosine_similarity_aligned in Hb by assumption. now injection Hb.
  - rewrite batch_cosine_similarity_misaligned in Hb by assumption. discriminate.
Qed.

End ScoringFacts.

(** ** Frames *)

Section FrameFacts.
Context {A : Type} {arith : Arith A} {quicksort : Quicksort arith}.

Let row_of (p : nat * (candidate A * A)) : scored A :=
  {| label := fst p; cand := fst (snd p); similarity := snd (snd p) |}.

Lemma labelled_from (s : nat) (l : list (candidate A * A)) (x : scored A) :
  In x (map row_of (combine (seq s (length l)) l)) ->
  s <= label x /\ nth_error l (label x - s) = Some (cand x, similarity x).
Proof.
  revert s. induction l as [|p l IH]; simpl; intros s Hx; [contradiction|].
  destruct Hx as [<-|Hx].
  - simpl. rewrite Nat.sub_diag. split; [lia|]. now destruct p.
  - apply IH in Hx. destruct Hx as [Hs Hn]. split; [lia|].
    replace (label x - s) with (S (label x - S s)) by lia. exact Hn.
Qed.

Lemma labelled_sorted (s n : nat) (l : list (candidate A * A)) :
  StronglySorted label_lt (map row_of (combine (seq s n) l)).
Proof.
  revert s l. induction n as [|n IH]; intros s [|p l]; simpl; try constructor.
  - apply IH.
  - apply Forall_forall. intros x Hx.
    apply in_map_iff in Hx. destruct Hx as [[i y] [<- Hi]].
    apply in_combine_l in Hi. apply in_seq in Hi.
    unfold label_lt. simpl. lia.
Qed.

Lemma scored_rows_length (df : list (candidate A)) (column : list A) :
  length column = length df -> length (scored_rows df column) = length df.
Proof.
  intros Hc. unfold scored_rows.
  rewrite length_map, !length_combine, length_seq, Hc. lia.
Qed.

Lemma scored_rows_sorted (df : list (candidate A)) (column : list A) :
  StronglySorted label_lt (scored_rows df column).
Proof. apply labelled_sorted. Qed.

(** A row of the scored frame is the candidate at its label, with the
    entry of the column at its label. *)
Lemma scored_rows_In (df : list (candidate A)) (column : list A) (x : scored A) :
  length column = length df ->
  In x (scored_rows df column) ->
  nth_error df (label x) = Some (cand x) /\
  nth_error column (label x) = Some (similarity x).
Proof.
  intros Hc Hx. unfold scored_rows in Hx.
  replace (length df) with (length (combine df column)) in Hx
    by (rewrite length_combine; lia).
  apply labelled_from in Hx. destruct Hx as [_ Hx].
  rewrite Nat.sub_0_r in Hx.
  revert Hx. generalize (label x). clear Hc.
  revert column. induction df as [|c df IH]; intros [|v column] [|n]; simpl;
    try discriminate.
  - now intros [= -> ->].
  - apply IH.
Qed.

Lemma nlargest_incl (n : Z) (df : list (scored A)) (x : scored A) :
  In x (nlargest n df) -> In x df.
Proof.
  destruct (nlargest_perm_cases n df) as [[_ ->]|[_ [rows_in_order [-> Hp]]]];
    [contradiction|].
  intros Hx. apply (Permutation_in _ Hp).
  rewrite <- (firstn_skipn (Z.to_nat n)). apply in_or_app. now left.
Qed.

Lemma NoDup_firstn {T} (n : nat) (l : list T) : NoDup l -> NoDup (firstn n l).
Proof.
  intros Hl. rewrite <- (firstn_skipn n l) in Hl.
  now apply NoDup_app_remove_r in Hl.
Qed.

Lemma label_lt_NoDup (l : list (scored A)) :
  StronglySorted label_lt l -> NoDup (map (label) l).
Proof.
  induction 1 as [|x l S IH Hx]; simpl; constructor; [|assumption].
  intros Hin. apply in_map_iff in Hin. destruct Hin as [y [Hy Hin]].
  rewrite Forall_forall in Hx. specialize (Hx y Hin).
  unfold label_lt in Hx. lia.
Qed.

Lemma nlargest_labels_NoDup (n : Z) (df : list (scored A)) :
  StronglySorted label_lt df -> NoDup (map (label) (nlargest n df)).
Proof.
  intros S.
  destruct (nlargest_perm_cases n df) as [[_ ->]|[_ [rows_in_order [-> Hp]]]];
    [constructor|].
  rewrite <- firstn_map. apply NoDup_firstn.
  apply (Permutation_NoDup (Permutation_sym (Permutation_map _ Hp))).
  now apply label_lt_NoDup.
Qed.

Lemma nlargest_length (n : Z) (df : list (scored A)) :
  length (nlargest n df) = Z.to_nat (Z.min n (Z.of_nat (length df))).
Proof.
  destruct (nlargest_perm_cases n df) as [[Hn ->]|[Hn [rows_in_order [-> Hp]]]].
  - simpl. lia.
  - rewrite length_firstn, (Permutation_length Hp). lia.
Qed.

Lemma nlargest_nil (n : Z) : nlargest n (@nil (scored A)) = [].
Proof. apply length_zero_iff_nil. rewrite nlargest_length. simpl. lia. Qed.

Lemma top_rows_nil (column : list A) (k : Z) : top_rows [] column k = [].
Proof. unfold top_rows. simpl scored_rows. now rewrite nlargest_nil. Qed.

Lemma drop_embedding_length (df : list (scored A)) :
  length (drop_embedding df) = length df.
Proof. apply length_map. Qed.

(** ** The ranking *)

(** The frame the method returns when it has scores for the batch. *)
Lemma find_top_similar_aligned
    (q : vector A) (df : list (candidate A)) (k : Z) :
  Forall (fun c => length (embedding_v1 c) = length q) df ->
  find_top_similar (Some q) df k
  = Return (top_rows df (map (batch_entry q) (map (embedding_v1) df)) k).
Proof.
  intros Hall. unfold find_top_similar.
  destruct df as [|c df]; [now rewrite top_rows_nil|].
  unfold top_rows.
  change (length (c :: df) =? 0)%nat with false. cbv iota.
  assert (Hrows : Forall (fun r : vector A => length r = length q)
                         (map (embedding_v1) (c :: df))).
  { apply Forall_map. exact Hall. }
  rewrite np_array_aligned with (d := length q) by exact Hrows. cbn [obind].
  rewrite batch_cosine_similarity_aligned by exact Hrows. cbn [obind].
  unfold setitem_similarity_score. rewrite !length_map, Nat.eqb_refl. cbn [obind].
  rewrite scored_rows_length by now rewrite !length_map.
  reflexivity.
Qed.

Lemma similarities_of_some (q : vector A) (df : list (candidate A)) :
  similarities_of (Some q) df = map (batch_entry q) (map (embedding_v1) df).
Proof. simpl. now rewrite map_map. Qed.

(** Whenever the method returns, it returns the top rows for the column
    [similarities_of], which then has an entry per candidate. *)
Lemma find_top_similar_returns
    (target : option (vector A)) (df : list (candidate A)) (k : Z)
    (out : list (ranked A)) :
  find_top_similar target df k = Return out ->
  length (similarities_of target df) = length df /\
  out = top_rows df (similarities_of target df) k.
Proof.
  unfold find_top_similar. destruct df as [|c df].
  - simpl. intros [= <-]. rewrite top_rows_nil. now destruct target.
  - change (length (c :: df) =? 0)%nat with false. cbv iota.
    destruct (np_array _) as [m|] eqn:Hm; [|discriminate].
    apply np_array_returns in Hm. subst m. cbn [obind].
    destruct (batch_cosine_similarity _ _) as [sims|] eqn:Hs; [|discriminate].
    apply batch_cosine_similarity_returns in Hs.
    destruct Hs as [q [-> ->]]. cbn [obind].
    rewrite similarities_of_some.
    unfold setitem_similarity_score. rewrite !length_map, Nat.eqb_refl. cbn [obind].
    rewrite scored_rows_length by now rewrite !length_map.
    intros [= <-]. split; reflexivity.
Qed.

(** A returned row is the candidate at its index, with that candidate's
    entry of the column. *)
Lemma top_rows_In
    (df : list (candidate A)) (column : list A) (k : Z) (r : ranked A) :
  length column = length df ->
  In r (top_rows df column k) ->
  exists c, nth_error df (index r) = Some c /\
            info r = meta c /\
            nth_error column (index r) = Some (similarity_score r).
Proof.
  intros Hc Hr. unfold top_rows, drop_embedding in Hr.
  apply in_map_iff in Hr. destruct Hr as [x [<- Hx]]. simpl.
  apply nlargest_incl in Hx. apply scored_rows_In in Hx; [|assumption].
  exists (cand x). tauto.
Qed.

Lemma top_rows_index_NoDup (df : list (candidate A)) (column : list A) (k : Z) :
  NoDup (map (index) (top_rows df column k)).
Proof.
  unfold top_rows, drop_embedding. rewrite map_map. simpl.
  apply nlargest_labels_NoDup, scored_rows_sorted.
Qed.

Lemma top_rows_length (df : list (candidate A)) (column : list A) (k : Z) :
  length column = length df ->
  length (top_rows df column k) = Z.to_nat (Z.min k (Z.of_nat (length df))).
Proof.
  intros Hc. unfold top_rows.
  rewrite drop_embedding_length, nlargest_length, scored_rows_length by assumption.
  lia.
Qed.

(** The scores of the returned frame descend, NaN last. *)
Lemma top_rows_descends {order : ArithOrder arith}
    (df : list (candidate A)) (column : list A) (k : Z) :
  StronglySorted (fun a b => descends (similarity_score a) (similarity_score b))
                 (top_rows df column k).
Proof.
  unfold top_rows, drop_embedding. apply StronglySorted_map.
  apply nlargest_descends, scored_rows_sorted.
Qed.

(** For [k] below the number of candidates the returned frame is in
    ranking order. *)
Lemma top_rows_sorted {order : ArithOrder arith}
    (df : list (candidate A)) (column : list A) (k : Z) :
  length column = length df ->
  (k < Z.of_nat (length df))%Z ->
  StronglySorted ranked_before (top_rows df column k).
Proof.
  intros Hc Hk. unfold top_rows, drop_embedding. apply StronglySorted_map.
  apply nlargest_sorted; [apply scored_rows_sorted|].
  rewrite scored_rows_length by exact Hc. lia.
Qed.

End FrameFacts.

(** ** Symmetry of the scalar score *)

Section Symmetry.
Context {A : Type} {arith : Arith A}.
Hypothesis fmul_comm : forall x y : A, fmul x y = fmul y x.

Lemma sum_products_comm (a b : vector A) : sum_products a b = sum_products b a.
Proof.
  unfold sum_products. generalize (fzero (A := A)) as acc.
  revert b. induction a as [|x a IH]; intros [|y b] acc; simpl; try reflexivity.
  now rewrite IH, (fmul_comm x y).
Qed.

Lemma cosine_similarity_comm (a b : vector A) :
  cosine_similarity a b = cosine_similarity b a.
Proof.
  unfold cosine_similarity, np_dot.
  rewrite (Nat.eqb_sym (length a) (length b)), (sum_products_comm a b).
  destruct (length b =? length a)%nat; [|reflexivity]. cbn [obind].
  rewrite (orb_comm (feqb (np_linalg_norm a) fzero)).
  now rewrite (fmul_comm (np_linalg_norm a)).
Qed.

End Symmetry.


(** ** The scores in exact arithmetic *)

Section ExactScores.
Local Open Scope R_scope.

Lemma fold_scaled (a b : R) (c q : vector R) (acc : R) :
  a <> 0 -> b <> 0 ->
  fold_left (fun acc p => acc + fst p * snd p)
            (combine (divide_by (arith := exact) c a) (divide_by (arith := exact) q b))
            (acc / (b * a))
  = fold_left (fun acc p => acc + fst p * snd p) (combine q c) acc / (b * a).
Proof.
  intros Ha Hb. revert q acc.
  induction c as [|x c IH]; intros [|y q] acc; simpl; try reflexivity.
  rewrite <- IH. f_equal. field. now split.
Qed.

Lemma batch_entry_exact (q c : vector R) :
  np_linalg_norm q <> 0 -> np_linalg_norm c <> 0 ->
  batch_entry q c = sum_products q c / (np_linalg_norm q * np_linalg_norm c).
Proof.
  intros Hq Hc. unfold batch_entry, sum_products at 1.
  change (fzero (A := R)) with 0.
  replace 0 with (0 / (np_linalg_norm q * np_linalg_norm c)) at 1
    by (field; now split).
  apply fold_scaled; assumption.
Qed.

End ExactScores.

(** ** The call *)

Section CallFacts.
Context {A : Type} {arith : Arith A} {quicksort : Quicksort arith}.

Lemma load_allocated (a : address) (w : world A) (f : frame A) :
  nth_error (heap w) a = Some f -> load a w = (Return f, w).
Proof. intros Hf. unfold load. f_equal. f_equal. now apply nth_error_nth. Qed.

Lemma replace_nth_last {T} (l : list T) (x v : T) :
  replace_nth (length l) v (l ++ [x]) = l ++ [v].
Proof. induction l as [|h t IH]; simpl; [reflexivity | now rewrite IH]. Qed.

Lemma nth_error_last {T} (l : list T) (x : T) :
  nth_error (l ++ [x]) (length l) = Some x.
Proof. rewrite nth_error_app2, Nat.sub_diag by lia. reflexivity. Qed.

(** The call returns what [find_top_similar] computes from the rows of
    the frame it is given, and every frame of the store is afterwards what
    it was before. *)
Lemma find_top_similar_call_run
    (target : option (vector A)) (a : address) (k : Z)
    (w : world A) (f : frame A) :
  nth_error (heap w) a = Some f ->
  exists w',
    find_top_similar_call target a k w = (find_top_similar target (rows f) k, w') /\
    forall b g, nth_error (heap w) b = Some g -> nth_error (heap w') b = Some g.
Proof.
  intros Hf.
  assert (Hkeep : forall (x : frame A) (lg : list (log_record A)) b g,
             nth_error (heap w) b = Some g ->
             nth_error (heap {| heap := heap w ++ [x]; logged := lg |}) b = Some g).
  { intros x lg b g Hb. simpl. rewrite nth_error_app1; [exact Hb|].
    apply nth_error_Some. congruence. }
  unfold find_top_similar_call, find_top_similar, len, getitem_embedding_v1.
  unfold bind at 1 2. rewrite load_allocated with (f := f) by exact Hf. unfold ret at 1.
  unfold bind at 1. unfold logger at 1.
  destruct (length (rows f) =? 0)%nat.
  { eexists. split; [reflexivity|]. intros b g Hb. exact Hb. }
  unfold bind at 1 2. rewrite load_allocated with (f := f) by exact Hf.
  unfold ret at 1. unfold bind at 1. unfold lift at 1.
  destruct (np_array _) as [m|e]; cbn [obind];
    [|eexists; split; [reflexivity | intros b g Hb; exact Hb]].
  unfold bind at 1. unfold lift at 1.
  destruct (batch_cosine_similarity target m) as [sims|e]; cbn [obind];
    [|eexists; split; [reflexivity | intros b g Hb; exact Hb]].
  unfold bind at 1. unfold copy. unfold bind at 1.
  rewrite load_allocated with (f := f) by exact Hf. unfold alloc. simpl heap.
  unfold bind at 1. unfold setitem. unfold bind at 1.
  rewrite load_allocated with (f := f) by apply nth_error_last.
  unfold setitem_similarity_score.
  destruct (length sims =? length (rows f))%nat eqn:Hlen; cbn [obind].
  2:{ unfold lift. eexists. split; [reflexivity | apply Hkeep]. }
  unfold store. simpl heap. simpl logged. rewrite replace_nth_last.
  set (f' := {| rows := rows f; similarity_score_column := Some sims |}).
  unfold bind at 1 2. rewrite load_allocated with (f := f') by apply nth_error_last.
  unfold ret at 1. unfold bind at 1. unfold nlargest_of. unfold bind at 1.
  rewrite load_allocated with (f := f') by apply nth_error_last.
  simpl similarity_score_column. unfold ret at 1.
  unfold bind at 1. unfold logger. unfold ret.
  apply Nat.eqb_eq in Hlen. rewrite scored_rows_length by exact Hlen.
  eexists. split; [reflexivity | apply Hkeep].
Qed.

End CallFacts.

(** * The claims *)

Local Open Scope float_scope.

(** The scenario of the specification: A, then C; B is cut off. *)
Example batch_ABC_ranked :
  find_top_similar (Some [1; 0; 0]) batch_ABC 2
  = Return [ {| index := 0; info := patent "A"; similarity_score := 1 |};
             {| index := 2; info := patent "C";
                similarity_score := 0x1.6a09e667f3bcdp-1 |} ].
Proof. vm_compute. reflexivity. Qed.

(** A zero vector among the candidates: its row is returned, with the
    score NaN. *)
Example batch_AZ_ranked :
  find_top_similar (Some [1; 0]) batch_AZ 2
  = Return [ {| index := 0; info := patent "A"; similarity_score := 1 |};
             {| index := 1; info := patent "Z"; similarity_score := nan |} ].
Proof. vm_compute. reflexivity. Qed.

(** Equal scores: A and C, then B and D. *)
Example batch_ABCD_ranked :
  find_top_similar (Some [1; 0]) batch_ABCD 3
  = Return [ {| index := 0; info := patent "A"; similarity_score := 1 |};
             {| index := 2; info := patent "C"; similarity_score := 1 |};
             {| index := 1; info := patent "B"; similarity_score := 0 |} ].
Proof. vm_compute. reflexivity. Qed.

(** The two scoring functions on a zero vector: the scalar one returns
    its [0.0], the batch one, which has no such test, divides by the zero
    norm and returns NaN. *)
Example zero_norm_scalar_and_batch :
  cosine_similarity [1; 0] [0; 0] = Return 0 /\
  batch_cosine_similarity (Some [1; 0]) [[0; 0]] = Return [nan].
Proof. split; vm_compute; reflexivity. Qed.

(** ** C1: a degenerate query *)

(** C1 as stated fails: nothing checks the query.  A query of zero norm
    against a batch of two candidates is scored and ranked like any
    other; the call raises nothing and returns a frame of two rows. *)
Lemma find_top_similar_zero_query_counterexample :
  (np_linalg_norm [0; 0] =? 0) = true /\
  exists out,
    find_top_similar (Some [0; 0]) batch_AZ 2 = Return out /\
    length out = 2%nat.
Proof.
  split; [vm_compute; reflexivity|].
  eexists. split; vm_compute; reflexivity.
Qed.

(** C1, amended.  The method has no check of the query and no
    [InvalidQueryVector] error.  On the empty batch it returns the empty
    frame for every query, a missing one included.  On a batch that is
    not empty and whose vectors all have one length, a missing query
    raises [TypeError].  A query vector of the length of the candidates'
    vectors, whatever its norm, is scored against every candidate and the
    call returns [min(k, n)] rows ([0] for [k <= 0]). *)
Theorem find_top_similar_unchecked_query {quicksort : Quicksort binary64}
    (target_embedding : option (vector float))
    (candidates_df : list (candidate float)) (top_k : Z) :
  (candidates_df = [] ->
   find_top_similar target_embedding candidates_df top_k = Return []) /\
  (candidates_df <> [] -> target_embedding = None ->
   (exists d, Forall (fun c => length (embedding_v1 c) = d) candidates_df) ->
   find_top_similar target_embedding candidates_df top_k = Raise TypeError) /\
  (forall q, target_embedding = Some q ->
   Forall (fun c => length (embedding_v1 c) = length q) candidates_df ->
   exists out,
     find_top_similar target_embedding candidates_df top_k = Return out /\
     length out = Z.to_nat (Z.min top_k (Z.of_nat (length candidates_df)))).
Proof.
  split; [|split].
  - now intros ->.
  - intros Hne -> [d Hd]. unfold find_top_similar.
    destruct candidates_df as [|c df]; [contradiction|].
    change (length (c :: df) =? 0)%nat with false. cbv iota.
    rewrite np_array_aligned with (d := d); [reflexivity|].
    now apply Forall_map.
  - intros q -> Hall. eexists.
    split; [now apply find_top_similar_aligned|].
    apply top_rows_length. now rewrite !length_map.
Qed.

(** ** C2: a zero norm *)

(** The scalar function does what C2 says, on every pair of vectors of
    one length: when the norm of either is zero it returns [0.0];
    otherwise it returns the dot product divided by the product of the
    two norms, and this divisor is not zero. *)
Lemma cosine_similarity_guarded (vec1 vec2 : vector float) :
  length vec1 = length vec2 ->
  ((np_linalg_norm vec1 =? 0) = true \/ (np_linalg_norm vec2 =? 0) = true ->
   cosine_similarity vec1 vec2 = Return 0) /\
  ((np_linalg_norm vec1 =? 0) = false -> (np_linalg_norm vec2 =? 0) = false ->
   cosine_similarity vec1 vec2
   = Return (sum_products vec1 vec2
             / (np_linalg_norm vec1 * np_linalg_norm vec2)) /\
   (np_linalg_norm vec1 * np_linalg_norm vec2 =? 0) = false).
Proof.
  unfold cosine_similarity, np_dot.
  intros Hlen. rewrite Hlen, Nat.eqb_refl. cbn [obind].
  cbn [feqb fzero fdiv fmul binary64].
  split.
  - intros [H1|H2].
    + now rewrite H1.
    + rewrite H2. now rewrite orb_true_r.
  - intros H1 H2. rewrite H1, H2. split; [reflexivity|].
    now apply float_sqrt_product_not_zero.
Qed.

(** C2.  The scalar function keeps the contract on every pair of vectors
    of one length: [0.0] when either norm is zero, and otherwise a
    division whose divisor is not zero.  The batch function, the one the
    ranking calls, does not: it has no test of the norms, and for the
    query [1, 0] and the candidate [0, 0], where the scalar function
    returns [0.0], it divides the candidate by its zero norm and returns
    NaN. *)
Theorem batch_cosine_similarity_zero_norm :
  (forall vec1 vec2 : vector float,
     length vec1 = length vec2 ->
     ((np_linalg_norm vec1 =? 0) = true \/ (np_linalg_norm vec2 =? 0) = true ->
      cosine_similarity vec1 vec2 = Return 0) /\
     ((np_linalg_norm vec1 =? 0) = false -> (np_linalg_norm vec2 =? 0) = false ->
      cosine_similarity vec1 vec2
      = Return (sum_products vec1 vec2
                / (np_linalg_norm vec1 * np_linalg_norm vec2)) /\
      (np_linalg_norm vec1 * np_linalg_norm vec2 =? 0) = false)) /\
  (length [1; 0] = length [0; 0] /\
   (np_linalg_norm [0; 0] =? 0) = true /\
   cosine_similarity [1; 0] [0; 0] = Return 0 /\
   batch_cosine_similarity (Some [1; 0]) [[0; 0]] = Return [nan]).
Proof.
  split; [exact cosine_similarity_guarded|].
  repeat split; vm_compute; reflexivity.
Qed.

(** The two branches of the scalar function, on [3, 4] against [4, 3]
    (norms 5 and 5, score 24/25) and on [1, 0] against [0, 0]. *)
Lemma batch_cosine_similarity_zero_norm_witness :
  (cosine_similarity [3; 4] [4; 3] = Return 0x1.eb851eb851eb8p-1 /\
   (np_linalg_norm [3; 4] * np_linalg_norm [4; 3] =? 0) = false) /\
  cosine_similarity [1; 0] [0; 0] = Return 0.
Proof.
  split.
  - apply (proj2 (proj1 batch_cosine_similarity_zero_norm [3; 4] [4; 3] eq_refl));
      vm_compute; reflexivity.
  - apply (proj1 (proj1 batch_cosine_similarity_zero_norm [1; 0] [0; 0] eq_refl)).
    right. vm_compute. reflexivity.
Defined.

(** ** C3: ties keep the order of the batch *)

(** C3 as stated fails: when [top_k] is at least the number of
    candidates the frame is sorted by [sort_values], whose sort need not
    keep rows with equal scores in their order.  With the sort that
    reverses them, R and S, which have one vector and one score, come out
    as S, R, and P and Q as Q, P. *)
Lemma find_top_similar_stable_counterexample :
  nth_error (map embedding_v1 batch_PQRS) 2 = Some [1; 0] /\
  nth_error (map embedding_v1 batch_PQRS) 3 = Some [1; 0] /\
  find_top_similar (quicksort := ties_reversed) (Some [1; 0]) batch_PQRS 4
  = Return [ {| index := 3; info := patent "S"; similarity_score := 1 |};
             {| index := 2; info := patent "R"; similarity_score := 1 |};
             {| index := 1; info := patent "Q"; similarity_score := 0 |};
             {| index := 0; info := patent "P"; similarity_score := 0 |} ].
Proof. repeat split; vm_compute; reflexivity. Qed.

(** With [top_k] below the number of candidates: R, S, then P. *)
Example batch_PQRS_ranked {quicksort : Quicksort binary64} :
  find_top_similar (Some [1; 0]) batch_PQRS 3
  = Return [ {| index := 2; info := patent "R"; similarity_score := 1 |};
             {| index := 3; info := patent "S"; similarity_score := 1 |};
             {| index := 0; info := patent "P"; similarity_score := 0 |} ].
Proof. vm_compute. reflexivity. Qed.

(** C3, amended.  When [top_k] is below the number of candidates, two
    rows of the returned frame are candidates of the batch, at the
    positions their index labels name, and when the two have equal
    scores, or one and the same score, the row that stands first in the
    output stood first in the batch.  (Two candidates with one vector
    are such a pair whenever the batch function gives them one score, as
    it does to R and S below.) *)
Theorem find_top_similar_stable {quicksort : Quicksort binary64}
    (target_embedding : option (vector float))
    (candidates_df : list (candidate float)) (top_k : Z)
    (out : list (ranked float)) (i j : nat) (ri rj : ranked float) :
  (top_k < Z.of_nat (length candidates_df))%Z ->
  find_top_similar target_embedding candidates_df top_k = Return out ->
  (i < j)%nat -> nth_error out i = Some ri -> nth_error out j = Some rj ->
  exists ci cj,
    nth_error candidates_df (index ri) = Some ci /\ info ri = meta ci /\
    nth_error candidates_df (index rj) = Some cj /\ info rj = meta cj /\
    ((similarity_score ri =? similarity_score rj) = true ->
     (index ri < index rj)%nat) /\
    (similarity_score ri = similarity_score rj -> (index ri < index rj)%nat).
Proof.
  intros Hk Hout Hij Hi Hj.
  apply find_top_similar_returns in Hout. destruct Hout as [Hlen ->].
  pose proof (StronglySorted_nth _ _ _ _ _ _ (top_rows_sorted _ _ _ Hlen Hk) Hij Hi Hj)
    as [_ [Htie Hsame]].
  apply nth_error_In in Hi, Hj.
  apply top_rows_In in Hi, Hj; try exact Hlen.
  destruct Hi as [ci [Hci [Hmi Hsi]]]. destruct Hj as [cj [Hcj [Hmj Hsj]]].
  exists ci, cj. do 4 (split; [assumption|]). split; [exact Htie | exact Hsame].
Qed.

Lemma find_top_similar_stable_witness :
  nth_error (map embedding_v1 batch_PQRS) 2 = Some [1; 0] /\
  nth_error (map embedding_v1 batch_PQRS) 3 = Some [1; 0] /\
  (3 < Z.of_nat (length batch_PQRS))%Z /\
  find_top_similar (Some [1; 0]) batch_PQRS 3
  = Return [ {| index := 2; info := patent "R"; similarity_score := 1 |};
             {| index := 3; info := patent "S"; similarity_score := 1 |};
             {| index := 0; info := patent "P"; similarity_score := 0 |} ] /\
  exists ci cj,
    nth_error batch_PQRS 2 = Some ci /\ patent "R" = meta ci /\
    nth_error batch_PQRS 3 = Some cj /\ patent "S" = meta cj /\
    ((1 =? 1) = true -> (2 < 3)%nat) /\
    (1 = 1 -> (2 < 3)%nat).
Proof.
  assert (Hk : (3 < Z.of_nat (length batch_PQRS))%Z) by (simpl; lia).
  do 2 (split; [reflexivity|]).
  split; [exact Hk|]. split; [exact batch_PQRS_ranked|].
  apply (find_top_similar_stable (Some [1; 0]) batch_PQRS 3 _ 0 1
           {| index := 2; info := patent "R"; similarity_score := 1 |}
           {| index := 3; info := patent "S"; similarity_score := 1 |}
           Hk batch_PQRS_ranked); [lia | reflexivity | reflexivity].
Defined.

(** ** C4: the number of returned rows *)

(** C4 as stated fails: nothing drops the candidates the specification
    calls invalid.  Of the two candidates of the batch only A is valid,
    and with [k = 2] the output has two rows, not [min(2, 1)]. *)
Lemma find_top_similar_length_counterexample :
  exists out,
    find_top_similar (Some [1; 0]) batch_AZ 2 = Return out /\
    number_of_valid_candidates [1; 0] batch_AZ = 1%nat /\
    length out <> Nat.min 2 (number_of_valid_candidates [1; 0] batch_AZ).
Proof.
  eexists. split; [apply batch_AZ_ranked|].
  split; [vm_compute; reflexivity | vm_compute; discriminate].
Qed.

(** C4, amended.  When every candidate's vector has the length of the
    query vector, zero vectors included, the method returns a frame of
    [min(k, n)] rows for [k >= 0], [n] being the number of candidates in
    the batch, and the empty frame when [k <= 0] or the batch is empty;
    it does not raise. *)
Theorem find_top_similar_length {quicksort : Quicksort binary64}
    (q : vector float) (candidates_df : list (candidate float)) (top_k : Z) :
  Forall (fun c => length (embedding_v1 c) = length q) candidates_df ->
  exists out,
    find_top_similar (Some q) candidates_df top_k = Return out /\
    (0 <= top_k ->
     Z.of_nat (length out) = Z.min top_k (Z.of_nat (length candidates_df)))%Z /\
    ((top_k <= 0)%Z -> out = []) /\
    (candidates_df = [] -> out = []).
Proof.
  intros Hall. eexists. split; [now apply find_top_similar_aligned|].
  assert (Hn : length (top_rows candidates_df
                 (map (batch_entry q) (map embedding_v1 candidates_df)) top_k)
               = Z.to_nat (Z.min top_k (Z.of_nat (length candidates_df))))
    by (apply top_rows_length; now rewrite !length_map).
  split; [|split].
  - intros Hk. rewrite Hn. lia.
  - intros Hk. apply length_zero_iff_nil. rewrite Hn. lia.
  - intros ->. apply top_rows_nil.
Qed.

Lemma find_top_similar_length_witness :
  Forall (fun c => length (embedding_v1 c) = 3%nat) batch_ABC /\
  exists out,
    find_top_similar (Some [1; 0; 0]) batch_ABC 2 = Return out /\
    (0 <= 2 -> Z.of_nat (length out) = Z.min 2 (Z.of_nat (length batch_ABC)))%Z /\
    ((2 <= 0)%Z -> out = []) /\
    (batch_ABC = [] -> out = []).
Proof.
  assert (Hall : Forall (fun c : candidate float =>
                           length (embedding_v1 c) = length [1; 0; 0]) batch_ABC)
    by (repeat constructor).
  split; [exact Hall|].
  exact (find_top_similar_length [1; 0; 0] batch_ABC 2 Hall).
Defined.

(** ** C5: descending scores *)

(** The scores that are numbers stand in non-increasing order, by either
    method of [nlargest]: a later row whose score is not NaN has a score
    less than or equal to that of every earlier row. *)
Lemma find_top_similar_numbers_descend {quicksort : Quicksort binary64}
    (target_embedding : option (vector float))
    (candidates_df : list (candidate float)) (top_k : Z)
    (out : list (ranked float)) (i j : nat) (ri rj : ranked float) :
  find_top_similar target_embedding candidates_df top_k = Return out ->
  (i < j)%nat -> nth_error out i = Some ri -> nth_error out j = Some rj ->
  isnan (similarity_score rj) = false ->
  (similarity_score rj <=? similarity_score ri) = true.
Proof.
  intros Hout Hij Hi Hj Hnan.
  apply find_top_similar_returns in Hout. destruct Hout as [_ ->].
  destruct (StronglySorted_nth _ _ _ _ _ _ (top_rows_descends _ _ _) Hij Hi Hj)
    as [Hle|Hn]; [exact Hle|].
  cbn [isnan binary64] in Hnan, Hn. congruence.
Qed.

(** C5.  Among the rows whose score is a number the order is the claimed
    one: a later row's score is less than or equal to an earlier row's,
    whatever sort the slow method uses.  The claim fails where the batch
    function returns NaN for a candidate of zero norm: for the query
    [1, 0] against the batch of A = [1, 0] and Z = [0, 0] with
    [top_k = 2], the returned frame has A with [1.0] before Z with NaN,
    and [1.0 >= NaN] is false.  The scalar function scores Z [0.0]. *)
Theorem find_top_similar_descending_failing_input :
  (forall (quicksort : Quicksort binary64)
          (target_embedding : option (vector float))
          (candidates_df : list (candidate float)) (top_k : Z)
          (out : list (ranked float)) (i j : nat) (ri rj : ranked float),
     find_top_similar target_embedding candidates_df top_k = Return out ->
     (i < j)%nat -> nth_error out i = Some ri -> nth_error out j = Some rj ->
     isnan (similarity_score rj) = false ->
     (similarity_score rj <=? similarity_score ri) = true) /\
  (cosine_similarity [1; 0] [0; 0] = Return 0 /\
   (forall quicksort : Quicksort binary64,
      find_top_similar (Some [1; 0]) batch_AZ 2
      = Return [ {| index := 0; info := patent "A"; similarity_score := 1 |};
                 {| index := 1; info := patent "Z"; similarity_score := nan |} ]) /\
   (nan <=? 1) = false).
Proof.
  split; [exact (@find_top_similar_numbers_descend)|].
  split; [vm_compute; reflexivity|]. split; [|vm_compute; reflexivity].
  intros quicksort.
  assert (Hone : argsort_descending [1] = [0%nat]).
  { pose proof (argsort_descending_perm [1]) as Hp.
    now apply Permutation_sym, Permutation_length_1_inv in Hp. }
  cbv -[argsort_descending].
  match goal with
  | |- context [@argsort_descending ?A ?a ?q ?c] =>
      change (@argsort_descending A a q c) with (argsort_descending [1])
  end.
  rewrite Hone. reflexivity.
Qed.

(** The order of the numbers, on the scenario of the specification. *)
Lemma find_top_similar_descending_failing_input_witness :
  find_top_similar (Some [1; 0; 0]) batch_ABC 2
  = Return [ {| index := 0; info := patent "A"; similarity_score := 1 |};
             {| index := 2; info := patent "C";
                similarity_score := 0x1.6a09e667f3bcdp-1 |} ] /\
  (0x1.6a09e667f3bcdp-1 <=? 1) = true.
Proof.
  split; [exact batch_ABC_ranked|].
  apply (proj1 find_top_similar_descending_failing_input _ (Some [1; 0; 0]) batch_ABC
           2%Z _ 0%nat 1%nat
           {| index := 0; info := patent "A"; similarity_score := 1 |}
           {| index := 2; info := patent "C";
              similarity_score := 0x1.6a09e667f3bcdp-1 |}
           batch_ABC_ranked); [lia | reflexivity | reflexivity | reflexivity].
Defined.

(** ** C6: what a returned row carries *)

(** C6 as stated fails: the rows carry no rank.  The number a row carries
    is its index label, and in the scenario of the specification the
    first row of the output carries 0, not 1. *)
Lemma find_top_similar_rank_counterexample :
  exists out r,
    find_top_similar (Some [1; 0; 0]) batch_ABC 2 = Return out /\
    nth_error out 0 = Some r /\ index r <> 1%nat.
Proof.
  do 2 eexists. split; [apply batch_ABC_ranked|].
  split; [reflexivity|]. simpl. discriminate.
Qed.

(** C6, amended.  Every row of the returned frame carries the index
    label of its candidate, which is the candidate's position in the
    batch, counted from 0, and comes with that candidate's metadata; no
    two rows carry the same label, tied scores or not.  The rank of a
    row is its position in the frame and is stored nowhere. *)
Theorem find_top_similar_index {quicksort : Quicksort binary64}
    (target_embedding : option (vector float))
    (candidates_df : list (candidate float)) (top_k : Z)
    (out : list (ranked float)) :
  find_top_similar target_embedding candidates_df top_k = Return out ->
  NoDup (map index out) /\
  forall r, In r out ->
    exists c, nth_error candidates_df (index r) = Some c /\ info r = meta c.
Proof.
  intros Hout.
  apply find_top_similar_returns in Hout. destruct Hout as [Hlen ->].
  split; [apply top_rows_index_NoDup|].
  intros r Hr. apply top_rows_In in Hr; [|exact Hlen].
  destruct Hr as [c [Hc [Hm _]]]. now exists c.
Qed.

Lemma find_top_similar_index_witness :
  let out := [ {| index := 0; info := patent "A"; similarity_score := 1 |};
               {| index := 2; info := patent "C"; similarity_score := 1 |};
               {| index := 1; info := patent "B"; similarity_score := 0 |} ] in
  find_top_similar (Some [1; 0]) batch_ABCD 3 = Return out /\
  NoDup (map index out) /\
  forall r, In r out ->
    exists c, nth_error batch_ABCD (index r) = Some c /\ info r = meta c.
Proof.
  intros out. split; [exact batch_ABCD_ranked|].
  exact (find_top_similar_index (Some [1; 0]) batch_ABCD 3 out batch_ABCD_ranked).
Defined.

(** ** C7: a candidate of another dimension *)

(** C7 as stated fails: in the scenario of the specification, with
    candidate E of length 2 in a batch of dimension 3, the call raises and
    ranks nothing. *)
Lemma find_top_similar_mismatch_counterexample :
  find_top_similar (Some [1; 0; 0]) batch_AEC 2 = Raise ValueError.
Proof. vm_compute. reflexivity. Qed.

(** C7, amended.  A candidate whose vector length differs from the
    length of the query vector, or from the length of the first
    candidate's vector, is not set aside: the whole call raises
    [ValueError], whatever [k], and no candidate is ranked. *)
Theorem find_top_similar_mismatch {quicksort : Quicksort binary64}
    (q : vector float) (candidates_df : list (candidate float)) (top_k : Z)
    (c : candidate float) :
  In c candidates_df ->
  (length (embedding_v1 c) <> length q
   \/ exists first, hd_error candidates_df = Some first /\
                    length (embedding_v1 c) <> length (embedding_v1 first)) ->
  find_top_similar (Some q) candidates_df top_k = Raise ValueError.
Proof.
  intros Hc Hmis. unfold find_top_similar.
  destruct candidates_df as [|first rest]; [contradiction|].
  change (length (first :: rest) =? 0)%nat with false. cbv iota.
  destruct (np_array _) as [m|e] eqn:Hm;
    [|apply np_array_raises in Hm; now subst e].
  apply np_array_returns in Hm. subst m. cbn [obind].
  rewrite batch_cosine_similarity_misaligned; [reflexivity|].
  apply Exists_exists.
  destruct Hmis as [Hq | [f [[= <-] Hf]]].
  - exists (embedding_v1 c). split; [now apply in_map | exact Hq].
  - destruct (Nat.eq_dec (length (embedding_v1 first)) (length q)) as [He|Hne].
    + exists (embedding_v1 c). split; [now apply in_map | congruence].
    + exists (embedding_v1 first). split; [now left | exact Hne].
Qed.

Lemma find_top_similar_mismatch_witness :
  In (row "E" [1; 2]) batch_AEC /\
  (length (embedding_v1 (row "E" [1; 2])) <> 3%nat
   \/ exists first, hd_error batch_AEC = Some first /\
        length (embedding_v1 (row "E" [1; 2])) <> length (embedding_v1 first)) /\
  find_top_similar (Some [1; 0; 0]) batch_AEC 2 = Raise ValueError.
Proof.
  assert (Hin : In (row "E" [1; 2]) batch_AEC) by (right; left; reflexivity).
  assert (Hmis : length (embedding_v1 (row "E" [1; 2])) <> length [1; 0; 0]
                 \/ exists first, hd_error batch_AEC = Some first /\
                      length (embedding_v1 (row "E" [1; 2]))
                      <> length (embedding_v1 first))
    by (left; simpl; lia).
  split; [exact Hin|]. split; [exact Hmis|].
  exact (find_top_similar_mismatch [1; 0; 0] batch_AEC 2 (row "E" [1; 2]) Hin Hmis).
Defined.

(** ** C8: the batch scores and the scalar score *)

(** C8 as stated fails in binary64: for the query [3, 0] and the
    candidate [1, 4], both of norm other than zero, the scalar function
    returns 0.242535625036333 and the batch function
    0.24253562503633297, one unit in the last place below.  (The
    products and the sums of the two computations are exact, so neither
    the order of summation nor a fused multiply-add changes them; the
    difference is in the roundings of the square root and of the
    divisions.) *)
Lemma batch_cosine_similarity_counterexample :
  (np_linalg_norm [3; 0] =? 0) = false /\
  (np_linalg_norm [1; 4] =? 0) = false /\
  cosine_similarity [3; 0] [1; 4] = Return 0x1.f0b6848d2af1dp-3 /\
  batch_cosine_similarity (Some [3; 0]) [[1; 4]] = Return [0x1.f0b6848d2af1cp-3] /\
  (0x1.f0b6848d2af1dp-3 =? 0x1.f0b6848d2af1cp-3) = false.
Proof. repeat split; vm_compute; reflexivity. Qed.

(** C8, amended.  In exact arithmetic, for a query and a batch of
    candidates of the query's length, the entry of the batch function for
    a candidate is the value of the scalar function on the query and that
    candidate, provided both have a norm other than zero.  In binary64
    the two need not be equal: there are a query and a candidate of one
    length, both of norm other than zero, on which they differ. *)
Theorem batch_cosine_similarity_exact :
  (forall (q : vector R) (m : matrix R) (i : nat) (c : vector R),
     Forall (fun r => length r = length q) m ->
     nth_error m i = Some c ->
     np_linalg_norm q <> 0%R -> np_linalg_norm c <> 0%R ->
     exists s sims,
       cosine_similarity q c = Return s /\
       batch_cosine_similarity (Some q) m = Return sims /\
       nth_error sims i = Some s) /\
  (exists (q c : vector float) (s b : float),
     length q = length c /\
     (np_linalg_norm q =? 0) = false /\ (np_linalg_norm c =? 0) = false /\
     cosine_similarity q c = Return s /\
     batch_cosine_similarity (Some q) [c] = Return [b] /\
     (s =? b) = false).
Proof.
  split.
  - intros q m i c Hm Hi Hq Hc.
    exists (batch_entry q c), (map (batch_entry q) m). split; [|split].
    + unfold cosine_similarity, np_dot.
      rewrite Forall_forall in Hm.
      rewrite <- (Hm c (nth_error_In _ _ Hi)), Nat.eqb_refl. cbn [obind].
      cbn [feqb exact].
      destruct (Req_dec_T (np_linalg_norm q) fzero) as [E|_]; [contradiction|].
      destruct (Req_dec_T (np_linalg_norm c) fzero) as [E|_]; [contradiction|].
      simpl orb. cbv iota. now rewrite batch_entry_exact.
    + now apply batch_cosine_similarity_aligned.
    + now rewrite nth_error_map, Hi.
  - exists [3; 0], [1; 4], 0x1.f0b6848d2af1dp-3, 0x1.f0b6848d2af1cp-3.
    repeat split; vm_compute; reflexivity.
Qed.

Lemma batch_cosine_similarity_exact_witness :
  let q := [3; 0]%R in
  let c := [1; 4]%R in
  Forall (fun r : vector R => length r = length q) [c] /\
  nth_error [c] 0 = Some c /\
  np_linalg_norm q <> 0%R /\ np_linalg_norm c <> 0%R /\
  exists s sims,
    cosine_similarity q c = Return s /\
    batch_cosine_similarity (Some q) [c] = Return sims /\
    nth_error sims 0 = Some s.
Proof.
  intros q c.
  assert (Hm : Forall (fun r : vector R => length r = length q) [c])
    by (repeat constructor).
  assert (Hi : nth_error [c] 0 = Some c) by reflexivity.
  assert (Hq : np_linalg_norm q <> 0%R).
  { unfold np_linalg_norm, sum_products. simpl. intros E.
    apply sqrt_eq_0 in E; lra. }
  assert (Hc : np_linalg_norm c <> 0%R).
  { unfold np_linalg_norm, sum_products. simpl. intros E.
    apply sqrt_eq_0 in E; lra. }
  repeat (split; [assumption|]).
  exact (proj1 batch_cosine_similarity_exact q [c] 0%nat c Hm Hi Hq Hc).
Defined.

(** ** C9: two calls *)

(** C9.  Two calls of the method, one after the other, with the same
    query, the same frame object and the same [k], return the same value,
    the order of the rows included, whatever the first call and any
    earlier one logged or left in the store; the first call leaves the
    frame it was given as it found it. *)
Theorem find_top_similar_deterministic {quicksort : Quicksort binary64}
    (target_embedding : option (vector float)) (candidates_df : address)
    (top_k : Z) (w : world float) (f : frame float)
    (r1 r2 : outcome (list (ranked float))) (w1 w2 : world float) :
  nth_error (heap w) candidates_df = Some f ->
  find_top_similar_call target_embedding candidates_df top_k w = (r1, w1) ->
  find_top_similar_call target_embedding candidates_df top_k w1 = (r2, w2) ->
  r1 = r2 /\ nth_error (heap w1) candidates_df = Some f.
Proof.
  intros Hf H1 H2.
  destruct (find_top_similar_call_run target_embedding candidates_df top_k w f Hf)
    as [w1' [E1 Hkeep1]].
  rewrite E1 in H1. injection H1 as <- <-.
  specialize (Hkeep1 _ _ Hf).
  destruct (find_top_similar_call_run target_embedding candidates_df top_k w1' f Hkeep1)
    as [w2' [E2 _]].
  rewrite E2 in H2. injection H2 as <- <-.
  split; [reflexivity | exact Hkeep1].
Qed.

Lemma find_top_similar_deterministic_witness :
  let f := {| rows := batch_ABCD; similarity_score_column := None |} in
  let w := fresh_world batch_ABCD in
  let first := find_top_similar_call (Some [1; 0]) 0%nat 3 w in
  let second := find_top_similar_call (Some [1; 0]) 0%nat 3 (snd first) in
  nth_error (heap w) 0 = Some f /\
  fst first = fst second /\ nth_error (heap (snd first)) 0 = Some f.
Proof.
  intros f w first second.
  assert (Hf : nth_error (heap w) 0 = Some f) by reflexivity.
  split; [exact Hf|].
  exact (find_top_similar_deterministic (Some [1; 0]) 0%nat 3 w f
           (fst first) (fst second) (snd first) (snd second) Hf
           (surjective_pairing first) (surjective_pairing second)).
Defined.

(** ** C10: the scalar score is symmetric *)

(** C10.  For all vectors [a] and [b] of one length,
    [cosine_similarity a b] and [cosine_similarity b a] are the same
    binary64 value, on the branch that returns [0.0] for a zero norm as on
    the branch that divides. *)
Theorem cosine_similarity_symmetric (a b : vector float) :
  length a = length b ->
  cosine_similarity a b = cosine_similarity b a.
Proof. intros _. apply cosine_similarity_comm. exact float_mul_comm. Qed.

Lemma cosine_similarity_symmetric_witness :
  length [1; 2; 3] = length [0; 0; 0] /\
  cosine_similarity [1; 2; 3] [0; 0; 0] = cosine_similarity [0; 0; 0] [1; 2; 3].
Proof.
  split; [reflexivity|].
  apply (cosine_similarity_symmetric [1; 2; 3] [0; 0; 0]). reflexivity.
Defined.

(** * Further properties of the ranking *)

(** ** What the selection leaves out *)

Section Selection.
Context {A : Type} {arith : Arith A} {order : ArithOrder arith}
        {quicksort : Quicksort arith}.

Lemma StronglySorted_firstn_skipn {T} (R : T -> T -> Prop) (n : nat) (l : list T) (a b : T) :
  StronglySorted R l -> In a (firstn n l) -> In b (skipn n l) -> R a b.
Proof.
  intros S. revert n. induction S as [|x l S IH Hx]; intros [|n]; simpl;
    try contradiction.
  intros [<-|Ha] Hb.
  - rewrite Forall_forall in Hx. apply Hx.
    rewrite <- (firstn_skipn n l). apply in_or_app. now right.
  - now apply (IH n).
Qed.

(** A row [nlargest] keeps may stand before every row it leaves out. *)
Lemma nlargest_dominates (n : Z) (df : list (scored A)) (a b : scored A) :
  StronglySorted label_lt df ->
  In a (nlargest n df) -> In b df -> ~ In b (nlargest n df) ->
  ranks_before a b.
Proof.
  intros S Ha Hb Hout. unfold nlargest in Ha, Hout.
  destruct (n <=? 0)%Z eqn:Hn; [contradiction|]. apply Z.leb_gt in Hn.
  destruct (Z.of_nat (length df) <=? n)%Z eqn:Hlen.
  - exfalso. apply Hout. apply Z.leb_le in Hlen.
    rewrite firstn_all2
      by (rewrite (Permutation_length (sort_values_descending_perm df)); lia).
    exact (Permutation_in _ (Permutation_sym (sort_values_descending_perm df)) Hb).
  - apply (StronglySorted_firstn_skipn _ (Z.to_nat n) _ a b (nlargest_order_sorted df S) Ha).
    apply (Permutation_in _ (Permutation_sym (nlargest_order_perm df))) in Hb.
    rewrite <- (firstn_skipn (Z.to_nat n)) in Hb.
    apply in_app_or in Hb. destruct Hb as [Hb|Hb]; [contradiction | exact Hb].
Qed.

Lemma combine_seq_nth {T} (ps : list T) (s0 n l : nat) (p : T) :
  nth_error ps l = Some p -> (l < n)%nat ->
  In ((s0 + l)%nat, p) (combine (seq s0 n) ps).
Proof.
  revert s0 n l. induction ps as [|p0 ps IH]; intros s0 [|n] [|l]; simpl;
    try discriminate; try lia.
  - intros [= ->] _. left. f_equal. lia.
  - intros Hn Hl. right.
    replace (s0 + S l)%nat with (S s0 + l)%nat by lia.
    apply IH; [exact Hn | lia].
Qed.

Lemma scored_rows_nth
    (df : list (candidate A)) (column : list A) (l : nat) (c : candidate A) (s : A) :
  nth_error df l = Some c -> nth_error column l = Some s ->
  In {| label := l; cand := c; similarity := s |} (scored_rows df column).
Proof.
  intros Hc Hs. unfold scored_rows.
  apply in_map_iff. exists (l, (c, s)). split; [reflexivity|].
  assert (Hn : nth_error (combine df column) l = Some (c, s)).
  { clear - Hc Hs. revert l column Hc Hs.
    induction df as [|c0 df IH]; intros [|l] [|s0 column];
      simpl; try discriminate.
    - now intros [= ->] [= ->].
    - apply IH. }
  assert (Hl : (l < length df)%nat) by (apply nth_error_Some; congruence).
  exact (combine_seq_nth _ 0 _ l _ Hn Hl).
Qed.

End Selection.

Section SelectionFrames.
Context {A : Type} {arith : Arith A} {quicksort : Quicksort arith}.

(** The column of scores the method ranks is what the batch function
    returns for the embeddings of the frame. *)
Lemma find_top_similar_batch
    (target : option (vector A)) (df : list (candidate A)) (k : Z)
    (out : list (ranked A)) :
  find_top_similar target df k = Return out -> df <> [] ->
  batch_cosine_similarity target (map embedding_v1 df)
  = Return (similarities_of target df).
Proof.
  unfold find_top_similar. destruct df as [|c df]; [congruence|].
  change (length (c :: df) =? 0)%nat with false. cbv iota.
  destruct (np_array _) as [m|] eqn:Hm; [|discriminate].
  apply np_array_returns in Hm. subst m. cbn [obind].
  destruct (batch_cosine_similarity _ _) as [sims|] eqn:Hs; [|discriminate].
  apply batch_cosine_similarity_returns in Hs.
  destruct Hs as [q [-> ->]]. intros _ _.
  now rewrite similarities_of_some.
Qed.

(** Whether the method returns does not depend on [top_k]. *)
Lemma find_top_similar_any_k
    (target : option (vector A)) (df : list (candidate A)) (k k' : Z)
    (out : list (ranked A)) :
  find_top_similar target df k = Return out ->
  find_top_similar target df k' = Return (top_rows df (similarities_of target df) k').
Proof.
  unfold find_top_similar. destruct df as [|c df].
  - intros _. simpl. now rewrite top_rows_nil.
  - change (length (c :: df) =? 0)%nat with false. cbv iota.
    destruct (np_array _) as [m|] eqn:Hm; [|discriminate].
    apply np_array_returns in Hm. subst m. cbn [obind].
    destruct (batch_cosine_similarity _ _) as [sims|] eqn:Hs; [|discriminate].
    apply batch_cosine_similarity_returns in Hs.
    destruct Hs as [q [-> ->]]. cbn [obind].
    rewrite similarities_of_some.
    unfold setitem_similarity_score. rewrite !length_map, Nat.eqb_refl. cbn [obind].
    rewrite scored_rows_length by now rewrite !length_map.
    intros _. reflexivity.
Qed.

Lemma scored_rows_labels (df : list (candidate A)) (column : list A) :
  length column = length df ->
  map label (scored_rows df column) = seq 0 (length df).
Proof.
  intros Hc. unfold scored_rows. rewrite map_map. simpl.
  assert (Hl : length (combine df column) = length df)
    by (rewrite length_combine; lia).
  revert Hl. generalize (combine df column). generalize (length df).
  generalize 0%nat.
  intros s n. revert s. induction n as [|n IH]; intros s [|p ps]; simpl;
    try discriminate; try reflexivity.
  intros [= Hl]. f_equal. now apply IH.
Qed.

Lemma drop_embedding_index (l : list (scored A)) :
  map index (drop_embedding l) = map label l.
Proof. unfold drop_embedding. rewrite map_map. reflexivity. Qed.

(** The first [k] rows of a longer selection are the selection of [k]
    rows, when one method of [nlargest] makes both: the fast one, for
    [k'] below the number of rows, or the slow one, for [k] at least
    that number. *)
Lemma top_rows_firstn (df : list (candidate A)) (column : list A) (k k' : Z) :
  length column = length df -> (k <= k')%Z ->
  (k' < Z.of_nat (length df))%Z \/ (Z.of_nat (length df) <= k)%Z ->
  top_rows df column k = firstn (Z.to_nat k) (top_rows df column k').
Proof.
  intros Hc Hk Hpath. unfold top_rows, drop_embedding. rewrite firstn_map. f_equal.
  pose proof (scored_rows_length df column Hc) as Hn.
  unfold nlargest. rewrite Hn.
  destruct Hpath as [Hfast|Hslow].
  - replace (Z.min k (Z.of_nat (length df))) with k by lia.
    replace (Z.min k' (Z.of_nat (length df))) with k' by lia.
    replace (Z.of_nat (length df) <=? k)%Z with false by (symmetry; apply Z.leb_gt; lia).
    replace (Z.of_nat (length df) <=? k')%Z with false by (symmetry; apply Z.leb_gt; lia).
    destruct (k <=? 0)%Z eqn:H1.
    + apply Z.leb_le in H1. replace (Z.to_nat k) with 0%nat by lia. reflexivity.
    + apply Z.leb_gt in H1.
      replace (k' <=? 0)%Z with false by (symmetry; apply Z.leb_gt; lia).
      rewrite firstn_firstn. f_equal. lia.
  - replace (Z.min k (Z.of_nat (length df))) with (Z.of_nat (length df)) by lia.
    replace (Z.min k' (Z.of_nat (length df))) with (Z.of_nat (length df)) by lia.
    rewrite Z.leb_refl.
    destruct (Z.of_nat (length df) <=? 0)%Z; [now rewrite firstn_nil|].
    rewrite firstn_firstn. f_equal. lia.
Qed.

(** With room for every candidate, the selection is the whole frame in
    another order. *)
Lemma top_rows_all (df : list (candidate A)) (column : list A) (k : Z) :
  length column = length df -> (Z.of_nat (length df) <= k)%Z ->
  Permutation (top_rows df column k) (drop_embedding (scored_rows df column)).
Proof.
  intros Hc Hk. unfold top_rows, drop_embedding. apply Permutation_map.
  pose proof (scored_rows_length df column Hc) as Hn.
  destruct (nlargest_perm_cases (Z.min k (Z.of_nat (length df))) (scored_rows df column))
    as [[H1 ->]|[_ [rows_in_order [-> Hp]]]].
  - assert (scored_rows df column = []) as -> by (apply length_zero_iff_nil; lia).
    constructor.
  - rewrite firstn_all2; [exact Hp|].
    rewrite (Permutation_length Hp). lia.
Qed.

Lemma top_rows_dominates {order : ArithOrder arith}
    (df : list (candidate A)) (column : list A) (k : Z)
    (r : ranked A) (l : nat) (s : A) :
  length column = length df ->
  In r (top_rows df column k) ->
  nth_error column l = Some s ->
  ~ In l (map index (top_rows df column k)) ->
  (fleb s (similarity_score r) = true \/ isnan s = true) /\
  (feqb (similarity_score r) s = true -> (index r < l)%nat).
Proof.
  intros Hc Hr Hs Hout.
  assert (Hl : (l < length df)%nat)
    by (rewrite <- Hc; apply nth_error_Some; congruence).
  destruct (nth_error df l) as [c|] eqn:Hdf;
    [|apply nth_error_None in Hdf; lia].
  pose proof (scored_rows_nth df column l c s Hdf Hs) as Hx.
  unfold top_rows, drop_embedding in Hr, Hout.
  apply in_map_iff in Hr. destruct Hr as [y [<- Hy]]. simpl.
  rewrite map_map in Hout. simpl in Hout.
  assert (Hb : ranks_before y {| label := l; cand := c; similarity := s |}).
  { apply (nlargest_dominates _ _ _ _ (scored_rows_sorted df column) Hy Hx).
    intros Hin. apply Hout.
    apply in_map_iff. eexists. split; [|exact Hin]. reflexivity. }
  destruct Hb as [H1 [H2 _]]. simpl in H1, H2. split; assumption.
Qed.

End SelectionFrames.

(** ** binary64: [<=] against [<] and NaN *)

Section SpecOrderMore.





End SpecOrderMore.



(** ** The maximum of a column in ranking order *)

Section BestFirst.
Local Open Scope float_scope.




End BestFirst.

(** ** The range of the scalar score *)

Section ExactRange.
Local Open Scope R_scope.

Let dot (a b : vector R) : R := sum_products (arith := exact) a b.

Lemma sum_products_from (l : list (R * R)) (acc : R) :
  fold_left (fun acc p => acc + fst p * snd p) l acc
  = acc + fold_left (fun acc p => acc + fst p * snd p) l 0.
Proof.
  revert acc. induction l as [|p l IH]; intros acc; simpl; [ring|].
  rewrite IH, (IH (0 + _)). ring.
Qed.

Lemma dot_cons (x y : R) (a b : vector R) :
  dot (x :: a) (y :: b) = x * y + dot a b.
Proof.
  unfold dot, sum_products. simpl. change (fzero (A := R)) with 0.
  change (fadd (A := R)) with Rplus. change (fmul (A := R)) with Rmult.
  rewrite sum_products_from. ring.
Qed.

Lemma dot_self_nonneg (a : vector R) : 0 <= dot a a.
Proof.
  induction a as [|x a IH]; [unfold dot, sum_products; simpl; lra|].
  rewrite dot_cons. nra.
Qed.

Lemma square_le (u v : R) : 0 <= v -> u * u <= v * v -> u <= v.
Proof. intros Hv Hs. nra. Qed.

(** The inequality of Cauchy and Schwarz for the accumulated sums. *)
Lemma dot_square_le (a b : vector R) :
  length a = length b ->
  dot a b * dot a b <= dot a a * dot b b.
Proof.
  revert b. induction a as [|x a IH]; intros [|y b]; try discriminate.
  - intros _. unfold dot, sum_products. simpl. lra.
  - intros [= Hlen]. specialize (IH b Hlen).
    rewrite !dot_cons.
    pose proof (dot_self_nonneg a) as Ha. pose proof (dot_self_nonneg b) as Hb.
    set (D := dot a b) in *. set (P := dot a a) in *. set (Q := dot b b) in *.
    assert (Hm : 2 * (x * y * D) <= x * x * Q + y * y * P).
    { assert (Hxx : 0 <= x * x) by apply Rle_0_sqr.
      assert (Hyy : 0 <= y * y) by apply Rle_0_sqr.
      apply square_le.
      - apply Rplus_le_le_0_compat; apply Rmult_le_pos; assumption.
      - assert (H1 : 0 <= (x * x * Q - y * y * P) * (x * x * Q - y * y * P))
          by apply Rle_0_sqr.
        assert (H2 : 0 <= (x * y) * (x * y) * (P * Q - D * D)).
        { apply Rmult_le_pos; [apply Rle_0_sqr | lra]. }
        lra. }
    nra.
Qed.

Lemma exact_feqb_false (x y : R) : feqb (A := R) x y = false -> x <> y.
Proof. simpl. now destruct (Req_dec_T x y). Qed.

Lemma cosine_similarity_range (vec1 vec2 : vector R) (s : R) :
  cosine_similarity vec1 vec2 = Return s -> -1 <= s <= 1.
Proof.
  unfold cosine_similarity, np_dot.
  destruct (length vec1 =? length vec2)%nat eqn:Hlen; [|discriminate].
  apply Nat.eqb_eq in Hlen. cbn [obind].
  destruct (feqb (np_linalg_norm vec1) fzero) eqn:H1;
    [simpl; intros [= <-]; lra|].
  destruct (feqb (np_linalg_norm vec2) fzero) eqn:H2;
    [simpl; intros [= <-]; lra|].
  simpl orb. cbv iota. intros [= <-].
  apply exact_feqb_false in H1, H2.
  unfold np_linalg_norm in *.
  change (fzero (A := R)) with 0 in *.
  change (fsqrt (A := R)) with R_sqrt.sqrt in *.
  change (fdiv (A := R)) with Rdiv. change (fmul (A := R)) with Rmult.
  fold (dot vec1 vec1) in *. fold (dot vec2 vec2) in *. fold (dot vec1 vec2).
  pose proof (dot_self_nonneg vec1) as Ha. pose proof (dot_self_nonneg vec2) as Hb.
  pose proof (dot_square_le vec1 vec2 Hlen) as Hcs.
  pose proof (sqrt_pos (dot vec1 vec1)) as Hp1.
  pose proof (sqrt_pos (dot vec2 vec2)) as Hp2.
  pose proof (sqrt_sqrt _ Ha) as Hs1. pose proof (sqrt_sqrt _ Hb) as Hs2.
  set (D := dot vec1 vec2) in *.
  set (n1 := R_sqrt.sqrt (dot vec1 vec1)) in *.
  set (n2 := R_sqrt.sqrt (dot vec2 vec2)) in *.
  assert (Hpos : 0 < n1 * n2) by nra.
  assert (Hsq : D * D <= (n1 * n2) * (n1 * n2)) by nra.
  assert (Hup : D <= n1 * n2) by (apply square_le; lra).
  assert (Hlo : - D <= n1 * n2)
    by (apply square_le; [lra | nra]).
  split.
  - apply Rmult_le_reg_r with (r := n1 * n2); [exact Hpos|].
    unfold Rdiv. rewrite Rmult_assoc, Rinv_l by lra. lra.
  - apply Rmult_le_reg_r with (r := n1 * n2); [exact Hpos|].
    unfold Rdiv. rewrite Rmult_assoc, Rinv_l by lra. lra.
Qed.

End ExactRange.

(** ** The selection is the Top-K *)

(** X1.  Every row of the returned frame carries the score the batch
    function computed for the candidate at its index label, and no
    candidate that was left out would rank higher: the score of a
    candidate that is not returned is not greater than the score of any
    returned row, or it is NaN; and when it equals the score of a returned
    row, the candidate left out stood later in the batch. *)
Theorem find_top_similar_keeps_largest {quicksort : Quicksort binary64}
    (target_embedding : option (vector float))
    (candidates_df : list (candidate float)) (top_k : Z)
    (out : list (ranked float)) (r : ranked float) :
  find_top_similar target_embedding candidates_df top_k = Return out ->
  In r out ->
  exists similarities,
    batch_cosine_similarity target_embedding (map embedding_v1 candidates_df)
    = Return similarities /\
    nth_error similarities (index r) = Some (similarity_score r) /\
    forall l s,
      nth_error similarities l = Some s -> ~ In l (map index out) ->
      ((s <=? similarity_score r) = true \/ isnan s = true) /\
      ((similarity_score r =? s) = true -> (index r < l)%nat).
Proof.
  intros Hout Hr.
  assert (Hne : candidates_df <> []).
  { intros ->. simpl in Hout. injection Hout as <-. contradiction. }
  pose proof (find_top_similar_batch _ _ _ _ Hout Hne) as Hb.
  apply find_top_similar_returns in Hout. destruct Hout as [Hlen ->].
  exists (similarities_of target_embedding candidates_df).
  split; [exact Hb|]. split.
  - apply top_rows_In in Hr; [|exact Hlen].
    destruct Hr as [c [_ [_ Hs]]]. exact Hs.
  - intros l s Hs Hl.
    exact (top_rows_dominates _ _ _ r l s Hlen Hr Hs Hl).
Qed.

Lemma find_top_similar_keeps_largest_witness :
  let out := [ {| index := 0; info := patent "A"; similarity_score := 1 |};
               {| index := 2; info := patent "C";
                  similarity_score := 0x1.6a09e667f3bcdp-1 |} ] in
  let r := {| index := 2; info := patent "C";
              similarity_score := 0x1.6a09e667f3bcdp-1 |} in
  find_top_similar (Some [1; 0; 0]) batch_ABC 2 = Return out /\
  In r out /\
  exists similarities,
    batch_cosine_similarity (Some [1; 0; 0]) (map embedding_v1 batch_ABC)
    = Return similarities /\
    nth_error similarities (index r) = Some (similarity_score r) /\
    forall l s,
      nth_error similarities l = Some s -> ~ In l (map index out) ->
      ((s <=? similarity_score r) = true \/ isnan s = true) /\
      ((similarity_score r =? s) = true -> (index r < l)%nat).
Proof.
  intros out r.
  assert (Hr : In r out) by (right; left; reflexivity).
  split; [exact batch_ABC_ranked|]. split; [exact Hr|].
  exact (find_top_similar_keeps_largest (Some [1; 0; 0]) batch_ABC 2 out r
           batch_ABC_ranked Hr).
Defined.

(** X2.  A smaller [top_k] gives a prefix of the frame a larger one
    gives, as long as one method of [nlargest] makes both frames: when
    the method returns for [top_k'], and [top_k <= top_k'] with [top_k']
    below the number of candidates or [top_k] at least that number, it
    returns for [top_k] the first [top_k] rows of the frame for [top_k']
    (none for [top_k <= 0]). *)
Theorem find_top_similar_prefix {quicksort : Quicksort binary64}
    (target_embedding : option (vector float))
    (candidates_df : list (candidate float)) (top_k top_k' : Z)
    (out' : list (ranked float)) :
  (top_k <= top_k')%Z ->
  (top_k' < Z.of_nat (length candidates_df))%Z
  \/ (Z.of_nat (length candidates_df) <= top_k)%Z ->
  find_top_similar target_embedding candidates_df top_k' = Return out' ->
  find_top_similar target_embedding candidates_df top_k
  = Return (firstn (Z.to_nat top_k) out').
Proof.
  intros Hk Hpath Hout.
  rewrite (find_top_similar_any_k _ _ top_k' top_k _ Hout).
  apply find_top_similar_returns in Hout. destruct Hout as [Hlen ->].
  f_equal. now apply top_rows_firstn.
Qed.

Lemma find_top_similar_prefix_witness :
  (2 <= 3)%Z /\
  ((3 < Z.of_nat (length batch_ABCD))%Z \/ (Z.of_nat (length batch_ABCD) <= 2)%Z) /\
  find_top_similar (Some [1; 0]) batch_ABCD 2
  = Return (firstn (Z.to_nat 2)
              [ {| index := 0; info := patent "A"; similarity_score := 1 |};
                {| index := 2; info := patent "C"; similarity_score := 1 |};
                {| index := 1; info := patent "B"; similarity_score := 0 |} ]).
Proof.
  assert (Hk : (2 <= 3)%Z) by lia.
  assert (Hpath : (3 < Z.of_nat (length batch_ABCD))%Z
                  \/ (Z.of_nat (length batch_ABCD) <= 2)%Z) by (left; simpl; lia).
  split; [exact Hk|]. split; [exact Hpath|].
  exact (find_top_similar_prefix (Some [1; 0]) batch_ABCD 2 3 _ Hk Hpath batch_ABCD_ranked).
Defined.

(** Across the two methods the frames need not agree: with the sort that
    reverses ties, the frame for [top_k = 4] begins with S, R and the
    frame for [top_k = 2] is R, S. *)
Example find_top_similar_no_prefix :
  find_top_similar (quicksort := ties_reversed) (Some [1; 0]) batch_PQRS 2
  = Return [ {| index := 2; info := patent "R"; similarity_score := 1 |};
             {| index := 3; info := patent "S"; similarity_score := 1 |} ] /\
  find_top_similar (quicksort := ties_reversed) (Some [1; 0]) batch_PQRS 4
  = Return [ {| index := 3; info := patent "S"; similarity_score := 1 |};
             {| index := 2; info := patent "R"; similarity_score := 1 |};
             {| index := 1; info := patent "Q"; similarity_score := 0 |};
             {| index := 0; info := patent "P"; similarity_score := 0 |} ].
Proof. split; vm_compute; reflexivity. Qed.

(** X3.  When [top_k] is at least the number of candidates, every
    candidate is returned, once: the index labels of the returned frame
    are the positions [0 .. n-1] of the batch in some order. *)
Theorem find_top_similar_whole_batch {quicksort : Quicksort binary64}
    (target_embedding : option (vector float))
    (candidates_df : list (candidate float)) (top_k : Z)
    (out : list (ranked float)) :
  (Z.of_nat (length candidates_df) <= top_k)%Z ->
  find_top_similar target_embedding candidates_df top_k = Return out ->
  Permutation (map index out) (seq 0 (length candidates_df)).
Proof.
  intros Hk Hout.
  apply find_top_similar_returns in Hout. destruct Hout as [Hlen ->].
  rewrite (Permutation_map index (top_rows_all _ _ _ Hlen Hk)).
  rewrite drop_embedding_index.
  now rewrite (scored_rows_labels _ _ Hlen).
Qed.

Lemma find_top_similar_whole_batch_witness :
  (Z.of_nat (length batch_AZ) <= 2)%Z /\
  Permutation
    (map index [ {| index := 0; info := patent "A"; similarity_score := 1 |};
                 {| index := 1; info := patent "Z"; similarity_score := nan |} ])
    (seq 0 (length batch_AZ)).
Proof.
  assert (Hk : (Z.of_nat (length batch_AZ) <= 2)%Z) by (simpl; lia).
  split; [exact Hk|].
  exact (find_top_similar_whole_batch (Some [1; 0]) batch_AZ 2 _ Hk batch_AZ_ranked).
Defined.

(** ** The logged maximum *)



(** ** The range of the scalar score, in both arithmetics *)

(** X6.  In exact arithmetic every value [cosine_similarity] returns lies
    between [-1] and [1].  In binary64 it need not: the vector
    [1, 1, 1] against itself scores [1 + 2^-52]. *)
Theorem cosine_similarity_range_exact_and_binary64 :
  (forall (vec1 vec2 : vector R) (s : R),
     cosine_similarity vec1 vec2 = Return s -> (-1 <= s <= 1)%R) /\
  (exists (v : vector float) (s : float),
     cosine_similarity v v = Return s /\ (1 <? s) = true).
Proof.
  split; [exact cosine_similarity_range|].
  exists [1; 1; 1], 0x1.0000000000001p+0. split; vm_compute; reflexivity.
Qed.

(** ** The ranking and the metadata *)

Section Metadata.
Context {A : Type} {arith : Arith A} {quicksort : Quicksort arith}.

Let same_score (r r' : scored A) : Prop :=
  label r = label r' /\ similarity r = similarity r'.

Lemma insert_desc_same (r r' : scored A) (l l' : list (scored A)) :
  same_score r r' -> Forall2 same_score l l' ->
  Forall2 same_score (insert_desc r l) (insert_desc r' l').
Proof.
  intros Hr Hl. induction Hl as [|h h' t t' Hh Ht IH]; simpl.
  - constructor; [exact Hr | constructor].
  - destruct Hr as [Hlr Hsr]. destruct Hh as [Hlh Hsh].
    rewrite <- Hsr, <- Hsh.
    destruct (fltb (similarity r) (similarity h)).
    + constructor; [now split | exact IH].
    + constructor; [now split|]. constructor; [now split | exact Ht].
Qed.

Lemma sort_desc_same (l l' : list (scored A)) :
  Forall2 same_score l l' -> Forall2 same_score (sort_desc l) (sort_desc l').
Proof.
  induction 1 as [|r r' l l' Hr Hl IH]; simpl; [constructor|].
  now apply insert_desc_same.
Qed.

Lemma filter_same (p : A -> bool) (l l' : list (scored A)) :
  Forall2 same_score l l' ->
  Forall2 same_score (filter (fun r => p (similarity r)) l)
                     (filter (fun r => p (similarity r)) l').
Proof.
  induction 1 as [|r r' l l' Hr Hl IH]; simpl; [constructor|].
  destruct Hr as [Hlr Hsr]. rewrite <- Hsr.
  destruct (p (similarity r)); [constructor; [now split | exact IH] | exact IH].
Qed.

Lemma similarity_same (l l' : list (scored A)) :
  Forall2 same_score l l' -> map similarity l = map similarity l'.
Proof.
  induction 1 as [|r r' l l' [_ Hr] Hl IH]; simpl; [reflexivity|].
  now rewrite Hr, IH.
Qed.

Lemma firstn_same (n : nat) (l l' : list (scored A)) :
  Forall2 same_score l l' -> Forall2 same_score (firstn n l) (firstn n l').
Proof.
  intros Hl. revert n. induction Hl as [|r r' l l' Hr Hl IH]; intros [|n]; simpl;
    constructor; auto.
Qed.

Lemma nlargest_same (n : Z) (l l' : list (scored A)) :
  Forall2 same_score l l' -> Forall2 same_score (nlargest n l) (nlargest n l').
Proof.
  intros Hl. unfold nlargest. destruct (n <=? 0)%Z; [constructor|].
  pose proof (filter_same (fun s => negb (isnan s)) l l' Hl) as Hnum.
  pose proof (filter_same (fun s => isnan s) l l' Hl) as Hnan.
  rewrite <- (Forall2_length Hl).
  destruct (Z.of_nat (length l) <=? n)%Z; apply firstn_same.
  - unfold sort_values_descending. apply Forall2_app; [|exact Hnan].
    rewrite <- (similarity_same _ _ Hnum). now apply iloc_related.
  - apply Forall2_app; [now apply sort_desc_same | exact Hnan].
Qed.

Lemma scored_rows_same (df df' : list (candidate A)) (column : list A) :
  length df = length df' ->
  Forall2 same_score (scored_rows df column) (scored_rows df' column).
Proof.
  intros Hlen. unfold scored_rows. rewrite <- Hlen.
  generalize 0%nat as s. generalize (length df) as n.
  revert df' column Hlen.
  induction df as [|c df IH]; intros [|c' df'] column Hlen n s;
    try discriminate.
  - destruct n; constructor.
  - destruct n as [|n]; [constructor|]. destruct column as [|v column];
      [constructor|].
    simpl. constructor; [now split|].
    apply IH. now injection Hlen.
Qed.

Lemma top_rows_same (df df' : list (candidate A)) (column : list A) (k : Z) :
  length df = length df' ->
  map index (top_rows df' column k) = map index (top_rows df column k) /\
  map similarity_score (top_rows df' column k)
  = map similarity_score (top_rows df column k).
Proof.
  intros Hlen. unfold top_rows, drop_embedding. rewrite <- Hlen, !map_map. simpl.
  pose proof (nlargest_same (Z.min k (Z.of_nat (length df))) _ _
                (scored_rows_same df df' column Hlen)) as Hs.
  induction Hs as [|r r' l l' [Hl Hv] Hs [IH1 IH2]]; simpl; [split; reflexivity|].
  split; f_equal; auto.
Qed.

(** Whether the method returns, and what it ranks, depends on the
    embeddings of the frame only. *)
Lemma find_top_similar_embeddings
    (target : option (vector A)) (df df' : list (candidate A)) (k : Z)
    (out : list (ranked A)) :
  map embedding_v1 df = map embedding_v1 df' ->
  find_top_similar target df k = Return out ->
  find_top_similar target df' k
  = Return (top_rows df' (similarities_of target df) k).
Proof.
  intros Hmap Hout.
  assert (Hlen : length df = length df')
    by (rewrite <- (length_map embedding_v1 df), Hmap; apply length_map).
  unfold find_top_similar in *.
  destruct df as [|c df]; destruct df' as [|c' df']; try discriminate.
  - simpl. now rewrite top_rows_nil.
  - change (length (c :: df) =? 0)%nat with false in Hout.
    change (length (c' :: df') =? 0)%nat with false. cbv iota in *.
    rewrite <- Hmap.
    destruct (np_array _) as [m|] eqn:Hm; [|discriminate].
    apply np_array_returns in Hm. subst m. cbn [obind] in *.
    destruct (batch_cosine_similarity _ _) as [sims|] eqn:Hs; [|discriminate].
    apply batch_cosine_similarity_returns in Hs.
    destruct Hs as [q [-> ->]]. cbn [obind].
    rewrite similarities_of_some.
    unfold setitem_similarity_score.
    rewrite !length_map, (proj2 (Nat.eqb_eq _ _) Hlen). cbn [obind].
    rewrite scored_rows_length by (rewrite !length_map; exact Hlen).
    reflexivity.
Qed.

End Metadata.

(** X7.  The ranking does not look at the metadata.  Two batches whose
    candidates have the same embeddings, whatever their other columns,
    are ranked alike: when the method returns for one, it returns for the
    other, and the two frames have the same index labels and the same
    scores, row by row. *)
Theorem find_top_similar_ignores_metadata {quicksort : Quicksort binary64}
    (target_embedding : option (vector float))
    (candidates_df candidates_df' : list (candidate float)) (top_k : Z)
    (out : list (ranked float)) :
  map embedding_v1 candidates_df = map embedding_v1 candidates_df' ->
  find_top_similar target_embedding candidates_df top_k = Return out ->
  exists out',
    find_top_similar target_embedding candidates_df' top_k = Return out' /\
    map index out' = map index out /\
    map similarity_score out' = map similarity_score out.
Proof.
  intros Hmap Hout.
  assert (Hlen : length candidates_df = length candidates_df')
    by (rewrite <- (length_map embedding_v1 candidates_df), Hmap; apply length_map).
  eexists. split; [exact (find_top_similar_embeddings _ _ _ _ _ Hmap Hout)|].
  apply find_top_similar_returns in Hout. destruct Hout as [_ ->].
  now apply top_rows_same.
Qed.

Lemma find_top_similar_ignores_metadata_witness :
  let renamed := [ row "X" [1; 0; 0]%float;
                   row "Y" [0; 1; 0]%float;
                   row "Z" [0x1.6666666666666p-1; 0x1.6666666666666p-1; 0]%float ] in
  map embedding_v1 batch_ABC = map embedding_v1 renamed /\
  exists out',
    find_top_similar (Some [1; 0; 0]%float) renamed 2 = Return out' /\
    map index out' = [0; 2]%nat /\
    map similarity_score out' = [1; 0x1.6a09e667f3bcdp-1]%float.
Proof.
  intros renamed.
  assert (Hmap : map embedding_v1 batch_ABC = map embedding_v1 renamed)
    by reflexivity.
  split; [exact Hmap|].
  exact (find_top_similar_ignores_metadata (Some [1; 0; 0]%float) batch_ABC renamed 2
           _ Hmap batch_ABC_ranked).
Defined.

(** * Further properties of the search *)

(** ** Stripped strings *)

Section Strings.

Let starts_clean (s : str) : Prop :=
  match s with
  | [] => True
  | c :: _ => isspace c = false
  end.

Lemma lstrip_starts_clean (s : str) : starts_clean (lstrip s).
Proof.
  induction s as [|c s IH]; simpl; [exact I|].
  destruct (isspace c) eqn:Hc; [exact IH | exact Hc].
Qed.

Lemma lstrip_fixed (s : str) : starts_clean s -> lstrip s = s.
Proof. destruct s as [|c s]; simpl; [reflexivity|]. now intros ->. Qed.

Lemma lstrip_snoc (l : str) (c : char) :
  isspace c = false -> lstrip (l ++ [c]) = lstrip l ++ [c].
Proof.
  intros Hc. induction l as [|x l IH]; simpl; [now rewrite Hc|].
  destruct (isspace x); [exact IH | reflexivity].
Qed.

Lemma rstrip_cons (c : char) (t : str) :
  isspace c = false -> rstrip (c :: t) = c :: rstrip t.
Proof.
  intros Hc. unfold rstrip. simpl rev.
  rewrite lstrip_snoc by exact Hc. now rewrite rev_app_distr.
Qed.

Lemma rstrip_starts_clean (s : str) : starts_clean s -> starts_clean (rstrip s).
Proof.
  destruct s as [|c s]; [intros _; exact I|].
  simpl. intros Hc. now rewrite rstrip_cons.
Qed.

Lemma strip_clean (s : str) : starts_clean (strip s) /\ starts_clean (rev (strip s)).
Proof.
  unfold strip. split.
  - apply rstrip_starts_clean, lstrip_starts_clean.
  - unfold rstrip. rewrite rev_involutive. apply lstrip_starts_clean.
Qed.

Lemma clean_strip (s : str) :
  starts_clean s -> starts_clean (rev s) -> strip s = s.
Proof.
  intros H1 H2. unfold strip, rstrip.
  rewrite (lstrip_fixed s H1), (lstrip_fixed (rev s) H2).
  apply rev_involutive.
Qed.

Lemma remove_spaces_starts_clean (s : str) :
  starts_clean s -> starts_clean (remove_spaces s).
Proof.
  destruct s as [|c s]; [intros _; exact I|].
  simpl. intros Hc.
  destruct (c =? 32)%N eqn:H32.
  - apply N.eqb_eq in H32. subst c. discriminate.
  - simpl. exact Hc.
Qed.

Lemma remove_spaces_rev (s : str) : rev (remove_spaces s) = remove_spaces (rev s).
Proof. unfold remove_spaces. symmetry. apply filter_rev. Qed.

(** Stripping a stripped string changes nothing. *)
Lemma strip_strip (s : str) : strip (strip s) = strip s.
Proof. apply clean_strip; apply strip_clean. Qed.

(** Nor does it after the spaces have been removed. *)
Lemma strip_remove_spaces_strip (s : str) :
  strip (remove_spaces (strip s)) = remove_spaces (strip s).
Proof.
  apply clean_strip.
  - apply remove_spaces_starts_clean, strip_clean.
  - rewrite remove_spaces_rev. apply remove_spaces_starts_clean, strip_clean.
Qed.

Lemma remove_spaces_none (s : str) : ~ In 32%N (remove_spaces s).
Proof.
  unfold remove_spaces. intros Hin. apply filter_In in Hin.
  destruct Hin as [_ Hin]. discriminate.
Qed.

End Strings.

(** ** The loops of the parser *)

Section ParserFacts.
Context {pyset : PySet}.

Lemma for_each_failed {T} (body : T -> attempt (list str)) (l : list T)
    (codes : list str) (e : exception) :
  for_each body l codes = Failed e ->
  exists x, In x l /\ body x = Failed e.
Proof.
  revert codes. induction l as [|x l IH]; intros codes; simpl; [discriminate|].
  destruct (body x) as [appended|e'] eqn:Hx.
  - intros Hl. apply IH in Hl. destruct Hl as [y [Hy Hb]].
    exists y. split; [now right | exact Hb].
  - intros [= <-]. exists x. split; [now left | exact Hx].
Qed.

Lemma for_each_fails {T} (body : T -> attempt (list str)) (l : list T)
    (codes : list str) (x : T) :
  In x l -> body x = Failed AttributeError ->
  (forall y e, body y = Failed e -> e = AttributeError) ->
  for_each body l codes = Failed AttributeError.
Proof.
  intros Hx Hb Hall. revert codes.
  induction l as [|y l IH]; intros codes; simpl; [contradiction|].
  destruct (body y) as [appended|e] eqn:Hy.
  - destruct Hx as [->|Hx]; [congruence|]. now apply IH.
  - now rewrite (Hall y e Hy).
Qed.

Lemma for_each_done {T} (body : T -> attempt (list str)) (l : list T)
    (codes out : list str) :
  for_each body l codes = Done out ->
  forall code, In code out ->
    In code codes
    \/ exists x appended, In x l /\ body x = Done appended /\ In code appended.
Proof.
  revert codes. induction l as [|x l IH]; intros codes; simpl.
  - intros [= <-] code Hc. now left.
  - destruct (body x) as [appended|e] eqn:Hx; [|discriminate].
    intros Hl code Hc. destruct (IH _ Hl code Hc) as [Hin|[y [app [Hy [Hb Hin]]]]].
    + apply in_app_or in Hin. destruct Hin as [Hin|Hin]; [now left|].
      right. exists x, appended. auto.
    + right. exists y, app. auto.
Qed.

Lemma for_each_nothing {T} (body : T -> attempt (list str)) (l : list T)
    (codes : list str) :
  Forall (fun x => body x = Done []) l -> for_each body l codes = Done codes.
Proof.
  intros Hl. revert codes. induction Hl as [|x l Hx Hl IH]; intros codes; simpl;
    [reflexivity|].
  now rewrite Hx, app_nil_r.
Qed.

Lemma cpc_code_done (cpc : Element) : exists appended, cpc_code cpc = Done appended.
Proof.
  unfold cpc_code.
  destruct (find [Descendant (lit "section")] cpc) as [s|];
    destruct (find [Descendant (lit "class")] cpc) as [c|];
    destruct (find [Descendant (lit "subclass")] cpc) as [sc|];
    simpl; try (rewrite ?andb_false_r; eexists; reflexivity).
  destruct (_ && _); eexists; reflexivity.
Qed.

Lemma fterm_code_done (fterm : Element) (appended : list str) (code : str) :
  fterm_code fterm = Done appended -> In code appended -> strip code = code.
Proof.
  unfold fterm_code. destruct (truthy (text fterm)).
  - intros [= <-] [<-|[]]. apply strip_strip.
  - intros [= <-] [].
Qed.

Lemma fterm_code_not_failed (fterm : Element) (e : exception) :
  fterm_code fterm <> Failed e.
Proof. unfold fterm_code. destruct (truthy _); discriminate. Qed.

Lemma text_code_done (entry : Element) (appended : list str) (code : str) :
  text_code entry = Done appended -> In code appended ->
  strip code = code /\ ~ In 32%N code.
Proof.
  unfold text_code.
  destruct (find _ entry) as [entry_text|]; [|intros [= <-] []].
  destruct (text entry_text) as [t|]; [|discriminate].
  intros [= <-] [<-|[]]. split.
  - apply strip_remove_spaces_strip.
  - apply remove_spaces_none.
Qed.

Lemma text_code_failed (entry : Element) (e : exception) :
  text_code entry = Failed e ->
  e = AttributeError /\
  exists entry_text,
    find [Descendant (lit "text")] entry = Some entry_text /\ text entry_text = None.
Proof.
  unfold text_code.
  destruct (find _ entry) as [entry_text|]; [|discriminate].
  destruct (text entry_text) as [t|] eqn:Ht; [discriminate|].
  intros [= <-]. split; [reflexivity|]. now exists entry_text.
Qed.

Lemma _get_country_code_not_empty (root : Element) : _get_country_code root <> [].
Proof.
  unfold _get_country_code.
  destruct (find country_path root) as [country|]; [|discriminate].
  destruct (text country) as [[|c s]|]; simpl; discriminate.
Qed.

End ParserFacts.

(** ** What the parser returns and when it raises *)

Local Close Scope float_scope.

(** X8.  A [PatentInfo] the parser returns has a country code that is not
    the empty string, no classification code and no theme code twice,
    and every theme code is free of whitespace at both ends: stripping
    it again changes nothing. *)
Theorem parse_invariants {pyset : PySet}
    (ET_parse : option str -> attempt Element) (xml_path : option str)
    (patent_info : PatentInfo.t) :
  parse ET_parse xml_path = Done patent_info ->
  PatentInfo.country_code patent_info <> [] /\
  NoDup (PatentInfo.classification_codes patent_info) /\
  NoDup (PatentInfo.theme_codes patent_info) /\
  Forall (fun code => strip code = code) (PatentInfo.theme_codes patent_info).
Proof.
  unfold parse.
  destruct (ET_parse xml_path) as [root|]; [|discriminate]. cbn [abind].
  destruct (_get_publication_number root) as [number|]; [|discriminate]. cbn [abind].
  destruct (_get_classification_codes root) as [cls|] eqn:Hcls; [|discriminate].
  cbn [abind].
  destruct (_get_theme_codes root) as [thm|] eqn:Hthm; [|discriminate].
  cbn [abind]. intros [= <-]. simpl.
  split; [apply _get_country_code_not_empty|].
  unfold _get_classification_codes in Hcls. unfold _get_theme_codes in Hthm.
  destruct (for_each text_code (findall [Descendant (lit "classification-ipc")] root) [])
    as [c1|]; [|discriminate]. cbn [abind] in Hcls.
  destruct (for_each cpc_code _ c1) as [c2|]; [|discriminate]. cbn [abind] in Hcls.
  injection Hcls as <-.
  destruct (for_each text_code
              (findall [Descendant (lit "classification-national")] root) [])
    as [t1|] eqn:H1; [|discriminate]. cbn [abind] in Hthm.
  destruct (for_each fterm_code _ t1) as [t2|] eqn:H2; [|discriminate].
  cbn [abind] in Hthm. injection Hthm as <-.
  split; [apply set_list_NoDup|]. split; [apply set_list_NoDup|].
  apply Forall_forall. intros code Hcode. apply (proj1 (set_list_In _ _)) in Hcode.
  destruct (for_each_done _ _ _ _ H2 code Hcode) as [Hin|[x [app [_ [Hb Hin]]]]].
  - destruct (for_each_done _ _ _ _ H1 code Hin) as [[]|[x [app [_ [Hb Hin']]]]].
    exact (proj1 (text_code_done x app code Hb Hin')).
  - exact (fterm_code_done x app code Hb Hin).
Qed.

Lemma parse_invariants_witness :
  let patent_info :=
    {| PatentInfo.publication_number := Some (lit "JP-2020123456-A");
       PatentInfo.country_code := lit "JP";
       PatentInfo.classification_codes := [lit "H04L9/00"];
       PatentInfo.theme_codes := [lit "H04L9/00A"; lit "5J104 AA01"] |} in
  parse (example_reader example_document) None = Done patent_info /\
  PatentInfo.country_code patent_info <> [] /\
  NoDup (PatentInfo.classification_codes patent_info) /\
  NoDup (PatentInfo.theme_codes patent_info) /\
  Forall (fun code => strip code = code) (PatentInfo.theme_codes patent_info).
Proof.
  intros patent_info.
  assert (Hparse : parse (example_reader example_document) None = Done patent_info)
    by (vm_compute; reflexivity).
  split; [exact Hparse|].
  exact (parse_invariants (example_reader example_document) None patent_info Hparse).
Defined.

(** X9.  The parser raises in these cases and in no other: the reader
    raises, and the parser with it; the document has neither a
    [doc-number] under [publication-reference/document-id] nor a
    [publication-number], [ValueError]; it has that [doc-number] but no
    [kind] beside it, [AttributeError], whether or not it has a
    [publication-number]; or its publication number can be read and an
    entry [classification-ipc] or [classification-national] has a [text]
    element without text, [AttributeError]. *)
Theorem parse_raises {pyset : PySet}
    (ET_parse : option str -> attempt Element) (xml_path : option str)
    (e : exception) :
  parse ET_parse xml_path = Failed e <->
  ET_parse xml_path = Failed e
  \/ exists root,
       ET_parse xml_path = Done root /\
       ((e = Builtin ValueError /\
         find doc_number_path root = None /\
         find [Descendant (lit "publication-number")] root = None)
        \/ (e = AttributeError /\
            find doc_number_path root <> None /\ find kind_path root = None)
        \/ (e = AttributeError /\
            (exists number, _get_publication_number root = Done number) /\
            exists entry entry_text,
              (In entry (findall [Descendant (lit "classification-ipc")] root)
               \/ In entry (findall [Descendant (lit "classification-national")] root)) /\
              find [Descendant (lit "text")] entry = Some entry_text /\
              text entry_text = None)).
Proof.
  assert (Htext : forall y e', text_code y = Failed e' -> e' = AttributeError)
    by (intros y e' Hy; now apply text_code_failed in Hy).
  unfold parse. destruct (ET_parse xml_path) as [root|e0]; cbn [abind].
  2:{ split.
      - intros [= ->]. now left.
      - intros [H|[root [H _]]]; [now injection H as -> | discriminate]. }
  split.
  - intros Hp. right. exists root. split; [reflexivity|].
    destruct (_get_publication_number root) as [number|e1] eqn:Hn; cbn [abind] in Hp.
    + right. right.
      assert (Hcause :
        e = AttributeError /\
        exists entry entry_text,
          (In entry (findall [Descendant (lit "classification-ipc")] root)
           \/ In entry (findall [Descendant (lit "classification-national")] root)) /\
          find [Descendant (lit "text")] entry = Some entry_text /\
          text entry_text = None).
      { destruct (_get_classification_codes root) as [cls|e2] eqn:Hc; cbn [abind] in Hp.
        - destruct (_get_theme_codes root) as [thm|e3] eqn:Ht; cbn [abind] in Hp;
            [discriminate|].
          injection Hp as ->. unfold _get_theme_codes in Ht.
          destruct (for_each text_code _ []) as [t1|e4] eqn:H1; cbn [abind] in Ht.
          + destruct (for_each fterm_code _ t1) as [t2|e5] eqn:H2; cbn [abind] in Ht;
              [discriminate|].
            apply for_each_failed in H2. destruct H2 as [x [_ Hx]].
            now apply fterm_code_not_failed in Hx.
          + injection Ht as ->. apply for_each_failed in H1.
            destruct H1 as [x [Hx Hb]]. apply text_code_failed in Hb.
            destruct Hb as [-> [entry_text [Hf Hnone]]].
            split; [reflexivity|]. exists x, entry_text. auto.
        - injection Hp as ->. unfold _get_classification_codes in Hc.
          destruct (for_each text_code _ []) as [c1|e4] eqn:H1; cbn [abind] in Hc.
          + destruct (for_each cpc_code _ c1) as [c2|e5] eqn:H2; cbn [abind] in Hc;
              [discriminate|].
            apply for_each_failed in H2. destruct H2 as [x [_ Hx]].
            destruct (cpc_code_done x) as [app Happ]. congruence.
          + injection Hc as ->. apply for_each_failed in H1.
            destruct H1 as [x [Hx Hb]]. apply text_code_failed in Hb.
            destruct Hb as [-> [entry_text [Hf Hnone]]].
            split; [reflexivity|]. exists x, entry_text. auto. }
      destruct Hcause as [-> Hcause]. split; [reflexivity|].
      split; [now exists number | exact Hcause].
    + injection Hp as ->. unfold _get_publication_number in Hn.
      destruct (find doc_number_path root) as [pub_ref|] eqn:Hd.
      * destruct (find kind_path root) as [kind_elem|] eqn:Hk; [discriminate|].
        injection Hn as <-. right. left. split; [reflexivity|].
        split; [discriminate | reflexivity].
      * destruct (find [Descendant (lit "publication-number")] root) eqn:Hp2;
          [discriminate|].
        injection Hn as <-. left. auto.
  - intros [H|[root' [[= <-] Hcause]]]; [discriminate|].
    destruct Hcause as [[-> [Hd Hp2]]|[[-> [Hd Hk]]|[-> [[number Hn] Hentry]]]].
    + unfold _get_publication_number. now rewrite Hd, Hp2.
    + unfold _get_publication_number.
      destruct (find doc_number_path root); [|congruence]. now rewrite Hk.
    + rewrite Hn. cbn [abind].
      destruct Hentry as [entry [entry_text [Hin [Hf Hnone]]]].
      assert (Hfail : text_code entry = Failed AttributeError)
        by (unfold text_code; now rewrite Hf, Hnone).
      destruct (_get_classification_codes root) as [cls|e2] eqn:Hc; cbn [abind].
      * assert (Hth : _get_theme_codes root = Failed AttributeError).
        { unfold _get_theme_codes. destruct Hin as [Hin|Hin].
          - exfalso. unfold _get_classification_codes in Hc.
            rewrite (for_each_fails text_code _ [] entry Hin Hfail Htext) in Hc.
            discriminate.
          - now rewrite (for_each_fails text_code _ [] entry Hin Hfail Htext). }
        now rewrite Hth.
      * f_equal. unfold _get_classification_codes in Hc.
        destruct (for_each text_code _ []) as [c1|e4] eqn:H1; cbn [abind] in Hc.
        -- destruct (for_each cpc_code _ c1) as [c2|e5] eqn:H2; cbn [abind] in Hc;
             [discriminate|].
           apply for_each_failed in H2. destruct H2 as [x [_ Hx]].
           destruct (cpc_code_done x) as [app Happ]. congruence.
        -- injection Hc as ->. apply for_each_failed in H1.
           destruct H1 as [x [_ Hb]]. now apply Htext in Hb.
Qed.

Lemma parse_raises_witness :
  parse (example_reader example_without_number) None = Failed (Builtin ValueError).
Proof.
  apply (proj2 (parse_raises (example_reader example_without_number) None
                  (Builtin ValueError))).
  right. exists example_without_number. split; [reflexivity|].
  left. repeat split.
Defined.

(** X10.  A [classification-cpc] entry adds a code only when the
    [section], [class] and [subclass] elements found below it all have
    child elements.  When in every such entry one of the three is missing
    or has no child, text or not, the classification codes are those of
    the [classification-ipc] entries alone. *)
Theorem _get_classification_codes_leaf_cpc {pyset : PySet} (root : Element) :
  Forall (fun cpc =>
            exists part,
              In part [lit "section"; lit "class"; lit "subclass"] /\
              forall elem,
                find [Descendant part] cpc = Some elem -> children elem = [])
         (findall [Descendant (lit "classification-cpc")] root) ->
  _get_classification_codes root
  = abind (for_each text_code
             (findall [Descendant (lit "classification-ipc")] root) [])
          (fun codes => Done (set_list codes)).
Proof.
  intros Hleaf. unfold _get_classification_codes.
  destruct (for_each text_code _ []) as [codes|e]; [|reflexivity]. cbn [abind].
  rewrite for_each_nothing; [reflexivity|].
  eapply Forall_impl; [|exact Hleaf].
  intros cpc [part [Hpart Hno]]. unfold cpc_code.
  assert (Hfalse : element_truth (find [Descendant part] cpc) = false).
  { destruct (find [Descendant part] cpc) as [elem|] eqn:Hf; [|reflexivity].
    simpl. now rewrite (Hno elem eq_refl). }
  replace (forallb element_truth _) with false; [reflexivity|].
  symmetry. cbn [forallb].
  destruct Hpart as [<-|[<-|[<-|[]]]]; rewrite Hfalse;
    now rewrite ?andb_false_r.
Qed.

Lemma _get_classification_codes_leaf_cpc_witness :
  Forall (fun cpc =>
            exists part,
              In part [lit "section"; lit "class"; lit "subclass"] /\
              forall elem,
                find [Descendant part] cpc = Some elem -> children elem = [])
         (findall [Descendant (lit "classification-cpc")] example_document) /\
  _get_classification_codes example_document = Done [lit "H04L9/00"].
Proof.
  assert (Hleaf :
    Forall (fun cpc =>
              exists part,
                In part [lit "section"; lit "class"; lit "subclass"] /\
                forall elem,
                  find [Descendant part] cpc = Some elem -> children elem = [])
           (findall [Descendant (lit "classification-cpc")] example_document)).
  { repeat constructor. exists (lit "section").
    split; [now left|]. intros elem [= <-]. reflexivity. }
  split; [exact Hleaf|].
  exact (_get_classification_codes_leaf_cpc example_document Hleaf).
Defined.

(** ** The parser on a well-formed document *)

Section Gazette.
Context {pyset : PySet}.

Lemma descendants_none {T} (name : str) (f : T -> Element) (l : list T) :
  (forall t, filter (has_tag name) (iter (f t)) = []) ->
  filter (has_tag name) (flat_map iter (map f l)) = [].
Proof.
  intros Hf. induction l as [|t l IH]; [reflexivity|].
  cbn [map flat_map]. now rewrite filter_app, Hf, IH.
Qed.

Lemma descendants_each {T} (name : str) (f : T -> Element) (l : list T) :
  (forall t, filter (has_tag name) (iter (f t)) = [f t]) ->
  filter (has_tag name) (flat_map iter (map f l)) = map f l.
Proof.
  intros Hf. induction l as [|t l IH]; [reflexivity|].
  cbn [map flat_map]. now rewrite filter_app, Hf, IH.
Qed.

Variables country number kind : str.
Variables ipc national fterm : list str.

Let doc : Element := gazette country number kind ipc national fterm.

Lemma gazette_descendants (name : str) :
  findall [Descendant name] doc
  = filter (has_tag name) (iter (reference country number kind))
    ++ filter (has_tag name) (flat_map iter (map ipc_entry ipc))
    ++ filter (has_tag name) (flat_map iter (map national_entry national))
    ++ filter (has_tag name) (flat_map iter (map fterm_entry fterm)).
Proof.
  unfold findall, iterfind, doc, gazette, node. cbn [fold_left select flat_map children].
  rewrite app_nil_r. cbn [flat_map].
  now rewrite !flat_map_app, !filter_app.
Qed.

Lemma gazette_reference :
  select (Descendant (lit "publication-reference")) [doc]
  = [reference country number kind].
Proof.
  change (select (Descendant (lit "publication-reference")) [doc])
    with (findall [Descendant (lit "publication-reference")] doc).
  rewrite gazette_descendants.
  rewrite !descendants_none by (intros t; reflexivity).
  reflexivity.
Qed.

Lemma gazette_publication_number :
  _get_publication_number doc = Done (Some (lit "JP-" ++ number ++ lit "-" ++ kind)).
Proof.
  unfold _get_publication_number, find, iterfind, doc_number_path, kind_path.
  cbn [fold_left]. rewrite gazette_reference. reflexivity.
Qed.

Lemma gazette_country_code :
  country <> [] -> _get_country_code doc = country.
Proof.
  intros Hc. unfold _get_country_code, find, iterfind, country_path.
  cbn [fold_left]. rewrite gazette_reference.
  destruct country as [|c s]; [contradiction | reflexivity].
Qed.

Lemma for_each_text_code (f : str -> Element) (l : list str) (codes : list str) :
  (forall t, text_code (f t) = Done [remove_spaces (strip t)]) ->
  for_each text_code (map f l) codes
  = Done (codes ++ map (fun t => remove_spaces (strip t)) l).
Proof.
  intros Hf. revert codes. induction l as [|t l IH]; intros codes; simpl.
  - now rewrite app_nil_r.
  - rewrite Hf, IH, <- app_assoc. reflexivity.
Qed.

Lemma for_each_fterm_code (l : list str) (codes : list str) :
  for_each fterm_code (map fterm_entry l) codes
  = Done (codes ++ map strip (filter (fun t => negb (length t =? 0)%nat) l)).
Proof.
  revert codes. induction l as [|t l IH]; intros codes; simpl.
  - now rewrite app_nil_r.
  - unfold fterm_code at 1. simpl text.
    destruct t as [|c t]; simpl.
    + now rewrite IH, app_nil_r.
    + rewrite IH, <- app_assoc. reflexivity.
Qed.

Lemma gazette_classification_codes :
  _get_classification_codes doc
  = Done (set_list (map (fun t => remove_spaces (strip t)) ipc)).
Proof.
  unfold _get_classification_codes. rewrite !gazette_descendants.
  rewrite (descendants_each (lit "classification-ipc") ipc_entry)
    by (intros t; reflexivity).
  rewrite !descendants_none by (intros t; reflexivity).
  change (filter (has_tag (lit "classification-ipc"))
            (iter (reference country number kind))) with (@nil Element).
  change (filter (has_tag (lit "classification-cpc"))
            (iter (reference country number kind))) with (@nil Element).
  cbn [app]. rewrite app_nil_r.
  rewrite for_each_text_code by (intros t; reflexivity).
  reflexivity.
Qed.

Lemma gazette_theme_codes :
  _get_theme_codes doc
  = Done (set_list
            (map (fun t => remove_spaces (strip t)) national
             ++ map strip (filter (fun t => negb (length t =? 0)%nat) fterm))).
Proof.
  unfold _get_theme_codes. rewrite !gazette_descendants.
  rewrite (descendants_each (lit "classification-national") national_entry)
    by (intros t; reflexivity).
  rewrite (descendants_each (lit "f-term") fterm_entry)
    by (intros t; reflexivity).
  rewrite !descendants_none by (intros t; reflexivity).
  change (filter (has_tag (lit "classification-national"))
            (iter (reference country number kind))) with (@nil Element).
  change (filter (has_tag (lit "f-term"))
            (iter (reference country number kind))) with (@nil Element).
  cbn [app]. rewrite app_nil_r.
  rewrite for_each_text_code by (intros t; reflexivity).
  cbn [abind app]. rewrite for_each_fterm_code.
  reflexivity.
Qed.

End Gazette.

(** X11.  From a document that has a publication reference with a
    country, a document number and a kind, and entries
    [classification-ipc], [classification-national] and [f-term], the
    parser returns: the publication number [JP-number-kind], with [JP]
    whatever the country of the reference; that country as the country
    code; as classification codes the IPC texts, stripped and without
    spaces; as theme codes the FI texts, stripped and without spaces,
    and the F-term texts, stripped, an F-term without text being left
    out; each list as a set, in the order the set gives. *)
Theorem parse_gazette {pyset : PySet}
    (ET_parse : option str -> attempt Element) (xml_path : option str)
    (country number kind : str) (ipc national fterm : list str) :
  ET_parse xml_path = Done (gazette country number kind ipc national fterm) ->
  country <> [] ->
  parse ET_parse xml_path
  = Done {| PatentInfo.publication_number :=
              Some (lit "JP-" ++ number ++ lit "-" ++ kind);
            PatentInfo.country_code := country;
            PatentInfo.classification_codes :=
              set_list (map (fun t => remove_spaces (strip t)) ipc);
            PatentInfo.theme_codes :=
              set_list
                (map (fun t => remove_spaces (strip t)) national
                 ++ map strip (filter (fun t => negb (length t =? 0)%nat) fterm)) |}.
Proof.
  intros Hread Hcountry. unfold parse. rewrite Hread. cbn [abind].
  rewrite gazette_publication_number. cbn [abind].
  rewrite gazette_classification_codes. cbn [abind].
  rewrite gazette_theme_codes. cbn [abind].
  now rewrite gazette_country_code.
Qed.

Lemma parse_gazette_witness :
  let doc := gazette (lit "US") (lit "2020123456") (lit "A")
               [lit " H04L 9/00 "; lit "G06F 21/60"] [lit "H04L9/00 A"]
               [lit " 5J104 AA01 "] in
  example_reader doc None = Done doc /\
  lit "US" <> [] /\
  parse (example_reader doc) None
  = Done {| PatentInfo.publication_number := Some (lit "JP-2020123456-A");
            PatentInfo.country_code := lit "US";
            PatentInfo.classification_codes := [lit "H04L9/00"; lit "G06F21/60"];
            PatentInfo.theme_codes := [lit "H04L9/00A"; lit "5J104 AA01"] |}.
Proof.
  intros doc.
  assert (Hread : example_reader doc None = Done doc) by reflexivity.
  assert (Hcountry : lit "US" <> []) by discriminate.
  split; [exact Hread|]. split; [exact Hcountry|].
  exact (parse_gazette (example_reader doc) None (lit "US") (lit "2020123456") (lit "A")
           [lit " H04L 9/00 "; lit "G06F 21/60"] [lit "H04L9/00 A"]
           [lit " 5J104 AA01 "] Hread Hcountry).
Defined.

(** ** The queries *)

Section SearchFacts.
Context {A : Type} {arith : Arith A} {quicksort : Quicksort arith} {pyset : PySet}.

Lemma prefixes_added_In (codes : list str) (p : str) :
  In p (prefixes_added codes) <->
  exists code, In code codes /\ (2 <= length code)%nat /\ p = firstn 2 code.
Proof.
  unfold prefixes_added. rewrite in_map_iff. split.
  - intros [code [<- Hc]]. apply filter_In in Hc. destruct Hc as [Hc Hl].
    exists code. split; [exact Hc|]. split; [now apply Nat.leb_le | reflexivity].
  - intros [code [Hc [Hl ->]]]. exists code. split; [reflexivity|].
    apply filter_In. split; [exact Hc | now apply Nat.leb_le].
Qed.

Lemma prefix_2chars_In (codes : list str) (p : str) :
  In p (prefix_2chars codes) <->
  exists code, In code codes /\ (2 <= length code)%nat /\ p = firstn 2 code.
Proof. unfold prefix_2chars. rewrite set_list_In. apply prefixes_added_In. Qed.

Lemma prefix_2chars_nil (codes : list str) :
  prefix_2chars codes = [] ->
  forall code, In code codes -> (length code < 2)%nat.
Proof.
  intros Hnil code Hc.
  destruct (Nat.lt_ge_cases (length code) 2) as [Hl|Hl]; [exact Hl|].
  exfalso. assert (Hin : In (firstn 2 code) (prefix_2chars codes))
    by (apply prefix_2chars_In; now exists code).
  now rewrite Hnil in Hin.
Qed.

(** With a target, the ranking raises nothing but [ValueError], and only
    when a candidate's vector has another length than the target's. *)
Lemma find_top_similar_raises
    (q : vector A) (df : list (candidate A)) (k : Z) (e : exn) :
  find_top_similar (Some q) df k = Raise e ->
  e = ValueError /\
  Exists (fun c => length (embedding_v1 c) <> length q) df.
Proof.
  intros Hr.
  destruct (Forall_Exists_dec (fun c : candidate A => length (embedding_v1 c) = length q)
              (fun c => Nat.eq_dec (length (embedding_v1 c)) (length q)) df)
    as [Hall|Hex].
  { rewrite find_top_similar_aligned in Hr by exact Hall. discriminate. }
  split; [|exact Hex].
  unfold find_top_similar in Hr. destruct df as [|c df]; [discriminate|].
  change (length (c :: df) =? 0)%nat with false in Hr. cbv iota in Hr.
  destruct (np_array _) as [m|e'] eqn:Hm.
  - apply np_array_returns in Hm. subst m. cbn [obind] in Hr.
    rewrite batch_cosine_similarity_misaligned in Hr.
    + cbn [obind] in Hr. now injection Hr.
    + apply Exists_exists in Hex. destruct Hex as [x [Hx Hl]].
      apply Exists_exists. exists (embedding_v1 x). split; [|exact Hl].
      now apply in_map.
  - apply np_array_raises in Hm. subst e'. cbn [obind] in Hr. now injection Hr.
Qed.

End SearchFacts.

(** X12.  [get_candidate_embeddings] raises nothing and sends at most one
    query.  When no classification or theme code has two characters it
    sends none and returns the empty frame.  Otherwise it sends one,
    whose conditions are built from a list of prefixes that holds, once
    each, exactly the first two characters of the codes of two characters
    or more; it returns the rows of the answer, or the empty frame when
    the client raises. *)
Theorem get_candidate_embeddings_prefixes {pyset : PySet}
    (client : Client float) (classification_codes theme_codes : list str)
    (country_code : str) :
  let codes := classification_codes ++ theme_codes in
  let result :=
    get_candidate_embeddings client classification_codes theme_codes country_code in
  ((forall code, In code codes -> (length code < 2)%nat) /\ result = ([], []))
  \/ exists prefixes,
       prefixes <> [] /\ NoDup prefixes /\
       (forall p, In p prefixes <->
          exists code, In code codes /\ (2 <= length code)%nat /\ p = firstn 2 code) /\
       Forall (fun p => length p = 2%nat) prefixes /\
       snd result = [Select_candidates (like_conditions prefixes) country_code] /\
       (candidate_rows client (like_conditions prefixes) country_code
        = Done (fst result)
        \/ fst result = [] /\
           exists e, candidate_rows client (like_conditions prefixes) country_code
                     = Failed e).
Proof.
  intros codes result. subst result. unfold get_candidate_embeddings. fold codes.
  destruct (prefix_2chars codes) as [|p0 ps] eqn:Hp.
  - left. split; [|reflexivity]. now apply prefix_2chars_nil.
  - right. exists (p0 :: ps). rewrite <- Hp.
    split; [rewrite Hp; discriminate|].
    split; [apply set_list_NoDup|].
    split; [intros p; apply prefix_2chars_In|].
    split.
    { apply Forall_forall. intros p Hin. apply prefix_2chars_In in Hin.
      destruct Hin as [code [_ [Hl ->]]]. rewrite length_firstn. lia. }
    split; [reflexivity|]. simpl fst.
    destruct (candidate_rows client _ country_code) as [rows|e].
    + now left.
    + right. split; [reflexivity | now exists e].
Qed.

Lemma get_candidate_embeddings_prefixes_witness :
  let classification_codes := [lit "H04L9/00"] in
  let theme_codes := [lit "H04L9/00A"; lit "5J104 AA01"; lit "X"] in
  let result :=
    get_candidate_embeddings example_client classification_codes theme_codes
      (lit "JP") in
  result
  = (batch_ABC,
     [Select_candidates (lit "c.code LIKE 'H0%' OR c.code LIKE '5J%'") (lit "JP")]) /\
  exists prefixes,
    NoDup prefixes /\ Forall (fun p => length p = 2%nat) prefixes /\
    snd result = [Select_candidates (like_conditions prefixes) (lit "JP")].
Proof.
  intros classification_codes theme_codes result.
  split; [vm_compute; reflexivity|].
  destruct (get_candidate_embeddings_prefixes example_client
              classification_codes theme_codes (lit "JP"))
    as [[Hshort _]|[prefixes [_ [Hnodup [_ [Hlen [Hsent _]]]]]]].
  - exfalso. specialize (Hshort (lit "H04L9/00") (or_introl eq_refl)).
    simpl in Hshort. lia.
  - exists prefixes. split; [exact Hnodup|]. split; [exact Hlen | exact Hsent].
Defined.

(** ** The search *)

(** X13.  [search] raises in two cases only.  The parser raises: [search]
    raises the same and no query was sent.  Or both queries were sent and
    answered, the second with at least one row, and a candidate's vector
    has another length than the target's: [ValueError].  An exception of
    the BigQuery client never leaves [search], and the ranking is never
    called without a target ([TypeError]). *)
Theorem search_raises {quicksort : Quicksort binary64} {pyset : PySet}
    (client : Client float) (ET_parse : option str -> attempt Element)
    (xml_path : option str) (top_k : Z) (e : exception) (sent : list query) :
  search client ET_parse xml_path top_k = (Failed e, sent) ->
  (parse ET_parse xml_path = Failed e /\ sent = [])
  \/ (e = Builtin ValueError /\
      exists patent_info target_embedding others conditions candidates_df,
        parse ET_parse xml_path = Done patent_info /\
        target_rows client (PatentInfo.publication_number patent_info)
                    (PatentInfo.country_code patent_info)
        = Done (target_embedding :: others) /\
        candidate_rows client conditions (PatentInfo.country_code patent_info)
        = Done candidates_df /\
        sent = [ Select_target (PatentInfo.publication_number patent_info)
                               (PatentInfo.country_code patent_info);
                 Select_candidates conditions (PatentInfo.country_code patent_info) ] /\
        Exists (fun c => length (embedding_v1 c) <> length target_embedding)
               candidates_df).
Proof.
  unfold search.
  destruct (parse ET_parse xml_path) as [patent_info|e0] eqn:Hparse.
  2:{ intros [= -> <-]. now left. }
  unfold get_target_embedding.
  destruct (target_rows client _ _) as [[|target_embedding others]|e1] eqn:Ht;
    try discriminate.
  unfold get_candidate_embeddings.
  destruct (prefix_2chars _) as [|p0 ps] eqn:Hp; [discriminate|].
  destruct (candidate_rows client _ _) as [candidates_df|e2] eqn:Hc;
    [|discriminate].
  destruct (length candidates_df =? 0)%nat; [discriminate|].
  destruct (find_top_similar _ _ _) as [out|e3] eqn:Hf; [discriminate|].
  simpl. intros [= <- <-]. right.
  apply find_top_similar_raises in Hf. destruct Hf as [-> Hex].
  split; [reflexivity|].
  exists patent_info, target_embedding, others, (like_conditions (p0 :: ps)),
         candidates_df.
  repeat split; assumption.
Qed.

Lemma search_raises_witness :
  search example_client (example_reader example_without_number) None 2
  = (Failed (Builtin ValueError), []) /\
  parse (example_reader example_without_number) None = Failed (Builtin ValueError).
Proof.
  assert (Hs : search example_client (example_reader example_without_number) None 2
               = (Failed (Builtin ValueError), [])) by (vm_compute; reflexivity).
  split; [exact Hs|].
  destruct (search_raises example_client (example_reader example_without_number)
              None 2 (Builtin ValueError) [] Hs) as [[Hp _]|[_ Hex]].
  - exact Hp.
  - exfalso. destruct Hex as [i [t [o [c [df [_ [_ [_ [Hsent _]]]]]]]]].
    discriminate.
Defined.

(** X14.  When [search] returns a frame, the parser returned, the
    frame has at most [top_k] rows, and one of four things happened.
    The target query raised or had no row: the frame is empty and only
    the target query was sent.  A target was found and no parsed code has
    two characters: the frame is empty and only the target query was
    sent.  A target was found, the candidates query was sent after the
    target query, for the prefixes of the parsed classification and theme
    codes and the parsed country code, and it raised or had no row: the
    frame is empty.  Or that query had rows, and the frame is the ranking
    [find_top_similar] computes from the first row of the target query
    and those rows. *)
Theorem search_returns {quicksort : Quicksort binary64} {pyset : PySet}
    (client : Client float) (ET_parse : option str -> attempt Element)
    (xml_path : option str) (top_k : Z)
    (out : list (ranked float)) (sent : list query) :
  search client ET_parse xml_path top_k = (Done out, sent) ->
  exists patent_info,
    parse ET_parse xml_path = Done patent_info /\
    let number := PatentInfo.publication_number patent_info in
    let country := PatentInfo.country_code patent_info in
    let prefixes :=
      prefix_2chars (PatentInfo.classification_codes patent_info
                     ++ PatentInfo.theme_codes patent_info) in
    let conditions := like_conditions prefixes in
    (Z.of_nat (length out) <= Z.max 0 top_k)%Z /\
    ((((exists e, target_rows client number country = Failed e)
       \/ target_rows client number country = Done []) /\
      out = [] /\ sent = [Select_target number country])
     \/ exists target_embedding others,
          target_rows client number country = Done (target_embedding :: others) /\
          ((prefixes = [] /\ out = [] /\ sent = [Select_target number country])
           \/ (prefixes <> [] /\
               sent = [Select_target number country;
                       Select_candidates conditions country] /\
               ((((exists e, candidate_rows client conditions country = Failed e)
                  \/ candidate_rows client conditions country = Done []) /\
                 out = [])
                \/ exists c candidates,
                     candidate_rows client conditions country
                     = Done (c :: candidates) /\
                     find_top_similar (Some target_embedding) (c :: candidates) top_k
                     = Return out)))).
Proof.
  unfold search.
  destruct (parse ET_parse xml_path) as [patent_info|e0] eqn:Hparse;
    [|discriminate].
  intros Hs. exists patent_info. split; [reflexivity|]. cbv zeta.
  unfold get_target_embedding in Hs.
  destruct (target_rows client _ _) as [[|target_embedding others]|e1] eqn:Ht.
  - injection Hs as <- <-. split; [simpl; lia|]. left. auto.
  - unfold get_candidate_embeddings in Hs.
    destruct (prefix_2chars _) as [|p0 ps] eqn:Hp.
    { injection Hs as <- <-. split; [simpl; lia|].
      right. exists target_embedding, others. split; [reflexivity|]. left. auto. }
    destruct (candidate_rows client _ _) as [[|c candidates]|e2] eqn:Hc.
    + injection Hs as <- <-. split; [simpl; lia|].
      right. exists target_embedding, others. split; [reflexivity|]. right.
      split; [discriminate|]. split; [reflexivity|]. left. auto.
    + change (length (c :: candidates) =? 0)%nat with false in Hs. cbv iota in Hs.
      destruct (find_top_similar _ _ _) as [out'|e3] eqn:Hf; [|discriminate].
      injection Hs as <- <-. split.
      * apply find_top_similar_returns in Hf. destruct Hf as [Hlen ->].
        rewrite top_rows_length by exact Hlen. lia.
      * right. exists target_embedding, others. split; [reflexivity|]. right.
        split; [discriminate|]. split; [reflexivity|]. right.
        exists c, candidates. split; [reflexivity | exact Hf].
    + injection Hs as <- <-. split; [simpl; lia|].
      right. exists target_embedding, others. split; [reflexivity|]. right.
      split; [discriminate|]. split; [reflexivity|]. left. split; [|reflexivity].
      left. now exists e2.
  - injection Hs as <- <-. split; [simpl; lia|]. left.
    split; [left; now exists e1 | auto].
Qed.

Lemma search_returns_witness :
  let out := [ {| index := 0; info := patent "A"; similarity_score := 1%float |};
               {| index := 2; info := patent "C";
                  similarity_score := 0x1.6a09e667f3bcdp-1%float |} ] in
  let sent := [ Select_target (Some (lit "JP-2020123456-A")) (lit "JP");
                Select_candidates (lit "c.code LIKE 'H0%' OR c.code LIKE '5J%'")
                                  (lit "JP") ] in
  search example_client (example_reader example_document) None 2 = (Done out, sent) /\
  exists patent_info,
    parse (example_reader example_document) None = Done patent_info /\
    (Z.of_nat (length out) <= Z.max 0 2)%Z /\
    exists target_embedding others c candidates,
      target_rows example_client (PatentInfo.publication_number patent_info)
                  (PatentInfo.country_code patent_info)
      = Done (target_embedding :: others) /\
      find_top_similar (Some target_embedding) (c :: candidates) 2 = Return out.
Proof.
  intros out sent.
  assert (Hs : search example_client (example_reader example_document) None 2
               = (Done out, sent)) by (vm_compute; reflexivity).
  split; [exact Hs|].
  destruct (search_returns example_client (example_reader example_document)
              None 2 out sent Hs) as [patent_info [Hp [Hl Hcases]]].
  exists patent_info. split; [exact Hp|]. split; [exact Hl|].
  destruct Hcases as [[_ [Hout _]]|[t [others [Ht Hfound]]]]; [discriminate Hout|].
  destruct Hfound as [[_ [Hout _]]|[_ [_ Hranked]]]; [discriminate Hout|].
  destruct Hranked as [[_ Hout]|[c [candidates [_ Hf]]]]; [discriminate Hout|].
  exists t, others, c, candidates. split; [exact Ht | exact Hf].
Defined.

(** X15.  When the parser returns and the target query raises or has no
    row, [search] returns the empty frame, raises nothing, and sends the
    target query only.  When a target is found and no parsed code has two
    characters, the same.  When a target is found and the candidates
    query, the one for the prefixes of the parsed codes and the parsed
    country code, raises or has no row, [search] returns the empty frame
    and has sent the target query and that query. *)
Theorem search_empty_frame {quicksort : Quicksort binary64} {pyset : PySet}
    (client : Client float) (ET_parse : option str -> attempt Element)
    (xml_path : option str) (top_k : Z) (patent_info : PatentInfo.t) :
  parse ET_parse xml_path = Done patent_info ->
  let number := PatentInfo.publication_number patent_info in
  let country := PatentInfo.country_code patent_info in
  let prefixes :=
    prefix_2chars (PatentInfo.classification_codes patent_info
                   ++ PatentInfo.theme_codes patent_info) in
  let conditions := like_conditions prefixes in
  ((forall target_embedding others,
      target_rows client number country <> Done (target_embedding :: others)) ->
   search client ET_parse xml_path top_k = (Done [], [Select_target number country]))
  /\
  (forall target_embedding others,
     target_rows client number country = Done (target_embedding :: others) ->
     (prefixes = [] ->
      search client ET_parse xml_path top_k
      = (Done [], [Select_target number country])) /\
     (prefixes <> [] ->
      (forall c candidates,
         candidate_rows client conditions country <> Done (c :: candidates)) ->
      search client ET_parse xml_path top_k
      = (Done [], [Select_target number country;
                   Select_candidates conditions country]))).
Proof.
  intros Hparse number country prefixes conditions. unfold search. rewrite Hparse.
  unfold get_target_embedding. fold number. fold country. split.
  - intros Hno.
    destruct (target_rows client number country) as [[|t others]|e1] eqn:Ht;
      try reflexivity.
    now destruct (Hno t others).
  - intros t others ->. unfold get_candidate_embeddings.
    fold prefixes. split.
    + intros ->. reflexivity.
    + intros Hp Hno. destruct prefixes as [|p0 ps] eqn:Hps; [contradiction|].
      fold conditions in Hno |- *.
      destruct (candidate_rows client conditions country) as [[|c candidates]|e2] eqn:Hc;
        try reflexivity.
      exfalso. exact (Hno _ _ eq_refl).
Qed.

Lemma search_empty_frame_witness :
  let patent_info :=
    {| PatentInfo.publication_number := Some (lit "JP-2020123456-A");
       PatentInfo.country_code := lit "JP";
       PatentInfo.classification_codes := [lit "H04L9/00"];
       PatentInfo.theme_codes := [lit "H04L9/00A"; lit "5J104 AA01"] |} in
  let conditions := lit "c.code LIKE 'H0%' OR c.code LIKE '5J%'" in
  parse (example_reader example_document) None = Done patent_info /\
  search failing_client (example_reader example_document) None 2
  = (Done [], [Select_target (Some (lit "JP-2020123456-A")) (lit "JP")]) /\
  target_rows candidates_failing_client (Some (lit "JP-2020123456-A")) (lit "JP")
  = Done [[1; 0; 0]%float] /\
  candidate_rows candidates_failing_client conditions (lit "JP")
  = Failed (Other "GoogleAPIError") /\
  search candidates_failing_client (example_reader example_document) None 2
  = (Done [], [Select_target (Some (lit "JP-2020123456-A")) (lit "JP");
               Select_candidates conditions (lit "JP")]).
Proof.
  intros patent_info conditions.
  assert (Hparse : parse (example_reader example_document) None = Done patent_info)
    by (vm_compute; reflexivity).
  split; [exact Hparse|]. split; [|split; [reflexivity|split; [reflexivity|]]].
  - apply (proj1 (search_empty_frame failing_client (example_reader example_document)
                    None 2 patent_info Hparse)).
    intros t others. discriminate.
  - apply (proj2 (proj2 (search_empty_frame candidates_failing_client
                           (example_reader example_document) None 2 patent_info Hparse)
                    [1; 0; 0]%float [] eq_refl)).
    + vm_compute. discriminate.
    + intros c candidates. discriminate.
Defined.

(** ** main *)

(** X16.  [main] never writes the CSV file.  When the search returns a
    frame with at least one row, [main] raises [NameError] at the name
    [args] before [to_csv] is called; it ends without an exception only
    after asking for the project id or after logging that there are no
    results. *)
Theorem main_never_saves {quicksort : Quicksort binary64} {pyset : PySet}
    (getenv : string -> option str) (connect : str -> attempt (Client float))
    (ET_parse : option str -> attempt Element)
    (r : attempt unit) (events : list (event float)) :
  main getenv connect ET_parse = (r, events) ->
  (forall path rows, ~ In (To_csv path rows) events) /\
  (r = Done tt ->
   events = [Asked_for_project_id]
   \/ exists sent, events = map Sent sent ++ [Log_no_results]) /\
  (forall client c out sent,
     truthy (getenv "GCP_PROJECT_ID"%string) = true ->
     connect (format (getenv "GCP_PROJECT_ID"%string)) = Done client ->
     search client ET_parse (getenv "GCP_XML_PATH"%string) 1000 = (Done (c :: out), sent) ->
     r = Failed NameError).
Proof.
  assert (Hsent : forall (sent : list query) path rows,
             ~ In (To_csv (A := float) path rows) (map Sent sent)).
  { intros sent path rows Hin. apply in_map_iff in Hin.
    destruct Hin as [q [Hq _]]. discriminate. }
  unfold main.
  destruct (truthy (getenv "GCP_PROJECT_ID"%string)) eqn:Hid; simpl negb; cbv iota.
  2:{ intros [= <- <-]. split; [|split].
      - intros path rows [H|[]]. discriminate.
      - intros _. now left.
      - discriminate. }
  destruct (connect _) as [client|e] eqn:Hc.
  2:{ intros [= <- <-]. split; [|split].
      - intros path rows [].
      - discriminate.
      - intros client c out sent _ [=]. }
  destruct (search client ET_parse _ 1000) as [[results|e] sent] eqn:Hs.
  2:{ intros [= <- <-]. split; [|split].
      - apply Hsent.
      - discriminate.
      - intros client' c out sent' _ [= <-]. rewrite Hs. discriminate. }
  destruct results as [|c results]; simpl Nat.ltb; cbv iota.
  - intros [= <- <-]. split; [|split].
    + intros path rows Hin. apply in_app_or in Hin.
      destruct Hin as [Hin|[Hin|[]]]; [now apply Hsent in Hin | discriminate].
    + intros _. right. now exists sent.
    + intros client' c out sent' _ [= <-]. rewrite Hs. discriminate.
  - unfold args. intros [= <- <-]. split; [|split].
    + apply Hsent.
    + discriminate.
    + reflexivity.
Qed.

Lemma main_never_saves_witness :
  let run := main (fun _ => Some (lit "my-project")) (fun _ => Done example_client)
                  (example_reader example_document) in
  fst run = Failed NameError /\
  forall path rows, ~ In (To_csv path rows) (snd run).
Proof.
  intros run.
  destruct (main_never_saves (fun _ => Some (lit "my-project"))
              (fun _ => Done example_client) (example_reader example_document)
              (fst run) (snd run) (surjective_pairing run)) as [Hcsv _].
  split; [vm_compute; reflexivity | exact Hcsv].
Defined.
